(** * Chess rule engine (ChessLogic.ts): shallow embedding and properties

    The engine of [src/components/games/Chess/ChessLogic.ts] is embedded
    function by function.  Numbers are [Z]; a board is the array of arrays of
    the source, a list of rows of optional pieces; an object field the source
    declares optional (or that a spread of [null] leaves out) is an [option].
    Reads [board[r][c]] and writes [board[r][c] = v] follow what JavaScript
    arrays do out of range. *)

From Stdlib Require Import ZArith String Ascii Bool Lia Btauto.
From stdpp Require Import base option list list_numbers strings.

Local Open Scope Z_scope.

(** ** Data model (Chess.ts) *)

Inductive ChessColor := white | black.

Inductive PieceType := pawn | knight | bishop | rook | queen | king.

(** The [promotion] field of a move: ['knight' | 'bishop' | 'rook' | 'queen']. *)
Inductive Promotion := promoKnight | promoBishop | promoRook | promoQueen.

Inductive CastleSide := kingside | queenside.

#[global] Instance ChessColor_eq_dec : EqDecision ChessColor.
Proof. solve_decision. Defined.
#[global] Instance PieceType_eq_dec : EqDecision PieceType.
Proof. solve_decision. Defined.
#[global] Instance CastleSide_eq_dec : EqDecision CastleSide.
Proof. solve_decision. Defined.
#[global] Instance Promotion_eq_dec : EqDecision Promotion.
Proof. solve_decision. Defined.

(** A piece object.  [hasMoved] is optional in the type.  [type] and [color]
    are always present on the pieces of a [ChessBoard]; they are options here
    because [handleCastle] builds [{ ...rook, hasMoved: true }] from whatever
    stands on the rook square, and the spread of [null] has neither field. *)
Module ChessPiece.
Record t := mk {
  type : option PieceType;
  color : option ChessColor;
  hasMoved : option bool
}.
End ChessPiece.
Abbreviation ChessPiece := ChessPiece.t.

#[global] Instance ChessPiece_eq_dec : EqDecision ChessPiece.
Proof. solve_decision. Defined.

(** A cell holds a piece or [null]; a row is an array of cells. *)
Abbreviation Row := (list (option ChessPiece)).
Abbreviation ChessBoard := (list (list (option ChessPiece))).

Module ChessSquare.
Record t := mk { row : Z; col : Z }.
End ChessSquare.
Abbreviation ChessSquare := ChessSquare.t.

#[global] Instance ChessSquare_eq_dec : EqDecision ChessSquare.
Proof. solve_decision. Defined.

Module ChessMove.
Record t := mk {
  from : ChessSquare;
  to : ChessSquare;
  promotion : option Promotion;
  isCapture : option bool;
  isCheck : option bool;
  isCheckmate : option bool;
  isCastle : option CastleSide;
  isEnPassant : option bool
}.
End ChessMove.
Abbreviation ChessMove := ChessMove.t.

#[global] Instance ChessMove_eq_dec : EqDecision ChessMove.
Proof. solve_decision. Defined.

Module MoveResult.
Record t := mk {
  valid : bool;
  error : option string;
  move : option ChessMove;
  newBoard : option ChessBoard;
  inCheck : option ChessColor;
  isCheckmate : option bool;
  isStalemate : option bool;
  isDraw : option bool
}.
End MoveResult.
Abbreviation MoveResult := MoveResult.t.

(** What a call does: it returns a value, or a [TypeError] is thrown (an
    index into [undefined], when a row index is outside the board). *)
Inductive Outcome (A : Type) :=
  | Returned (a : A)
  | TypeError.
Arguments Returned {A} a.
Arguments TypeError {A}.

(** ** JavaScript values and arrays *)

(** Truthiness of an optional boolean field. *)
Definition truthy (o : option bool) : bool :=
  match o with Some true => true | _ => false end.

(** [board[r]]: the row, or [undefined]. *)
Definition rowAt (board : ChessBoard) (r : Z) : option Row :=
  if r <? 0 then None else board !! Z.to_nat r.

(** [board[r][c]] when [board[r]] is a row: the piece there; [None] stands for
    [null] and for [undefined] (an index outside the row), which every test
    of the source but one ([isNullAt] below) treats alike. *)
Definition cell (board : ChessBoard) (r c : Z) : option ChessPiece :=
  match rowAt board r with
  | Some cells => if c <? 0 then None else mjoin (cells !! Z.to_nat c)
  | None => None
  end.

(** [board[r][c] !== null] is false: the cell exists and holds [null]. *)
Definition isNullAt (board : ChessBoard) (r c : Z) : bool :=
  match rowAt board r with
  | Some cells =>
      if c <? 0 then false
      else match cells !! Z.to_nat c with Some None => true | _ => false end
  | None => false
  end.

(** [cells[c] = v] on an array: inside it replaces; at or past the end the
    array grows (cells in between are holes, read as empty); a negative index
    sets a property that no indexed read sees. *)
Definition setRow (cells : Row) (c : Z) (v : option ChessPiece) : Row :=
  if c <? 0 then cells
  else if (Z.to_nat c <? length cells)%nat then <[Z.to_nat c := v]> cells
  else cells ++ replicate (Z.to_nat c - length cells) None ++ [v].

(** [board[r][c] = v] on a copy of the board.  The statement throws when
    [board[r]] is [undefined]; [makeMove] below guards that case, and the
    board is returned unchanged here. *)
Definition setCell (board : ChessBoard) (r c : Z) (v : option ChessPiece)
  : ChessBoard :=
  match rowAt board r with
  | Some cells => <[Z.to_nat r := setRow cells c v]> board
  | None => board
  end.

(** [JSON.parse(JSON.stringify(board))]: a deep copy.  Boards are values
    here, so the copy is the board itself and every write below is made on
    the copy. *)
Definition cloneBoard (board : ChessBoard) : ChessBoard := board.

Definition opponent (c : ChessColor) : ChessColor :=
  match c with white => black | black => white end.

(** [c === 'white' ? 'black' : 'white'] on a value that may be [undefined]. *)
Definition opponentColorOf (c : option ChessColor) : ChessColor :=
  if bool_decide (c = Some white) then black else white.

Definition inBounds (r c : Z) : bool :=
  (0 <=? r) && (r <? 8) && (0 <=? c) && (c <? 8).

(** [piece && piece.type === t && piece.color === c].  [c] is an option
    because the source also passes [piece.color], which is [undefined] on an
    object without that field ([undefined === undefined] holds). *)
Definition isPieceOf (t : PieceType) (c : option ChessColor)
  (o : option ChessPiece) : bool :=
  match o with
  | Some piece =>
      bool_decide (ChessPiece.type piece = Some t)
      && bool_decide (ChessPiece.color piece = c)
  | None => false
  end.

(** [{ ...piece, hasMoved: true }]; the spread of [null] has no field. *)
Definition markMoved (o : option ChessPiece) : ChessPiece :=
  match o with
  | Some piece =>
      ChessPiece.mk (ChessPiece.type piece) (ChessPiece.color piece) (Some true)
  | None => ChessPiece.mk None None (Some true)
  end.

Definition pieceTypeOf (p : Promotion) : PieceType :=
  match p with
  | promoKnight => knight
  | promoBishop => bishop
  | promoRook => rook
  | promoQueen => queen
  end.

(** The move literals of the generators: [{ from, to }] and the same with
    [isCapture] or [isCastle]. *)
Definition plainMove (row col toRow toCol : Z) : ChessMove :=
  ChessMove.mk (ChessSquare.mk row col) (ChessSquare.mk toRow toCol)
    None None None None None None.

Definition captureMove (row col toRow toCol : Z) (cap : bool) : ChessMove :=
  ChessMove.mk (ChessSquare.mk row col) (ChessSquare.mk toRow toCol)
    None (Some cap) None None None None.

Definition castleMove (row col toRow toCol : Z) (side : CastleSide) : ChessMove :=
  ChessMove.mk (ChessSquare.mk row col) (ChessSquare.mk toRow toCol)
    None None None None (Some side) None.

(** [move.promotion = p] *)
Definition setPromotion (m : ChessMove) (p : Promotion) : ChessMove :=
  ChessMove.mk (ChessMove.from m) (ChessMove.to m) (Some p)
    (ChessMove.isCapture m) (ChessMove.isCheck m) (ChessMove.isCheckmate m)
    (ChessMove.isCastle m) (ChessMove.isEnPassant m).

(** ** The engine (ChessLogic.ts)

    The functions below are the methods of [ChessLogic] on their domain: a
    board of eight rows, and squares in 0..7 wherever the source indexes a
    row without a test (the square given to [getValidMoves], the rows of the
    nested loops), so that no row index is [undefined].  [makeMove], whose
    result reports errors, carries the exception in its [Outcome]. *)

Definition knightOffsets : list (Z * Z) :=
  [(-2, -1); (-2, 1); (-1, -2); (-1, 2); (1, -2); (1, 2); (2, -1); (2, 1)].

Definition directions : list (Z * Z) :=
  [(-1, -1); (-1, 0); (-1, 1); (0, -1); (0, 1); (1, -1); (1, 0); (1, 1)].

(** The [while] loop of [isSquareUnderAttack] along one direction, from
    [(newRow, newCol)]: the first piece met decides. *)
Fixpoint attackRay (fuel : nat) (board : ChessBoard)
  (newRow newCol dr dc : Z) (byColor : ChessColor) : bool :=
  match fuel with
  | O => false
  | S fuel' =>
      if inBounds newRow newCol then
        match cell board newRow newCol with
        | Some piece =>
            bool_decide (ChessPiece.color piece = Some byColor)
            && (let isDiagonal := negb (dr =? 0) && negb (dc =? 0) in
                let isOrthogonal := (dr =? 0) || (dc =? 0) in
                (isDiagonal
                 && (bool_decide (ChessPiece.type piece = Some bishop)
                     || bool_decide (ChessPiece.type piece = Some queen)))
                || (isOrthogonal
                    && (bool_decide (ChessPiece.type piece = Some rook)
                        || bool_decide (ChessPiece.type piece = Some queen))))
        | None => attackRay fuel' board (newRow + dr) (newCol + dc) dr dc byColor
        end
      else false
  end.

(** Eight iterations leave the board from any square of it. *)
Definition rayFuel : nat := 8%nat.

Definition pawnAttack (board : ChessBoard) (row col : Z) (byColor : ChessColor)
  : bool :=
  let pawnDirection := match byColor with white => 1 | black => -1 end in
  (0 <=? row - pawnDirection) && (row - pawnDirection <? 8)
  && (((0 <=? col - 1)
       && isPieceOf pawn (Some byColor) (cell board (row - pawnDirection) (col - 1)))
      || ((col + 1 <? 8)
          && isPieceOf pawn (Some byColor) (cell board (row - pawnDirection) (col + 1)))).

Definition knightAttack (board : ChessBoard) (row col : Z) (byColor : ChessColor)
  : bool :=
  existsb (fun '(dr, dc) =>
    let newRow := row + dr in
    let newCol := col + dc in
    inBounds newRow newCol
    && isPieceOf knight (Some byColor) (cell board newRow newCol)) knightOffsets.

Definition slidingAttack (board : ChessBoard) (row col : Z) (byColor : ChessColor)
  : bool :=
  existsb (fun '(dr, dc) =>
    attackRay rayFuel board (row + dr) (col + dc) dr dc byColor) directions.

Definition kingAttack (board : ChessBoard) (row col : Z) (byColor : ChessColor)
  : bool :=
  existsb (fun '(dr, dc) =>
    let newRow := row + dr in
    let newCol := col + dc in
    inBounds newRow newCol
    && isPieceOf king (Some byColor) (cell board newRow newCol)) directions.

(** [isSquareUnderAttack]: the four blocks of the source, each of which
    returns [true] at its first hit. *)
Definition isSquareUnderAttack (board : ChessBoard) (row col : Z)
  (byColor : ChessColor) : bool :=
  pawnAttack board row col byColor
  || knightAttack board row col byColor
  || slidingAttack board row col byColor
  || kingAttack board row col byColor.

(** The squares in the order of the nested [for r], [for c] loops. *)
Definition allSquares : list (Z * Z) :=
  r ← seqZ 0 8; c ← seqZ 0 8; [(r, c)].

(** The first loop of [isInCheck]: the first king of [color] in scan order. *)
Definition findKing (board : ChessBoard) (color : option ChessColor)
  : option (Z * Z) :=
  List.find (fun '(r, c) => isPieceOf king color (cell board r c)) allSquares.

Definition isInCheck (board : ChessBoard) (color : option ChessColor) : bool :=
  match findKing board color with
  | None => false
  | Some (kingRow, kingCol) =>
      isSquareUnderAttack board kingRow kingCol (opponentColorOf color)
  end.

Definition wouldBeInCheck (board : ChessBoard) (move : ChessMove)
  (color : option ChessColor) : bool :=
  let from := ChessMove.from move in
  let to := ChessMove.to move in
  let testBoard := cloneBoard board in
  let piece := cell testBoard (ChessSquare.row from) (ChessSquare.col from) in
  let testBoard :=
    setCell testBoard (ChessSquare.row to) (ChessSquare.col to) piece in
  let testBoard :=
    setCell testBoard (ChessSquare.row from) (ChessSquare.col from) None in
  let rookRow := if bool_decide (color = Some white) then 7 else 0 in
  let testBoard :=
    match ChessMove.isCastle move with
    | Some kingside =>
        setCell (setCell testBoard rookRow 5 (cell testBoard rookRow 7))
          rookRow 7 None
    | Some queenside =>
        setCell (setCell testBoard rookRow 3 (cell testBoard rookRow 0))
          rookRow 0 None
    | None => testBoard
    end in
  let testBoard :=
    if truthy (ChessMove.isEnPassant move)
    then setCell testBoard (ChessSquare.row from) (ChessSquare.col to) None
    else testBoard in
  isInCheck testBoard color.

(** *** Move generators

    Each generator receives the accumulator [moves] and returns it with the
    moves it pushed ([moves.push] appends). *)

(** [target.color !== piece.color] *)
Definition otherColor (target piece : ChessPiece) : bool :=
  negb (bool_decide (ChessPiece.color target = ChessPiece.color piece)).

Definition getPawnMoves (board : ChessBoard) (row col : Z) (piece : ChessPiece)
  (moves : list ChessMove) : list ChessMove :=
  let isWhite := bool_decide (ChessPiece.color piece = Some white) in
  let direction := if isWhite then -1 else 1 in
  let startRow := if isWhite then 6 else 1 in
  (* Move forward one square, and two from the starting position *)
  let moves :=
    if (0 <=? row + direction) && (row + direction <? 8)
       && negb (bool_decide (is_Some (cell board (row + direction) col)))
    then
      let moves := moves ++ [plainMove row col (row + direction) col] in
      if (row =? startRow)
         && negb (bool_decide (is_Some (cell board (row + 2 * direction) col)))
      then moves ++ [plainMove row col (row + 2 * direction) col]
      else moves
    else moves in
  (* Capture diagonally; [board[newRow]?.[col + dc]] is [undefined] when the
     row is outside the board.  The en passant block of the source is empty. *)
  let moves :=
    fold_left (fun moves dc =>
      if (0 <=? col + dc) && (col + dc <? 8) then
        let newRow := row + direction in
        match cell board newRow (col + dc) with
        | Some target =>
            if otherColor target piece
            then moves ++ [captureMove row col newRow (col + dc) true]
            else moves
        | None => moves
        end
      else moves) [-1; 1] moves in
  (* Check for promotion *)
  let promotionRow := if isWhite then 0 else 7 in
  map (fun move =>
    if ChessSquare.row (ChessMove.to move) =? promotionRow
    then setPromotion move promoQueen
    else move) moves.

Definition getKnightMoves (board : ChessBoard) (row col : Z) (piece : ChessPiece)
  (moves : list ChessMove) : list ChessMove :=
  fold_left (fun moves '(dr, dc) =>
    let newRow := row + dr in
    let newCol := col + dc in
    if inBounds newRow newCol then
      match cell board newRow newCol with
      | None => moves ++ [captureMove row col newRow newCol false]
      | Some target =>
          if otherColor target piece
          then moves ++ [captureMove row col newRow newCol true]
          else moves
      end
    else moves) knightOffsets moves.

(** The [while] loop of [getSlidingMoves] along one direction. *)
Fixpoint slide (fuel : nat) (board : ChessBoard) (row col : Z)
  (piece : ChessPiece) (newRow newCol dr dc : Z) (moves : list ChessMove)
  : list ChessMove :=
  match fuel with
  | O => moves
  | S fuel' =>
      if inBounds newRow newCol then
        match cell board newRow newCol with
        | None =>
            slide fuel' board row col piece (newRow + dr) (newCol + dc) dr dc
              (moves ++ [plainMove row col newRow newCol])
        | Some target =>
            if otherColor target piece
            then moves ++ [captureMove row col newRow newCol true]
            else moves
        end
      else moves
  end.

Definition getSlidingMoves (board : ChessBoard) (row col : Z)
  (piece : ChessPiece) (moves : list ChessMove) (dirs : list (Z * Z))
  : list ChessMove :=
  fold_left (fun moves '(dr, dc) =>
    slide rayFuel board row col piece (row + dr) (col + dc) dr dc moves)
    dirs moves.

Definition getBishopMoves (board : ChessBoard) (row col : Z)
  (piece : ChessPiece) (moves : list ChessMove) : list ChessMove :=
  getSlidingMoves board row col piece moves
    [(-1, -1); (-1, 1); (1, -1); (1, 1)].

Definition getRookMoves (board : ChessBoard) (row col : Z)
  (piece : ChessPiece) (moves : list ChessMove) : list ChessMove :=
  getSlidingMoves board row col piece moves
    [(-1, 0); (1, 0); (0, -1); (0, 1)].

Definition getQueenMoves (board : ChessBoard) (row col : Z)
  (piece : ChessPiece) (moves : list ChessMove) : list ChessMove :=
  getSlidingMoves board row col piece moves
    [(-1, -1); (-1, 0); (-1, 1); (0, -1); (0, 1); (1, -1); (1, 0); (1, 1)].

(** The board on which [getKingMoves] tests a king step or a castling
    square: the copy with [{ ...piece }] on the target and the origin empty. *)
Definition kingTestBoard (board : ChessBoard) (row col : Z)
  (piece : ChessPiece) (newRow newCol : Z) : ChessBoard :=
  setCell (setCell (cloneBoard board) newRow newCol (Some piece)) row col None.

(** [rook && rook.type === 'rook' && rook.color === piece.color
    && !rook.hasMoved] *)
Definition isCastleRook (piece : ChessPiece) (o : option ChessPiece) : bool :=
  match o with
  | Some r =>
      bool_decide (ChessPiece.type r = Some rook)
      && bool_decide (ChessPiece.color r = ChessPiece.color piece)
      && negb (truthy (ChessPiece.hasMoved r))
  | None => false
  end.

(** The body of the castling [for] loops: the square is [null] and, when the
    king moves through it, not attacked with the king placed on it. *)
Definition castlePathOk (board : ChessBoard) (row col : Z) (piece : ChessPiece)
  (throughKing : Z -> bool) (c : Z) : bool :=
  isNullAt board row c
  && (if throughKing c
      then negb (isSquareUnderAttack (kingTestBoard board row col piece row c)
                   row c (opponentColorOf (ChessPiece.color piece)))
      else true).

Definition getKingMoves (board : ChessBoard) (row col : Z) (piece : ChessPiece)
  (moves : list ChessMove) : list ChessMove :=
  (* Regular king moves *)
  let moves :=
    fold_left (fun moves '(dr, dc) =>
      let newRow := row + dr in
      let newCol := col + dc in
      if inBounds newRow newCol then
        let free :=
          match cell board newRow newCol with
          | None => true
          | Some targetPiece => otherColor targetPiece piece
          end in
        if free then
          let testBoard := kingTestBoard board row col piece newRow newCol in
          let isCheckAfterMove :=
            isSquareUnderAttack testBoard newRow newCol
              (opponentColorOf (ChessPiece.color piece)) in
          if negb isCheckAfterMove
          then moves ++ [plainMove row col newRow newCol]
          else moves
        else moves
      else moves) directions moves in
  (* Castling *)
  if negb (truthy (ChessPiece.hasMoved piece))
     && negb (isInCheck board (ChessPiece.color piece))
  then
    let rookRow := row in
    let kingCol := 4 in
    (* Kingside castling *)
    let moves :=
      if col =? kingCol then
        let rookCol := 7 in
        if isCastleRook piece (cell board rookRow rookCol) then
          let canCastle :=
            forallb (castlePathOk board row col piece (fun c => c <=? col + 2))
              (seqZ (col + 1) (rookCol - (col + 1))) in
          if canCastle
          then moves ++ [castleMove row col row (col + 2) kingside]
          else moves
        else moves
      else moves in
    (* Queenside castling *)
    if col =? kingCol then
      let rookCol := 0 in
      if isCastleRook piece (cell board rookRow rookCol) then
        let canCastle :=
          forallb (castlePathOk board row col piece (fun c => col - 2 <=? c))
            (rev (seqZ (rookCol + 1) (col - 1 - rookCol))) in
        if canCastle
        then moves ++ [castleMove row col row (col - 2) queenside]
        else moves
      else moves
    else moves
  else moves.

Definition getValidMoves (board : ChessBoard) (row col : Z) : list ChessMove :=
  match cell board row col with
  | None => []
  | Some piece =>
      let moves := [] in
      let moves :=
        match ChessPiece.type piece with
        | Some pawn => getPawnMoves board row col piece moves
        | Some knight => getKnightMoves board row col piece moves
        | Some bishop => getBishopMoves board row col piece moves
        | Some rook => getRookMoves board row col piece moves
        | Some queen => getQueenMoves board row col piece moves
        | Some king => getKingMoves board row col piece moves
        | None => moves
        end in
      (* Filter out moves that would leave the king in check *)
      List.filter (fun move =>
        negb (wouldBeInCheck board move (ChessPiece.color piece))) moves
  end.

(** *** Game state *)

(** The scan shared by [isCheckmate] and [isStalemate]: no piece of [color]
    has a valid move. *)
Definition noValidMoves (board : ChessBoard) (color : ChessColor) : bool :=
  forallb (fun '(r, c) =>
    match cell board r c with
    | Some piece =>
        if bool_decide (ChessPiece.color piece = Some color)
        then negb (0 <? Z.of_nat (length (getValidMoves board r c)))
        else true
    | None => true
    end) allSquares.

Definition isCheckmate (board : ChessBoard) (color : ChessColor) : bool :=
  if negb (isInCheck board (Some color)) then false
  else noValidMoves board color.

Definition isStalemate (board : ChessBoard) (color : ChessColor) : bool :=
  if isInCheck board (Some color) then false
  else noValidMoves board color.

(** The pieces of the board in scan order. *)
Definition piecesOf (board : ChessBoard) : list ChessPiece :=
  omap (fun '(r, c) => cell board r c) allSquares.

Definition isWhitePiece (p : ChessPiece) : bool :=
  bool_decide (ChessPiece.color p = Some white).

Definition hasType (t : PieceType) (p : ChessPiece) : bool :=
  bool_decide (ChessPiece.type p = Some t).

Definition isDrawByInsufficientMaterial (board : ChessBoard) : bool :=
  (* Count all pieces: white ones, and all the others *)
  let whitePieces := List.filter isWhitePiece (piecesOf board) in
  let blackPieces := List.filter (fun p => negb (isWhitePiece p)) (piecesOf board) in
  let nw := length whitePieces in
  let nb := length blackPieces in
  if (nw =? 1)%nat && (nb =? 1)%nat then true
  else if ((nw =? 2)%nat && (nb =? 1)%nat) || ((nw =? 1)%nat && (nb =? 2)%nat)
  then
    let morePieces := if (nb <? nw)%nat then whitePieces else blackPieces in
    match List.find (fun p => negb (hasType king p)) morePieces with
    | Some secondPiece => hasType bishop secondPiece || hasType knight secondPiece
    | None => false
    end
  else if (nw =? 2)%nat && (nb =? 2)%nat then
    match List.find (hasType bishop) whitePieces,
          List.find (hasType bishop) blackPieces with
    | Some _, Some _ => true
    | _, _ => false
    end
  else false.

(** *** Applying a move *)

Definition handleCastle (board : ChessBoard) (move : ChessMove) : ChessBoard :=
  let row := ChessSquare.row (ChessMove.from move) in
  let isKingside := bool_decide (ChessMove.isCastle move = Some kingside) in
  let rookCol := if isKingside then 7 else 0 in
  let newRookCol :=
    if isKingside then ChessSquare.col (ChessMove.to move) - 1
    else ChessSquare.col (ChessMove.to move) + 1 in
  let rook := cell board row rookCol in
  let board := setCell board row newRookCol (Some (markMoved rook)) in
  setCell board row rookCol None.

Definition handleEnPassant (board : ChessBoard) (move : ChessMove) : ChessBoard :=
  let capturedRow := ChessSquare.row (ChessMove.from move) in
  setCell board capturedRow (ChessSquare.col (ChessMove.to move)) None.

(** The board [makeMove] builds once the source piece is known. *)
Definition applyMove (board : ChessBoard) (move : ChessMove)
  (piece : ChessPiece) : ChessBoard :=
  let from := ChessMove.from move in
  let to := ChessMove.to move in
  let newBoard := cloneBoard board in
  let newBoard :=
    setCell newBoard (ChessSquare.row to) (ChessSquare.col to)
      (Some (markMoved (Some piece))) in
  let newBoard :=
    setCell newBoard (ChessSquare.row from) (ChessSquare.col from) None in
  let newBoard :=
    if bool_decide (is_Some (ChessMove.isCastle move))
    then handleCastle newBoard move else newBoard in
  let newBoard :=
    if truthy (ChessMove.isEnPassant move)
    then handleEnPassant newBoard move else newBoard in
  match ChessMove.promotion move with
  | Some p =>
      setCell newBoard (ChessSquare.row to) (ChessSquare.col to)
        (Some (ChessPiece.mk (Some (pieceTypeOf p)) (ChessPiece.color piece)
                 (Some true)))
  | None => newBoard
  end.

Definition noPieceError : string := "No piece at the source position".

Definition makeMove (board : ChessBoard) (move : ChessMove)
  : Outcome MoveResult :=
  let from := ChessMove.from move in
  let to := ChessMove.to move in
  match rowAt board (ChessSquare.row from) with
  | None => TypeError
  | Some _ =>
      match cell board (ChessSquare.row from) (ChessSquare.col from) with
      | None =>
          Returned (MoveResult.mk false (Some noPieceError)
                      None None None None None None)
      | Some piece =>
          match rowAt board (ChessSquare.row to) with
          | None => TypeError
          | Some _ =>
              let newBoard := applyMove board move piece in
              (* Check if opponent is in check *)
              let opponentColor := opponentColorOf (ChessPiece.color piece) in
              let inCheck := isInCheck newBoard (Some opponentColor) in
              (* Check for checkmate or stalemate *)
              let isCheckmate := inCheck && isCheckmate newBoard opponentColor in
              let isStalemate := negb inCheck && isStalemate newBoard opponentColor in
              let isDraw := isDrawByInsufficientMaterial newBoard in
              Returned (MoveResult.mk true None (Some move) (Some newBoard)
                          (if inCheck then Some opponentColor else None)
                          (Some isCheckmate) (Some isStalemate) (Some isDraw))
          end
      end
  end.

(** *** Notation *)

(** The values the string arithmetic of [moveToAlgebraic] can meet: indexing
    a string outside it gives [undefined], and [undefined + undefined] is the
    number [NaN]. *)
Inductive JsVal :=
  | JStr (s : string)
  | JUndefined
  | JNaN.

Definition jsToString (v : JsVal) : string :=
  match v with
  | JStr s => s
  | JUndefined => "undefined"
  | JNaN => "NaN"
  end.

(** [a + b]: concatenation as soon as one side is a string. *)
Definition jsAdd (a b : JsVal) : JsVal :=
  match a, b with
  | JStr x, _ => JStr (x +:+ jsToString b)
  | _, JStr y => JStr (jsToString a +:+ y)
  | _, _ => JNaN
  end.

(** [s[i]] *)
Definition jsIndex (s : string) (i : Z) : JsVal :=
  if i <? 0 then JUndefined
  else match String.get (Z.to_nat i) s with
       | Some a => JStr (String a EmptyString)
       | None => JUndefined
       end.

(** [s.charAt(0)] *)
Definition charAt0 (s : string) : string :=
  match s with
  | String a _ => String a EmptyString
  | EmptyString => EmptyString
  end.

Definition upperAscii (a : ascii) : ascii :=
  let n := nat_of_ascii a in
  if ((97 <=? n) && (n <=? 122))%nat then ascii_of_nat (n - 32) else a.

(** [s.toUpperCase()] on ASCII text. *)
Fixpoint toUpperCase (s : string) : string :=
  match s with
  | EmptyString => EmptyString
  | String a rest => String (upperAscii a) (toUpperCase rest)
  end.

(** The string a [promotion] value is. *)
Definition promotionName (p : Promotion) : string :=
  match p with
  | promoKnight => "knight"
  | promoBishop => "bishop"
  | promoRook => "rook"
  | promoQueen => "queen"
  end.

Definition moveToAlgebraic (move : ChessMove) : string :=
  let files := "abcdefgh"%string in
  let ranks := "87654321"%string in
  let from := ChessMove.from move in
  let to := ChessMove.to move in
  let fromSquare :=
    jsAdd (jsIndex files (ChessSquare.col from)) (jsIndex ranks (ChessSquare.row from)) in
  let toSquare :=
    jsAdd (jsIndex files (ChessSquare.col to)) (jsIndex ranks (ChessSquare.row to)) in
  let notation := ""%string in
  if bool_decide (ChessMove.isCastle move = Some kingside) then "O-O"%string
  else if bool_decide (ChessMove.isCastle move = Some queenside) then "O-O-O"%string
  else
    let notation := jsToString (jsAdd (JStr notation) (jsAdd fromSquare toSquare)) in
    let notation :=
      match ChessMove.promotion move with
      | Some p => notation +:+ "=" +:+ toUpperCase (charAt0 (promotionName p))
      | None => notation
      end in
    let notation :=
      if truthy (ChessMove.isCheck move) then notation +:+ "+" else notation in
    let notation :=
      if truthy (ChessMove.isCheckmate move) then notation +:+ "#" else notation in
    notation.

(** ** The initial position (ChessGame.tsx, [initialBoard]) *)

(** The literal [{ type: t, color: c }]. *)
Definition pieceLit (t : PieceType) (c : ChessColor) : option ChessPiece :=
  Some (ChessPiece.mk (Some t) (Some c) None).

Definition backRank (c : ChessColor) : Row :=
  [pieceLit rook c; pieceLit knight c; pieceLit bishop c; pieceLit queen c;
   pieceLit king c; pieceLit bishop c; pieceLit knight c; pieceLit rook c].

Definition pawnRank (c : ChessColor) : Row := replicate 8 (pieceLit pawn c).

Definition emptyRank : Row := replicate 8 None.

Definition initialBoard : ChessBoard :=
  [backRank black; pawnRank black;
   emptyRank; emptyRank; emptyRank; emptyRank;
   pawnRank white; backRank white].

Definition emptyBoard : ChessBoard := replicate 8 emptyRank.

(** [place board r c t col]: the board with one more piece literal. *)
Definition place (board : ChessBoard) (r c : Z) (t : PieceType)
  (col : ChessColor) : ChessBoard :=
  setCell board r c (pieceLit t col).

(** ** Predicates on boards *)

(** The shape every function of the engine keeps: eight rows of at least
    eight cells (exactly eight in a [ChessBoard] as the callers build it). *)
Definition wfBoard (board : ChessBoard) : Prop :=
  length board = 8%nat ∧ Forall (fun cells : Row => (8 <= length cells)%nat) board.

Definition wfBoardb (board : ChessBoard) : bool :=
  bool_decide (length board = 8%nat)
  && forallb (fun cells : Row => (8 <=? length cells)%nat) board.


Definition squareInBounds (sq : ChessSquare) : Prop :=
  0 <= ChessSquare.row sq < 8 ∧ 0 <= ChessSquare.col sq < 8.

(** The piece on the source square of a move. *)
Definition sourcePiece (board : ChessBoard) (move : ChessMove)
  : option ChessPiece :=
  cell board (ChessSquare.row (ChessMove.from move))
    (ChessSquare.col (ChessMove.from move)).

(** The cell on the destination square of a move. *)
Definition destCell (board : ChessBoard) (move : ChessMove)
  : option ChessPiece :=
  cell board (ChessSquare.row (ChessMove.to move))
    (ChessSquare.col (ChessMove.to move)).

(** ** Example positions *)

(** Both kings on their home squares and nothing else. *)
Definition kingsOnly : ChessBoard :=
  place (place emptyBoard 0 4 king black) 7 4 king white.

(** A white pawn on a7, one step from the far rank, with both kings. *)
Definition pawnOnSeventh : ChessBoard := place kingsOnly 1 0 pawn white.

(** A white pawn on d3 next to the square e4, with both kings. *)
Definition pawnBelowTarget : ChessBoard := place kingsOnly 5 3 pawn white.

(** The same with the black king standing on e4. *)
Definition pawnBelowKing : ChessBoard :=
  place (place (place emptyBoard 4 4 king black) 7 4 king white) 5 3 pawn white.

(** ** Statements of the specification *)

(** The rank a pawn of this color promotes on ([promotionRow]). *)
Definition farRank (c : option ChessColor) : Z :=
  if bool_decide (c = Some white) then 0 else 7.

(** The type the specification gives the piece placed by a promoting move:
    the promotion type of the move, a queen when there is none. *)
Definition promotedType (move : ChessMove) : PieceType :=
  match ChessMove.promotion move with
  | Some p => pieceTypeOf p
  | None => queen
  end.

(** "A pawn move onto the far rank places a piece of the promoted type,
    a queen by default", as a property of [makeMove] at one board and move. *)
Definition promotionPlaced (board : ChessBoard) (move : ChessMove) : Prop :=
  ∀ piece res newBoard,
    sourcePiece board move = Some piece ->
    ChessPiece.type piece = Some pawn ->
    ChessSquare.row (ChessMove.to move) = farRank (ChessPiece.color piece) ->
    makeMove board move = Returned res ->
    MoveResult.newBoard res = Some newBoard ->
    ∃ placed, destCell newBoard move = Some placed
      ∧ ChessPiece.type placed = Some (promotedType move).

(** "From the initial position every home-rank pawn has exactly two moves and
    every other piece none." *)
Definition initialMoveCounts : Prop :=
  ∀ r c piece, cell initialBoard r c = Some piece ->
    length (getValidMoves initialBoard r c)
    = if bool_decide (ChessPiece.type piece = Some pawn) then 2%nat else 0%nat.

(** "A pawn of the attacking color on a diagonal square behind the target
    (row + 1 for white, row - 1 for black) attacks it." *)
Definition pawnAttacksDetected (board : ChessBoard) (r c : Z) : Prop :=
  ((isPieceOf pawn (Some white) (cell board (r + 1) (c - 1)) = true
    ∨ isPieceOf pawn (Some white) (cell board (r + 1) (c + 1)) = true) ->
   isSquareUnderAttack board r c white = true)
  ∧ ((isPieceOf pawn (Some black) (cell board (r - 1) (c - 1)) = true
      ∨ isPieceOf pawn (Some black) (cell board (r - 1) (c + 1)) = true) ->
     isSquareUnderAttack board r c black = true).

(** Files a..h for columns 0..7 and ranks 8..1 for rows 0..7. *)
Definition fileLetter (c : Z) : string :=
  match c with
  | 0 => "a" | 1 => "b" | 2 => "c" | 3 => "d"
  | 4 => "e" | 5 => "f" | 6 => "g" | 7 => "h"
  | _ => ""
  end.

Definition rankDigit (r : Z) : string :=
  match r with
  | 0 => "8" | 1 => "7" | 2 => "6" | 3 => "5"
  | 4 => "4" | 5 => "3" | 6 => "2" | 7 => "1"
  | _ => ""
  end.

(** The uppercase first letter of the promotion piece. *)
Definition promotionLetter (p : Promotion) : string :=
  match p with
  | promoKnight => "K"
  | promoBishop => "B"
  | promoRook => "R"
  | promoQueen => "Q"
  end.

Definition squareName (sq : ChessSquare) : string :=
  fileLetter (ChessSquare.col sq) +:+ rankDigit (ChessSquare.row sq).

(** The coordinate notation of the specification for a move that is not a
    castle. *)
Definition coordinateNotation (move : ChessMove) : string :=
  squareName (ChessMove.from move) +:+ squareName (ChessMove.to move)
  +:+ match ChessMove.promotion move with
      | Some p => "=" +:+ promotionLetter p
      | None => ""
      end
  +:+ (if truthy (ChessMove.isCheck move) then "+" else "")
  +:+ (if truthy (ChessMove.isCheckmate move) then "#" else "").

(** A white pawn on d5, on the far side of e4, with both kings. *)
Definition pawnAboveTarget : ChessBoard := place kingsOnly 3 3 pawn white.

(** ** What attack detection sees of a board *)

(** The squares holding a king of [color], in scan order; [findKing] takes
    the first. *)
Definition kingSquares (board : ChessBoard) (color : option ChessColor)
  : list (Z * Z) :=
  List.filter (fun '(r, c) => isPieceOf king color (cell board r c)) allSquares.

(** The invariant of the data model, as far as one color needs it: the board
    has no second king of [color]. *)
Definition atMostOneKing (board : ChessBoard) (color : option ChessColor)
  : Prop :=
  (length (kingSquares board color) <= 1)%nat.

(** All that [isSquareUnderAttack] reads of a cell: empty, a piece of the
    attacking color with its type, or any other object (a blocker). *)
Inductive AttackView :=
  | SeenEmpty
  | SeenBlocker
  | SeenAttacker (t : option PieceType).

Definition attackView (byColor : ChessColor) (o : option ChessPiece)
  : AttackView :=
  match o with
  | None => SeenEmpty
  | Some piece =>
      if bool_decide (ChessPiece.color piece = Some byColor)
      then SeenAttacker (ChessPiece.type piece)
      else SeenBlocker
  end.

(** The part of [isSquareUnderAttack] that reads the row of the target: the
    two horizontal rays and the two king squares beside it. *)
Definition rowAttack (board : ChessBoard) (row col : Z) (byColor : ChessColor)
  : bool :=
  attackRay rayFuel board (row + 0) (col + -1) 0 (-1) byColor
  || attackRay rayFuel board (row + 0) (col + 1) 0 1 byColor
  || (inBounds (row + 0) (col + -1)
      && isPieceOf king (Some byColor) (cell board (row + 0) (col + -1)))
  || (inBounds (row + 0) (col + 1)
      && isPieceOf king (Some byColor) (cell board (row + 0) (col + 1))).

Definition offRowDirections : list (Z * Z) :=
  [(-1, -1); (-1, 0); (-1, 1); (1, -1); (1, 0); (1, 1)].

(** The rest of it: every read is on another row. *)
Definition offRowAttack (board : ChessBoard) (row col : Z)
  (byColor : ChessColor) : bool :=
  pawnAttack board row col byColor
  || knightAttack board row col byColor
  || existsb (fun '(dr, dc) =>
       attackRay rayFuel board (row + dr) (col + dc) dr dc byColor)
       offRowDirections
  || existsb (fun '(dr, dc) =>
       inBounds (row + dr) (col + dc)
       && isPieceOf king (Some byColor) (cell board (row + dr) (col + dc)))
       offRowDirections.

(** Two boards that [isInCheck] cannot tell apart for [color]: the same
    kings of [color] and the same view for the attacking color. *)
Definition sameForCheck (color : option ChessColor)
  (board1 board2 : ChessBoard) : Prop :=
  ∀ r c,
    attackView (opponentColorOf color) (cell board1 r c)
    = attackView (opponentColorOf color) (cell board2 r c)
    ∧ isPieceOf king color (cell board1 r c)
      = isPieceOf king color (cell board2 r c).

(** ** What the generators produce *)

(** A move pushed by a generator other than a castle: it starts on the
    piece's square, ends on the board, carries no castle or en passant flag,
    and carries a promotion only for a pawn leaving its row. *)
Definition plainGenerated (row col : Z) (piece : ChessPiece) (m : ChessMove)
  : Prop :=
  ChessMove.from m = ChessSquare.mk row col
  ∧ squareInBounds (ChessMove.to m)
  ∧ ChessMove.isCastle m = None
  ∧ ChessMove.isEnPassant m = None
  ∧ (ChessMove.promotion m = None
     ∨ (ChessPiece.type piece = Some pawn
        ∧ ChessSquare.row (ChessMove.to m) ≠ row)).

(** The kingside castle pushed by [getKingMoves], with the tests it passed. *)
Definition kingsideGenerated (board : ChessBoard) (row col : Z)
  (piece : ChessPiece) (m : ChessMove) : Prop :=
  m = castleMove row col row (col + 2) kingside
  ∧ col = 4
  ∧ isCastleRook piece (cell board row 7) = true
  ∧ castlePathOk board row col piece (fun c => c <=? col + 2) 5 = true
  ∧ castlePathOk board row col piece (fun c => c <=? col + 2) 6 = true.

(** The queenside castle pushed by [getKingMoves], with the tests it passed. *)
Definition queensideGenerated (board : ChessBoard) (row col : Z)
  (piece : ChessPiece) (m : ChessMove) : Prop :=
  m = castleMove row col row (col - 2) queenside
  ∧ col = 4
  ∧ isCastleRook piece (cell board row 0) = true
  ∧ castlePathOk board row col piece (fun c => col - 2 <=? c) 3 = true
  ∧ castlePathOk board row col piece (fun c => col - 2 <=? c) 2 = true
  ∧ castlePathOk board row col piece (fun c => col - 2 <=? c) 1 = true.

Definition generated (board : ChessBoard) (row col : Z) (piece : ChessPiece)
  (m : ChessMove) : Prop :=
  plainGenerated row col piece m
  ∨ (ChessPiece.type piece = Some king
     ∧ (kingsideGenerated board row col piece m
        ∨ queensideGenerated board row col piece m)).

(** ** Castling geometry, as the specification words it *)

(** The back rank of a color. *)
Definition homeRow (c : ChessColor) : Z :=
  match c with white => 7 | black => 0 end.

Definition rookColOf (side : CastleSide) : Z :=
  match side with kingside => 7 | queenside => 0 end.

(** The king's destination column. *)
Definition kingToCol (side : CastleSide) : Z :=
  match side with kingside => 6 | queenside => 2 end.

(** The rook's destination column, beside the king on the side it crossed. *)
Definition rookToCol (side : CastleSide) : Z :=
  match side with kingside => 5 | queenside => 3 end.

(** The columns between king and rook. *)
Definition betweenCols (side : CastleSide) : list Z :=
  match side with kingside => [5; 6] | queenside => [1; 2; 3] end.

(** The columns the king passes through, its destination included. *)
Definition transitCols (side : CastleSide) : list Z :=
  match side with kingside => [5; 6] | queenside => [3; 2] end.

(** Kings and white rooks on their home squares, nothing in between. *)
Definition castleReady : ChessBoard :=
  place (place kingsOnly 7 0 rook white) 7 7 rook white.

(** A board outside the data model: two black kings (e5 and h8), a black
    rook on h5, a white rook on h1 and the white king on a1. *)
Definition twoBlackKings : ChessBoard :=
  place (place (place (place (place emptyBoard 3 4 king black) 3 7 rook black)
                  0 7 king black) 7 7 rook white) 7 0 king white.

(** ** Material, as the specification words it *)

(** Every piece of the board has a type and a color, as the type
    [ChessBoard] of the source requires. *)
Definition typedBoard (board : ChessBoard) : Prop :=
  Forall (fun p => is_Some (ChessPiece.type p) ∧ is_Some (ChessPiece.color p))
    (piecesOf board).

Definition hasColor (c : ChessColor) (p : ChessPiece) : bool :=
  bool_decide (ChessPiece.color p = Some c).

(** The number of kings of a color. *)
Definition countKings (board : ChessBoard) (c : ChessColor) : nat :=
  length (List.filter (hasType king) (List.filter (hasColor c) (piecesOf board))).

(** The type of a piece that is not a king. *)
Definition nonKingType (p : ChessPiece) : option PieceType :=
  match ChessPiece.type p with
  | Some king => None
  | t => t
  end.

(** The material of a color besides its king: the types of its other
    pieces, in scan order. *)
Definition material (board : ChessBoard) (c : ChessColor) : list PieceType :=
  omap nonKingType (List.filter (hasColor c) (piecesOf board)).

(** King against king; king and one bishop or knight against a lone king;
    king and one bishop against king and one bishop. *)
Definition insufficientMaterial (board : ChessBoard) : Prop :=
  let w := material board white in
  let b := material board black in
  (w = [] ∧ b = [])
  ∨ ((w = [bishop] ∨ w = [knight]) ∧ b = [])
  ∨ (w = [] ∧ (b = [bishop] ∨ b = [knight]))
  ∨ (w = [bishop] ∧ b = [bishop]).

(** King and knight against king and knight. *)
Definition knightsEach : ChessBoard :=
  place (place kingsOnly 7 1 knight white) 0 1 knight black.

(** King and bishop against king and bishop, on squares of opposite shade. *)
Definition bishopsEach : ChessBoard :=
  place (place kingsOnly 7 2 bishop white) 0 2 bishop black.

(** ** What [isSquareUnderAttack] computes *)

(** [pawnDirection] of [isSquareUnderAttack]. *)
Definition pawnDirectionOf (byColor : ChessColor) : Z :=
  match byColor with white => 1 | black => -1 end.

(** The first [k - 1] squares from [(r, c)] along [(dr, dc)] are empty. *)
Definition openLine (board : ChessBoard) (r c dr dc k : Z) : Prop :=
  ∀ j, 1 <= j < k -> cell board (r + j * dr) (c + j * dc) = None.

(** The type test of the sliding loop: a queen on any line, a bishop on a
    diagonal, a rook on a row or column. *)
Definition sliderFor (dr dc : Z) (t : option PieceType) : Prop :=
  t = Some queen
  ∨ (dr ≠ 0 ∧ dc ≠ 0 ∧ t = Some bishop)
  ∨ ((dr = 0 ∨ dc = 0) ∧ t = Some rook).

(** The square [(r', c')] holds a piece of [byColor] that one of the four
    blocks of [isSquareUnderAttack] finds from the target [(r, c)]: a pawn on
    the row [r - pawnDirection] beside the column, a knight a knight's jump
    away, a king one step away, or a queen, bishop or rook first on its
    line. *)
Definition attackedFrom (board : ChessBoard) (byColor : ChessColor)
  (r c r' c' : Z) : Prop :=
  ∃ p, cell board r' c' = Some p
    ∧ ChessPiece.color p = Some byColor
    ∧ 0 <= r' < 8 ∧ 0 <= c' < 8
    ∧ ((ChessPiece.type p = Some pawn
        ∧ r' = r - pawnDirectionOf byColor ∧ (c' = c - 1 ∨ c' = c + 1))
       ∨ (ChessPiece.type p = Some knight ∧ In (r' - r, c' - c) knightOffsets)
       ∨ (ChessPiece.type p = Some king ∧ In (r' - r, c' - c) directions)
       ∨ (∃ dr dc k, In (dr, dc) directions ∧ 1 <= k
            ∧ r' = r + k * dr ∧ c' = c + k * dc
            ∧ openLine board r c dr dc k
            ∧ sliderFor dr dc (ChessPiece.type p))).

(** A position with attackers of every kind around e4. *)
Definition attackersAround : ChessBoard :=
  place (place (place kingsOnly 4 0 rook black) 2 3 knight black) 1 1 bishop black.

(** ** What the generators return *)

(** A piece may land on a square that is empty or holds a piece of another
    color ([!target || target.color !== piece.color]). *)
Definition canLandOn (board : ChessBoard) (piece : ChessPiece) (r c : Z)
  : Prop :=
  ∀ target, cell board r c = Some target ->
    ChessPiece.color target ≠ ChessPiece.color piece.

(** The destination of a move holds something. *)
Definition occupied (board : ChessBoard) (r c : Z) : bool :=
  bool_decide (is_Some (cell board r c)).

(** What one iteration of the loop of [getKnightMoves] pushes. *)
Definition knightStep (board : ChessBoard) (row col : Z) (piece : ChessPiece)
  (d : Z * Z) : list ChessMove :=
  let '(dr, dc) := d in
  if inBounds (row + dr) (col + dc) then
    match cell board (row + dr) (col + dc) with
    | None => [captureMove row col (row + dr) (col + dc) false]
    | Some target =>
        if otherColor target piece
        then [captureMove row col (row + dr) (col + dc) true]
        else []
    end
  else [].

(** What one iteration of the first loop of [getKingMoves] pushes. *)
Definition kingStep (board : ChessBoard) (row col : Z) (piece : ChessPiece)
  (d : Z * Z) : list ChessMove :=
  let '(dr, dc) := d in
  if inBounds (row + dr) (col + dc) then
    if match cell board (row + dr) (col + dc) with
       | None => true
       | Some targetPiece => otherColor targetPiece piece
       end
    then
      if negb (isSquareUnderAttack
                 (kingTestBoard board row col piece (row + dr) (col + dc))
                 (row + dr) (col + dc)
                 (opponentColorOf (ChessPiece.color piece)))
      then [plainMove row col (row + dr) (col + dc)]
      else []
    else []
  else [].

(** The directions of [getBishopMoves], [getRookMoves] and [getQueenMoves]. *)
Definition bishopDirections : list (Z * Z) :=
  [(-1, -1); (-1, 1); (1, -1); (1, 1)].

Definition rookDirections : list (Z * Z) :=
  [(-1, 0); (1, 0); (0, -1); (0, 1)].

Definition queenDirections : list (Z * Z) :=
  [(-1, -1); (-1, 0); (-1, 1); (0, -1); (0, 1); (1, -1); (1, 0); (1, 1)].

Definition slidingDirections (t : PieceType) : list (Z * Z) :=
  match t with
  | bishop => bishopDirections
  | rook => rookDirections
  | queen => queenDirections
  | _ => []
  end.

(** The promotion pass of [getPawnMoves] on one move. *)
Definition promoteOnFarRank (piece : ChessPiece) (m : ChessMove) : ChessMove :=
  if ChessSquare.row (ChessMove.to m) =? farRank (ChessPiece.color piece)
  then setPromotion m promoQueen else m.

(** [direction] and [startRow] of [getPawnMoves]. *)
Definition pawnAdvance (piece : ChessPiece) : Z :=
  if bool_decide (ChessPiece.color piece = Some white) then -1 else 1.

Definition pawnStartRow (piece : ChessPiece) : Z :=
  if bool_decide (ChessPiece.color piece = Some white) then 6 else 1.

(** The moves [getPawnMoves] pushes before its promotion pass: one square
    forward onto an empty square, two from the start row over two empty
    squares, and the two forward diagonals onto a piece of another color. *)
Definition pawnCandidate (board : ChessBoard) (row col : Z) (piece : ChessPiece)
  (m : ChessMove) : Prop :=
  let d := pawnAdvance piece in
  (0 <= row + d < 8 ∧ cell board (row + d) col = None
   ∧ (m = plainMove row col (row + d) col
      ∨ (row = pawnStartRow piece ∧ cell board (row + 2 * d) col = None
         ∧ m = plainMove row col (row + 2 * d) col)))
  ∨ (∃ dc target,
       (dc = -1 ∨ dc = 1) ∧ 0 <= col + dc < 8
       ∧ cell board (row + d) (col + dc) = Some target
       ∧ ChessPiece.color target ≠ ChessPiece.color piece
       ∧ m = captureMove row col (row + d) (col + dc) true).

(** The form of a move pushed by a generator for the piece on [(row, col)]:
    it starts there, ends elsewhere on the board on a square not held by a
    piece of the mover's color, and carries no flag but the ones the
    generators set. *)
Definition moveShape (board : ChessBoard) (row col : Z) (piece : ChessPiece)
  (m : ChessMove) : Prop :=
  ChessMove.from m = ChessSquare.mk row col
  ∧ squareInBounds (ChessMove.to m)
  ∧ ChessMove.to m ≠ ChessMove.from m
  ∧ canLandOn board piece (ChessSquare.row (ChessMove.to m))
      (ChessSquare.col (ChessMove.to m))
  ∧ ChessMove.isEnPassant m = None
  ∧ ChessMove.isCheck m = None
  ∧ ChessMove.isCheckmate m = None
  ∧ (is_Some (ChessMove.isCastle m) -> ChessPiece.type piece = Some king)
  ∧ (ChessMove.promotion m = None
     ∨ (ChessMove.promotion m = Some promoQueen
        ∧ ChessPiece.type piece = Some pawn
        ∧ ChessSquare.row (ChessMove.to m) = farRank (ChessPiece.color piece)))
  ∧ (ChessMove.isCapture m = Some true -> is_Some (destCell board m)).

(** The squares [makeMove] writes: the two squares of the move, the rook's
    two squares for a castle, the captured pawn's square for an en passant
    move. *)
Definition touchedSquares (move : ChessMove) : list (Z * Z) :=
  let from := ChessMove.from move in
  let to := ChessMove.to move in
  [(ChessSquare.row from, ChessSquare.col from);
   (ChessSquare.row to, ChessSquare.col to)]
  ++ match ChessMove.isCastle move with
     | Some kingside =>
         [(ChessSquare.row from, 7);
          (ChessSquare.row from, ChessSquare.col to - 1)]
     | Some queenside =>
         [(ChessSquare.row from, 0);
          (ChessSquare.row from, ChessSquare.col to + 1)]
     | None => []
     end
  ++ (if truthy (ChessMove.isEnPassant move)
      then [(ChessSquare.row from, ChessSquare.col to)] else []).

(** No piece of [color] on the board has a move that [getValidMoves]
    returns. *)
Definition noLegalMove (board : ChessBoard) (color : ChessColor) : Prop :=
  ∀ r c piece, 0 <= r < 8 -> 0 <= c < 8 ->
    cell board r c = Some piece -> ChessPiece.color piece = Some color ->
    getValidMoves board r c = [].

(** ** The generators without the check filter (ChessLogic.ts)

    [getBasicMoves] and its two helpers; the other piece types share the
    generators of [getValidMoves]. *)

Definition getPawnBasicMoves (board : ChessBoard) (row col : Z)
  (piece : ChessPiece) (moves : list ChessMove) : list ChessMove :=
  let isWhite := bool_decide (ChessPiece.color piece = Some white) in
  let direction := if isWhite then -1 else 1 in
  let startingRow := if isWhite then 6 else 1 in
  if (0 <=? row + direction) && (row + direction <? 8) then
    (* Forward move, and double forward move from the starting position *)
    let moves :=
      if negb (bool_decide (is_Some (cell board (row + direction) col))) then
        let moves := moves ++ [plainMove row col (row + direction) col] in
        if (row =? startingRow)
           && negb (bool_decide (is_Some (cell board (row + 2 * direction) col)))
        then moves ++ [plainMove row col (row + 2 * direction) col]
        else moves
      else moves in
    (* Captures *)
    fold_left (fun moves dcol =>
      if (0 <=? col + dcol) && (col + dcol <? 8) then
        match cell board (row + direction) (col + dcol) with
        | Some target =>
            if otherColor target piece
            then moves ++ [captureMove row col (row + direction) (col + dcol) true]
            else moves
        | None => moves
        end
      else moves) [-1; 1] moves
  else moves.

Definition getKingBasicMoves (board : ChessBoard) (row col : Z)
  (piece : ChessPiece) (moves : list ChessMove) : list ChessMove :=
  fold_left (fun moves '(dr, dc) =>
    let newRow := row + dr in
    let newCol := col + dc in
    if inBounds newRow newCol then
      let free :=
        match cell board newRow newCol with
        | None => true
        | Some targetPiece => otherColor targetPiece piece
        end in
      if free then moves ++ [plainMove row col newRow newCol] else moves
    else moves) directions moves.

Definition getBasicMoves (board : ChessBoard) (row col : Z)
  (piece : ChessPiece) : list ChessMove :=
  let moves := [] in
  match ChessPiece.type piece with
  | Some pawn => getPawnBasicMoves board row col piece moves
  | Some knight => getKnightMoves board row col piece moves
  | Some bishop => getBishopMoves board row col piece moves
  | Some rook => getRookMoves board row col piece moves
  | Some queen => getQueenMoves board row col piece moves
  | Some king => getKingBasicMoves board row col piece moves
  | None => moves
  end.

(** ** [canCastle] (ChessLogic.ts) *)

(** [!rook || rook.type !== 'rook' || rook.hasMoved] *)
Definition notCastleRook (o : option ChessPiece) : bool :=
  match o with
  | None => true
  | Some r =>
      negb (bool_decide (ChessPiece.type r = Some rook))
      || truthy (ChessPiece.hasMoved r)
  end.

(** The loop [for (c = col + direction; c !== rookCol; c += direction)] of
    [canCastle], from [c]: [Some false] at the first occupied square,
    [Some true] when [c] reaches [rookCol], [None] when the fuel runs out
    before either. *)
Fixpoint castleScan (fuel : nat) (board : ChessBoard)
  (row c rookCol direction : Z) : option bool :=
  match fuel with
  | O => None
  | S fuel =>
      if c =? rookCol then Some true
      else if bool_decide (is_Some (cell board row c)) then Some false
      else castleScan fuel board row (c + direction) rookCol direction
  end.

(** [canCastle(board, row, col, side, color)]; [None] when the loop has not
    ended within the fuel. *)
Definition canCastle (fuel : nat) (board : ChessBoard) (row col side : Z)
  (color : ChessColor) : option bool :=
  let rookCol := if side =? 0 then 7 else 0 in
  let rook := cell board row rookCol in
  if notCastleRook rook then Some false
  else
    (* Check if squares between king and rook are empty *)
    let direction := if col <? rookCol then 1 else -1 in
    match castleScan fuel board row (col + direction) rookCol direction with
    | None => None
    | Some false => Some false
    | Some true =>
        (* Check if king passes through check *)
        let testCol := if side =? 0 then col + 1 else col - 1 in
        if wouldBeInCheck board (plainMove row col row testCol) (Some color)
        then Some false
        else Some true
    end.


(** The [side] argument of [canCastle] for a castle side. *)
Definition sideNumber (side : CastleSide) : Z :=
  match side with kingside => 0 | queenside => 1 end.

(** The column [handleCastle] puts the rook on: beside the king's
    destination, on the side it came from. *)
Definition newRookColOf (move : ChessMove) (side : CastleSide) : Z :=
  match side with
  | kingside => ChessSquare.col (ChessMove.to move) - 1
  | queenside => ChessSquare.col (ChessMove.to move) + 1
  end.
(** ** Boards as arrays: reads after writes *)

Lemma wfBoardb_spec board : wfBoardb board = true -> wfBoard board.
Proof.
  unfold wfBoardb, wfBoard. rewrite andb_true_iff, bool_decide_eq_true.
  intros [Hlen Hrows]. split; [exact Hlen|].
  rewrite forallb_forall in Hrows. apply Forall_forall. intros cells Hin.
  apply Nat.leb_le, Hrows, list_elem_of_In, Hin.
Qed.

Lemma inBounds_spec r c :
  inBounds r c = true <-> 0 <= r < 8 ∧ 0 <= c < 8.
Proof. unfold inBounds. rewrite !andb_true_iff. lia. Qed.

Lemma inBounds_false r c :
  inBounds r c = false <-> ¬ (0 <= r < 8 ∧ 0 <= c < 8).
Proof. rewrite <- inBounds_spec. destruct (inBounds r c); intuition congruence. Qed.

Lemma rowAt_wf board r :
  wfBoard board -> 0 <= r < 8 ->
  ∃ cells, rowAt board r = Some cells ∧ (8 <= length cells)%nat.
Proof.
  intros [Hlen Hrows] Hr. unfold rowAt.
  destruct (Z.ltb_spec r 0) as [|_]; [lia|].
  destruct (lookup_lt_is_Some_2 board (Z.to_nat r)) as [cells Hc]; [lia|].
  exists cells. split; [exact Hc|].
  rewrite Forall_forall in Hrows. apply Hrows. eapply list_elem_of_lookup_2, Hc.
Qed.

Lemma rowAt_setCell_eq board r c v cells :
  rowAt board r = Some cells ->
  rowAt (setCell board r c v) r = Some (setRow cells c v).
Proof.
  intros Hrow. unfold setCell. rewrite Hrow. unfold rowAt in *.
  destruct (r <? 0); [discriminate|].
  apply list_lookup_insert_eq. eapply lookup_lt_Some, Hrow.
Qed.

Lemma rowAt_setCell_ne board r c v r' :
  r ≠ r' -> rowAt (setCell board r c v) r' = rowAt board r'.
Proof.
  intros Hne. unfold setCell.
  destruct (rowAt board r) as [cells|] eqn:Hrow; [|reflexivity].
  unfold rowAt in *.
  destruct (Z.ltb_spec r 0); [discriminate|].
  destruct (Z.ltb_spec r' 0); [reflexivity|].
  apply list_lookup_insert_ne. lia.
Qed.

Lemma length_setRow cells c v : (length cells <= length (setRow cells c v))%nat.
Proof.
  unfold setRow. destruct (c <? 0); [lia|].
  destruct (Nat.ltb_spec (Z.to_nat c) (length cells)).
  - rewrite length_insert. lia.
  - rewrite !length_app. lia.
Qed.

Lemma setCell_wf board r c v : wfBoard board -> wfBoard (setCell board r c v).
Proof.
  intros [Hlen Hrows]. unfold setCell.
  destruct (rowAt board r) as [cells|] eqn:Hrow; [|split; assumption].
  split; [rewrite length_insert; exact Hlen|].
  apply Forall_insert; [exact Hrows|].
  pose proof (length_setRow cells c v).
  unfold rowAt in Hrow. destruct (r <? 0); [discriminate|].
  rewrite Forall_forall in Hrows.
  specialize (Hrows cells (list_elem_of_lookup_2 _ _ _ Hrow)). simpl in *. lia.
Qed.

Lemma lookup_setRow_eq cells c v :
  0 <= c -> (Z.to_nat c < length cells)%nat ->
  setRow cells c v !! Z.to_nat c = Some v.
Proof.
  intros Hc Hlt. unfold setRow.
  destruct (Z.ltb_spec c 0); [lia|].
  destruct (Nat.ltb_spec (Z.to_nat c) (length cells)); [|lia].
  apply list_lookup_insert_eq, Hlt.
Qed.

Lemma lookup_setRow_ne cells c v c' :
  0 <= c' -> c ≠ c' -> (Z.to_nat c' < length cells)%nat ->
  setRow cells c v !! Z.to_nat c' = cells !! Z.to_nat c'.
Proof.
  intros Hc' Hne Hlt. unfold setRow.
  destruct (Z.ltb_spec c 0); [reflexivity|].
  destruct (Nat.ltb_spec (Z.to_nat c) (length cells)).
  - apply list_lookup_insert_ne. lia.
  - apply lookup_app_l, Hlt.
Qed.

Lemma cell_setCell_eq board r c v :
  wfBoard board -> 0 <= r < 8 -> 0 <= c < 8 ->
  cell (setCell board r c v) r c = v.
Proof.
  intros Hwf Hr Hc. destruct (rowAt_wf board r Hwf Hr) as (cells & Hrow & Hlen).
  unfold cell. rewrite (rowAt_setCell_eq _ _ _ _ _ Hrow).
  destruct (Z.ltb_spec c 0); [lia|].
  rewrite lookup_setRow_eq by lia. reflexivity.
Qed.

Lemma cell_setCell_ne board r c v r' c' :
  wfBoard board -> 0 <= r' < 8 -> 0 <= c' < 8 -> (r, c) ≠ (r', c') ->
  cell (setCell board r c v) r' c' = cell board r' c'.
Proof.
  intros Hwf Hr' Hc' Hne. unfold cell.
  destruct (Z.eq_dec r r') as [->|Hr].
  - destruct (rowAt_wf board r' Hwf Hr') as (cells & Hrow & Hlen).
    rewrite (rowAt_setCell_eq _ _ _ _ _ Hrow), Hrow.
    destruct (Z.ltb_spec c' 0); [lia|].
    rewrite lookup_setRow_ne; [reflexivity|lia| |lia].
    intros ->. apply Hne. reflexivity.
  - rewrite rowAt_setCell_ne by exact Hr. reflexivity.
Qed.

(** Off the board every read is empty, whatever was written inside it. *)
Lemma cell_setCell_inside board r c v r' c' :
  wfBoard board -> 0 <= r < 8 -> 0 <= c < 8 -> (r, c) ≠ (r', c') ->
  cell (setCell board r c v) r' c' = cell board r' c'.
Proof.
  intros Hwf Hr Hc Hne. unfold cell.
  destruct (Z.eq_dec r r') as [->|Hr'].
  - destruct (rowAt_wf board r' Hwf Hr) as (cells & Hrow & Hlen).
    rewrite (rowAt_setCell_eq _ _ _ _ _ Hrow), Hrow.
    destruct (Z.ltb_spec c' 0); [reflexivity|].
    unfold setRow. destruct (Z.ltb_spec c 0); [lia|].
    destruct (Nat.ltb_spec (Z.to_nat c) (length cells)); [|lia].
    rewrite list_lookup_insert_ne; [reflexivity|].
    intros Heq. apply Hne. f_equal. lia.
  - rewrite rowAt_setCell_ne by exact Hr'. reflexivity.
Qed.

Lemma isNullAt_cell board r c : isNullAt board r c = true -> cell board r c = None.
Proof.
  unfold isNullAt, cell. destruct (rowAt board r) as [cells|]; [|discriminate].
  destruct (c <? 0); [discriminate|].
  destruct (cells !! Z.to_nat c) as [[p|]|]; try discriminate. reflexivity.
Qed.

Lemma cell_isNullAt board r c :
  wfBoard board -> 0 <= r < 8 -> 0 <= c < 8 ->
  cell board r c = None -> isNullAt board r c = true.
Proof.
  intros Hwf Hr Hc. destruct (rowAt_wf board r Hwf Hr) as (cells & Hrow & Hlen).
  unfold isNullAt, cell. rewrite Hrow.
  destruct (Z.ltb_spec c 0); [lia|].
  destruct (lookup_lt_is_Some_2 cells (Z.to_nat c)) as [o Ho]; [lia|].
  rewrite Ho. simpl. intros ->. reflexivity.
Qed.

(** ** [makeMove]: the result record *)

Lemma makeMove_returns board move :
  wfBoard board ->
  squareInBounds (ChessMove.from move) -> squareInBounds (ChessMove.to move) ->
  makeMove board move =
    match sourcePiece board move with
    | None =>
        Returned (MoveResult.mk false (Some noPieceError)
                    None None None None None None)
    | Some piece =>
        let newBoard := applyMove board move piece in
        let opponentColor := opponentColorOf (ChessPiece.color piece) in
        let inCheck := isInCheck newBoard (Some opponentColor) in
        Returned (MoveResult.mk true None (Some move) (Some newBoard)
                    (if inCheck then Some opponentColor else None)
                    (Some (inCheck && isCheckmate newBoard opponentColor))
                    (Some (negb inCheck && isStalemate newBoard opponentColor))
                    (Some (isDrawByInsufficientMaterial newBoard)))
    end.
Proof.
  intros Hwf [Hfr Hfc] [Htr Htc]. unfold makeMove, sourcePiece.
  destruct (rowAt_wf board _ Hwf Hfr) as (cf & -> & _).
  destruct (rowAt_wf board _ Hwf Htr) as (ct & -> & _).
  reflexivity.
Qed.

(** C3. On a board of eight rows and a move between squares of the board,
    [makeMove] returns (no exception); the result has [valid = false] exactly
    when the source square is empty, and then carries the error text and no
    board; with any piece on the source square it has [valid = true], the new
    board and every derived flag, whatever the move is. *)
Theorem makeMove_valid_iff_source_piece board move :
  wfBoard board ->
  squareInBounds (ChessMove.from move) -> squareInBounds (ChessMove.to move) ->
  ∃ res, makeMove board move = Returned res
    ∧ (MoveResult.valid res = false <-> sourcePiece board move = None)
    ∧ (sourcePiece board move = None ->
         MoveResult.error res = Some "No piece at the source position"%string
         ∧ MoveResult.newBoard res = None)
    ∧ (∀ piece, sourcePiece board move = Some piece ->
         MoveResult.valid res = true
         ∧ MoveResult.error res = None
         ∧ MoveResult.move res = Some move
         ∧ MoveResult.newBoard res = Some (applyMove board move piece)
         ∧ is_Some (MoveResult.isCheckmate res)
         ∧ is_Some (MoveResult.isStalemate res)
         ∧ is_Some (MoveResult.isDraw res)).
Proof.
  intros Hwf Hfrom Hto. rewrite (makeMove_returns _ _ Hwf Hfrom Hto).
  destruct (sourcePiece board move) as [piece|]; eexists; (split; [reflexivity|]); simpl.
  - split; [split; discriminate|]. split; [discriminate|].
    intros p [= <-]. repeat split; eauto.
  - split; [split; reflexivity|]. split; [split; reflexivity|]. discriminate.
Qed.

Lemma makeMove_valid_iff_source_piece_witness :
  ∃ res, makeMove initialBoard (plainMove 6 4 4 4) = Returned res
    ∧ MoveResult.valid res = true.
Proof.
  destruct (makeMove_valid_iff_source_piece initialBoard (plainMove 6 4 4 4))
    as (res & Hres & _ & _ & Hsome).
  - apply wfBoardb_spec. reflexivity.
  - unfold squareInBounds. simpl. lia.
  - unfold squareInBounds. simpl. lia.
  - exists res. split; [exact Hres|].
    apply (Hsome (ChessPiece.mk (Some pawn) (Some white) None)). reflexivity.
Defined.

(** Off the board the index into [board[move.from.row]] throws. *)
Example makeMove_throws_off_board :
  makeMove initialBoard (plainMove 8 0 0 0) = TypeError.
Proof. reflexivity. Qed.

(** ** Checkmate and stalemate exclude each other *)

Lemma isCheckmate_inCheck board color :
  isCheckmate board color = true -> isInCheck board (Some color) = true.
Proof. unfold isCheckmate. destruct (isInCheck board (Some color)); simpl; congruence. Qed.

Lemma isStalemate_not_inCheck board color :
  isStalemate board color = true -> isInCheck board (Some color) = false.
Proof. unfold isStalemate. destruct (isInCheck board (Some color)); simpl; congruence. Qed.

(** C9. [isCheckmate] and [isStalemate] are never both true of a board and a
    color, and no result that [makeMove] returns has both its [isCheckmate]
    and its [isStalemate] flag set. *)
Theorem checkmate_stalemate_exclusive board color move :
  (isCheckmate board color && isStalemate board color = false)
  ∧ (∀ res, makeMove board move = Returned res ->
       ¬ (MoveResult.isCheckmate res = Some true
          ∧ MoveResult.isStalemate res = Some true)).
Proof.
  split.
  - destruct (isCheckmate board color) eqn:Hm; [|reflexivity].
    destruct (isStalemate board color) eqn:Hs; [|reflexivity].
    apply isCheckmate_inCheck in Hm. apply isStalemate_not_inCheck in Hs. congruence.
  - intros res Hres [Hm Hs]. unfold makeMove in Hres.
    destruct (rowAt board _); [|discriminate].
    destruct (cell board _ _) as [piece|].
    + destruct (rowAt board _); [|discriminate].
      injection Hres as <-. simpl in Hm, Hs.
      destruct (isInCheck _ _); simpl in *; congruence.
    + injection Hres as <-. discriminate.
Qed.

(** C10. A successful [makeMove] reports in [inCheck] nothing or the color
    opposite to the piece that moved, never the mover's own color. *)
Theorem makeMove_inCheck_is_opponent board move res piece c :
  makeMove board move = Returned res ->
  MoveResult.valid res = true ->
  sourcePiece board move = Some piece ->
  ChessPiece.color piece = Some c ->
  MoveResult.inCheck res = None ∨ MoveResult.inCheck res = Some (opponent c).
Proof.
  unfold makeMove, sourcePiece. intros Hres Hvalid Hpiece Hc.
  destruct (rowAt board _); [|discriminate]. rewrite Hpiece in Hres.
  destruct (rowAt board _); [|discriminate].
  injection Hres as <-. clear Hvalid. simpl. rewrite Hc.
  destruct (isInCheck _ _); [right|left; reflexivity].
  destruct c; reflexivity.
Qed.

Lemma checkmate_stalemate_exclusive_witness :
  ∃ res, makeMove initialBoard (plainMove 6 4 4 4) = Returned res
    ∧ ¬ (MoveResult.isCheckmate res = Some true
         ∧ MoveResult.isStalemate res = Some true).
Proof.
  eexists. split; [reflexivity|].
  apply (proj2 (checkmate_stalemate_exclusive initialBoard white (plainMove 6 4 4 4))).
  reflexivity.
Defined.

Lemma makeMove_inCheck_is_opponent_witness :
  ∃ res, makeMove initialBoard (plainMove 6 4 4 4) = Returned res
    ∧ (MoveResult.inCheck res = None ∨ MoveResult.inCheck res = Some black).
Proof.
  eexists. split; [reflexivity|].
  apply (makeMove_inCheck_is_opponent initialBoard (plainMove 6 4 4 4) _
           (ChessPiece.mk (Some pawn) (Some white) None) white);
    reflexivity.
Defined.

(** ** Promotion *)

Lemma applyMove_wf_steps board move piece :
  wfBoard board ->
  wfBoard
    (let newBoard :=
       setCell (setCell (cloneBoard board)
                  (ChessSquare.row (ChessMove.to move))
                  (ChessSquare.col (ChessMove.to move))
                  (Some (markMoved (Some piece))))
         (ChessSquare.row (ChessMove.from move))
         (ChessSquare.col (ChessMove.from move)) None in
     let newBoard :=
       if bool_decide (is_Some (ChessMove.isCastle move))
       then handleCastle newBoard move else newBoard in
     if truthy (ChessMove.isEnPassant move)
     then handleEnPassant newBoard move else newBoard).
Proof.
  intros Hwf. cbv zeta. unfold cloneBoard, handleCastle, handleEnPassant.
  destruct (bool_decide _), (truthy _); repeat apply setCell_wf; exact Hwf.
Qed.

Lemma applyMove_wf board move piece :
  wfBoard board -> wfBoard (applyMove board move piece).
Proof.
  intros Hwf. pose proof (applyMove_wf_steps board move piece Hwf) as H.
  unfold applyMove. cbv zeta in *.
  destruct (ChessMove.promotion move); [apply setCell_wf|]; exact H.
Qed.

Lemma applyMove_promotion board move piece p :
  wfBoard board -> squareInBounds (ChessMove.to move) ->
  ChessMove.promotion move = Some p ->
  destCell (applyMove board move piece) move
  = Some (ChessPiece.mk (Some (pieceTypeOf p)) (ChessPiece.color piece) (Some true)).
Proof.
  intros Hwf [Hr Hc] Hp. unfold destCell, applyMove. cbv zeta. rewrite Hp.
  apply cell_setCell_eq; [|exact Hr|exact Hc].
  apply (applyMove_wf_steps board move piece Hwf).
Qed.

(** A move without promotion, castle or en passant flag leaves the moved
    piece as it was, marked as moved. *)
Lemma applyMove_plain board move piece :
  wfBoard board ->
  squareInBounds (ChessMove.from move) -> squareInBounds (ChessMove.to move) ->
  ChessMove.from move ≠ ChessMove.to move ->
  ChessMove.promotion move = None ->
  ChessMove.isCastle move = None ->
  truthy (ChessMove.isEnPassant move) = false ->
  destCell (applyMove board move piece) move = Some (markMoved (Some piece)).
Proof.
  intros Hwf [Hfr Hfc] [Htr Htc] Hne Hp Hcastle Hep.
  unfold destCell, applyMove. cbv zeta. rewrite Hp, Hcastle, Hep.
  rewrite bool_decide_eq_false_2 by (intros [? ?]; discriminate).
  unfold cloneBoard. rewrite cell_setCell_ne; [| |exact Htr|exact Htc|].
  - apply cell_setCell_eq; assumption.
  - apply setCell_wf, Hwf.
  - intros [= Hr Hc]. apply Hne.
    destruct (ChessMove.from move), (ChessMove.to move); simpl in *; congruence.
Qed.

(** The promotion pass of [getPawnMoves]: a generated move onto the far rank
    carries the queen. *)
Lemma getPawnMoves_promotion board row col piece move :
  In move (getPawnMoves board row col piece []) ->
  ChessSquare.row (ChessMove.to move) = farRank (ChessPiece.color piece) ->
  ChessMove.promotion move = Some promoQueen.
Proof.
  unfold getPawnMoves, farRank. cbv zeta. intros Hin Hfar.
  apply in_map_iff in Hin as (m0 & <- & _).
  destruct (Z.eqb_spec (ChessSquare.row (ChessMove.to m0))
              (if bool_decide (ChessPiece.color piece = Some white) then 0 else 7))
    as [Heq|Hne].
  - reflexivity.
  - exfalso. apply Hne. exact Hfar.
Qed.

(** C7 (as the code has it). [makeMove] places on the destination square a
    piece of the promotion type the move carries (with the mover's color,
    marked as moved).  It has no default of its own: a pawn moved onto the
    far rank by a move without promotion type stays a pawn.  The queen
    default is set by the generator: every pawn move that [getValidMoves]
    returns onto the far rank carries the queen, so applying it places a
    queen. *)
Theorem makeMove_promotion board move piece :
  wfBoard board ->
  squareInBounds (ChessMove.from move) -> squareInBounds (ChessMove.to move) ->
  sourcePiece board move = Some piece ->
  ∃ res newBoard,
    makeMove board move = Returned res
    ∧ MoveResult.newBoard res = Some newBoard
    ∧ (∀ p, ChessMove.promotion move = Some p ->
         destCell newBoard move
         = Some (ChessPiece.mk (Some (pieceTypeOf p)) (ChessPiece.color piece)
                   (Some true)))
    ∧ (ChessMove.promotion move = None ->
       ChessMove.isCastle move = None ->
       truthy (ChessMove.isEnPassant move) = false ->
       ChessMove.from move ≠ ChessMove.to move ->
       destCell newBoard move = Some (markMoved (Some piece)))
    ∧ (ChessPiece.type piece = Some pawn ->
       In move (getValidMoves board (ChessSquare.row (ChessMove.from move))
                  (ChessSquare.col (ChessMove.from move))) ->
       ChessSquare.row (ChessMove.to move) = farRank (ChessPiece.color piece) ->
       ∃ placed, destCell newBoard move = Some placed
         ∧ ChessPiece.type placed = Some queen).
Proof.
  intros Hwf Hfrom Hto Hpiece.
  rewrite (makeMove_returns _ _ Hwf Hfrom Hto), Hpiece. cbv zeta.
  eexists _, _. split; [reflexivity|]. split; [reflexivity|].
  split; [|split].
  - intros p Hp. apply applyMove_promotion; assumption.
  - intros Hp Hcastle Hep Hne. apply applyMove_plain; assumption.
  - intros Hpawn Hin Hfar. unfold getValidMoves in Hin.
    unfold sourcePiece in Hpiece. rewrite Hpiece, Hpawn in Hin.
    apply filter_In in Hin as [Hin _].
    pose proof (getPawnMoves_promotion _ _ _ _ _ Hin Hfar) as Hq.
    eexists. split; [apply applyMove_promotion; eassumption|]. reflexivity.
Qed.

Lemma makeMove_promotion_witness :
  ∃ res newBoard,
    makeMove pawnOnSeventh (setPromotion (plainMove 1 0 0 0) promoQueen)
    = Returned res
    ∧ MoveResult.newBoard res = Some newBoard
    ∧ cell newBoard 0 0 = Some (ChessPiece.mk (Some queen) (Some white) (Some true)).
Proof.
  destruct (makeMove_promotion pawnOnSeventh
              (setPromotion (plainMove 1 0 0 0) promoQueen)
              (ChessPiece.mk (Some pawn) (Some white) None))
    as (res & newBoard & Hres & Hnb & Hpromo & _).
  - apply wfBoardb_spec. reflexivity.
  - unfold squareInBounds. simpl. lia.
  - unfold squareInBounds. simpl. lia.
  - reflexivity.
  - exists res, newBoard. split; [exact Hres|]. split; [exact Hnb|].
    apply (Hpromo promoQueen). reflexivity.
Defined.

(** C7, as stated, fails: a white pawn moved from a7 to a8 by a move without
    promotion type is still a pawn on the new board. *)
Lemma promotion_default_counterexample :
  ¬ promotionPlaced pawnOnSeventh (plainMove 1 0 0 0).
Proof.
  intros H.
  destruct (H (ChessPiece.mk (Some pawn) (Some white) None) _ _
              eq_refl eq_refl eq_refl eq_refl eq_refl) as (placed & Hcell & Htype).
  vm_compute in Hcell. injection Hcell as <-. discriminate.
Qed.

(** ** Notation *)

Lemma append_assoc (a b c : string) : (a +:+ b) +:+ c = a +:+ (b +:+ c).
Proof.
  induction a as [|x a IH]; [reflexivity|].
  exact (f_equal (String x) IH).
Qed.

Lemma append_empty_r (a : string) : a +:+ "" = a.
Proof.
  induction a as [|x a IH]; [reflexivity|].
  exact (f_equal (String x) IH).
Qed.

Lemma jsIndex_files c :
  0 <= c < 8 -> jsIndex "abcdefgh" c = JStr (fileLetter c).
Proof.
  intros Hc.
  assert (c = 0 ∨ c = 1 ∨ c = 2 ∨ c = 3 ∨ c = 4 ∨ c = 5 ∨ c = 6 ∨ c = 7)
    as Hcases by lia.
  repeat destruct Hcases as [->|Hcases]; try subst c; reflexivity.
Qed.

Lemma jsIndex_ranks r :
  0 <= r < 8 -> jsIndex "87654321" r = JStr (rankDigit r).
Proof.
  intros Hr.
  assert (r = 0 ∨ r = 1 ∨ r = 2 ∨ r = 3 ∨ r = 4 ∨ r = 5 ∨ r = 6 ∨ r = 7)
    as Hcases by lia.
  repeat destruct Hcases as [->|Hcases]; try subst r; reflexivity.
Qed.

Lemma promotion_suffix p :
  toUpperCase (charAt0 (promotionName p)) = promotionLetter p.
Proof. destruct p; reflexivity. Qed.

(** C8. [moveToAlgebraic] gives "O-O" for a kingside and "O-O-O" for a
    queenside castle; for any other move between squares of the board it
    gives the file and rank of the source, the file and rank of the
    destination, "=" and the uppercase first letter of the promotion piece
    when there is one, then "+" when the check flag is set and "#" when the
    checkmate flag is set. *)
Theorem moveToAlgebraic_spec move :
  squareInBounds (ChessMove.from move) -> squareInBounds (ChessMove.to move) ->
  moveToAlgebraic move =
    match ChessMove.isCastle move with
    | Some kingside => "O-O"%string
    | Some queenside => "O-O-O"%string
    | None => coordinateNotation move
    end.
Proof.
  intros [Hfr Hfc] [Htr Htc]. unfold moveToAlgebraic. cbv zeta.
  destruct (ChessMove.isCastle move) as [[|]|]; try reflexivity.
  rewrite !bool_decide_eq_false_2 by discriminate.
  rewrite !jsIndex_files, !jsIndex_ranks by assumption.
  unfold coordinateNotation, squareName. simpl jsAdd. simpl jsToString.
  assert (∀ s : string, "" +:+ s = s) as Hnil by reflexivity.
  destruct (ChessMove.promotion move) as [p|];
    [rewrite promotion_suffix|];
    destruct (truthy (ChessMove.isCheck move)),
             (truthy (ChessMove.isCheckmate move));
    rewrite ?Hnil, ?append_assoc, ?append_empty_r, ?Hnil; reflexivity.
Qed.

Lemma moveToAlgebraic_spec_witness :
  moveToAlgebraic (setPromotion (plainMove 1 4 0 4) promoQueen) = "e7e8=Q"%string.
Proof.
  rewrite (moveToAlgebraic_spec (setPromotion (plainMove 1 4 0 4) promoQueen)).
  - reflexivity.
  - unfold squareInBounds. simpl. lia.
  - unfold squareInBounds. simpl. lia.
Defined.

(** Off the board the file and rank are [undefined]. *)
Example moveToAlgebraic_off_board :
  moveToAlgebraic (plainMove 6 8 4 8) = "undefined2undefined4"%string.
Proof. reflexivity. Qed.

(** ** The initial position *)

Lemma eight_cases (x : Z) :
  0 <= x < 8 ->
  x = 0 ∨ x = 1 ∨ x = 2 ∨ x = 3 ∨ x = 4 ∨ x = 5 ∨ x = 6 ∨ x = 7.
Proof. lia. Qed.

Lemma cell_Some_inBounds board r c piece :
  length board = 8%nat ->
  Forall (fun cells : Row => length cells = 8%nat) board ->
  cell board r c = Some piece -> 0 <= r < 8 ∧ 0 <= c < 8.
Proof.
  intros Hlen Hrows. unfold cell, rowAt.
  destruct (Z.ltb_spec r 0); [discriminate|].
  destruct (board !! Z.to_nat r) as [cells|] eqn:Hrow; [|discriminate].
  destruct (Z.ltb_spec c 0); [discriminate|].
  destruct (cells !! Z.to_nat c) as [o|] eqn:Hcell; [|discriminate].
  intros _. apply lookup_lt_Some in Hcell.
  rewrite Forall_forall in Hrows.
  rewrite (Hrows cells (list_elem_of_lookup_2 _ _ _ Hrow)) in Hcell.
  apply lookup_lt_Some in Hrow. lia.
Qed.

Lemma initialBoard_shape :
  length initialBoard = 8%nat
  ∧ Forall (fun cells : Row => length cells = 8%nat) initialBoard.
Proof. split; [reflexivity|]. repeat constructor. Qed.

(** A piece of the initial position stands on one of the 64 squares. *)
Lemma initial_position_cases r c piece :
  cell initialBoard r c = Some piece ->
  In (r, c) allSquares.
Proof.
  intros H. destruct initialBoard_shape as [Hlen Hrows].
  destruct (cell_Some_inBounds _ _ _ _ Hlen Hrows H) as [Hr Hc].
  apply eight_cases in Hr. apply eight_cases in Hc.
  repeat destruct Hr as [->|Hr]; try subst r;
    repeat destruct Hc as [->|Hc]; try subst c;
    vm_compute; tauto.
Qed.

(** C4 (as the code has it). From the initial position [getValidMoves]
    returns exactly two moves for every pawn, its one-square and two-square
    advance, two moves for every knight, and none for every bishop, rook,
    queen and king. *)
Theorem initial_position_moves r c piece :
  cell initialBoard r c = Some piece ->
  length (getValidMoves initialBoard r c)
  = match ChessPiece.type piece with
    | Some pawn | Some knight => 2%nat
    | _ => 0%nat
    end
  ∧ (ChessPiece.type piece = Some pawn ->
     let direction :=
       if bool_decide (ChessPiece.color piece = Some white) then -1 else 1 in
     getValidMoves initialBoard r c
     = [plainMove r c (r + direction) c; plainMove r c (r + 2 * direction) c]).
Proof.
  intros H. pose proof (initial_position_cases r c piece H) as Hin.
  revert piece H.
  assert (forallb (fun '(r, c) =>
            match cell initialBoard r c with
            | None => true
            | Some piece =>
                bool_decide
                  (length (getValidMoves initialBoard r c)
                   = match ChessPiece.type piece with
                     | Some pawn | Some knight => 2%nat
                     | _ => 0%nat
                     end)
                && (negb (bool_decide (ChessPiece.type piece = Some pawn))
                    || bool_decide
                         (getValidMoves initialBoard r c
                          = [plainMove r c
                               (r + if bool_decide (ChessPiece.color piece = Some white)
                                    then -1 else 1) c;
                             plainMove r c
                               (r + 2 * if bool_decide (ChessPiece.color piece = Some white)
                                        then -1 else 1) c]))
            end) allSquares = true) as Hall by (vm_compute; reflexivity).
  rewrite forallb_forall in Hall. specialize (Hall (r, c) Hin). simpl in Hall.
  intros piece H. rewrite H in Hall.
  apply andb_true_iff in Hall as [Hlen Hpawn].
  apply bool_decide_eq_true in Hlen. split; [exact Hlen|].
  intros Hp. cbv zeta. apply orb_true_iff in Hpawn as [Hnp|Heq].
  - rewrite bool_decide_eq_true_2 in Hnp by exact Hp. discriminate.
  - apply bool_decide_eq_true in Heq. exact Heq.
Qed.

Lemma initial_position_moves_witness :
  length (getValidMoves initialBoard 7 6) = 2%nat.
Proof.
  apply (initial_position_moves 7 6 (ChessPiece.mk (Some knight) (Some white) None)).
  reflexivity.
Defined.

(** C4, as stated, fails: each knight has two moves. *)
Lemma initial_knight_moves_counterexample : ¬ initialMoveCounts.
Proof.
  intros H.
  specialize (H 7 1 (ChessPiece.mk (Some knight) (Some white) None) eq_refl).
  vm_compute in H. discriminate.
Qed.

(** ** Pawn attacks *)

(** C2 at a concrete position: the white pawn on d3 attacks e4, and
    [getValidMoves] lets it capture there, but [isSquareUnderAttack] does not
    report e4 as attacked by white, and a black king on e4 is not in check.
    The pawn block reads row - 1 for white (and row + 1 for black): a white
    pawn on d5 is reported as attacking e4. *)
Theorem pawn_attack_wrong_side :
  isPieceOf pawn (Some white) (cell pawnBelowTarget 5 3) = true
  ∧ isSquareUnderAttack pawnBelowTarget 4 4 white = false
  ∧ ¬ pawnAttacksDetected pawnBelowTarget 4 4
  ∧ isInCheck pawnBelowKing (Some black) = false
  ∧ In (captureMove 5 3 4 4 true) (getValidMoves pawnBelowKing 5 3)
  ∧ isSquareUnderAttack pawnAboveTarget 4 4 white = true.
Proof.
  split; [reflexivity|]. split; [reflexivity|]. split.
  - intros [Hwhite _].
    assert (isSquareUnderAttack pawnBelowTarget 4 4 white = true) as Habs
      by (apply Hwhite; left; reflexivity).
    vm_compute in Habs. discriminate.
  - split; [reflexivity|]. split; [|reflexivity].
    vm_compute. tauto.
Qed.

(** ** Attack detection reads the board through [attackView] *)

Lemma isPieceOf_attackView t byColor o1 o2 :
  attackView byColor o1 = attackView byColor o2 ->
  isPieceOf t (Some byColor) o1 = isPieceOf t (Some byColor) o2.
Proof.
  unfold attackView, isPieceOf. destruct o1 as [p1|], o2 as [p2|]; try
    (repeat case_bool_decide; simpl; congruence).
Qed.

Lemma attackRay_ext n board1 board2 r c dr dc byColor :
  (∀ k : nat,
     attackView byColor (cell board1 (r + Z.of_nat k * dr) (c + Z.of_nat k * dc))
     = attackView byColor (cell board2 (r + Z.of_nat k * dr) (c + Z.of_nat k * dc))) ->
  attackRay n board1 r c dr dc byColor = attackRay n board2 r c dr dc byColor.
Proof.
  revert r c. induction n as [|n IH]; intros r c Hsame; [reflexivity|].
  simpl. destruct (inBounds r c); [|reflexivity].
  pose proof (Hsame 0%nat) as H0. simpl in H0. rewrite !Z.add_0_r in H0.
  assert (attackRay n board1 (r + dr) (c + dc) dr dc byColor
          = attackRay n board2 (r + dr) (c + dc) dr dc byColor) as Hnext.
  { apply IH. intros k. specialize (Hsame (S k)).
    replace (r + dr + Z.of_nat k * dr) with (r + Z.of_nat (S k) * dr) by lia.
    replace (c + dc + Z.of_nat k * dc) with (c + Z.of_nat (S k) * dc) by lia.
    exact Hsame. }
  unfold attackView in H0.
  destruct (cell board1 r c) as [p1|], (cell board2 r c) as [p2|];
    repeat case_bool_decide; simpl; congruence.
Qed.

Lemma attackRay_empty_step n board r c dr dc byColor :
  inBounds r c = true -> cell board r c = None ->
  attackRay (S n) board r c dr dc byColor
  = attackRay n board (r + dr) (c + dc) dr dc byColor.
Proof. intros Hin Hcell. simpl. rewrite Hin, Hcell. reflexivity. Qed.

Lemma attackRay_blocked n board r c dr dc byColor piece :
  cell board r c = Some piece -> ChessPiece.color piece ≠ Some byColor ->
  attackRay n board r c dr dc byColor = false.
Proof.
  intros Hcell Hcolor. destruct n as [|n]; [reflexivity|]. simpl.
  destruct (inBounds r c); [|reflexivity]. rewrite Hcell.
  rewrite bool_decide_eq_false_2 by exact Hcolor. reflexivity.
Qed.

Lemma attackRay_outside n board r c dr dc byColor :
  inBounds r c = false -> attackRay n board r c dr dc byColor = false.
Proof. intros Hout. destruct n as [|n]; [reflexivity|]. simpl. rewrite Hout. reflexivity. Qed.

(** More fuel finds whatever less fuel finds. *)
Lemma attackRay_fuel_mono n m board r c dr dc byColor :
  (n <= m)%nat ->
  attackRay n board r c dr dc byColor = true ->
  attackRay m board r c dr dc byColor = true.
Proof.
  revert m r c. induction n as [|n IH]; intros m r c Hle; [discriminate|].
  destruct m as [|m]; [lia|]. simpl.
  destruct (inBounds r c); [|discriminate].
  destruct (cell board r c); [tauto|]. apply IH. lia.
Qed.

(** The loop leaves the board within [rayFuel] iterations: past that, fuel
    changes nothing. *)
Lemma attackRay_fuel_enough n k board r c dr dc byColor :
  (k < n)%nat ->
  inBounds (r + Z.of_nat k * dr) (c + Z.of_nat k * dc) = false ->
  attackRay (S n) board r c dr dc byColor = attackRay n board r c dr dc byColor.
Proof.
  revert k r c. induction n as [|n IH]; intros k r c Hk Hout; [lia|].
  destruct k as [|k].
  - simpl in Hout. rewrite !Z.add_0_r in Hout.
    rewrite !(attackRay_outside _ _ _ _ _ _ _ Hout). reflexivity.
  - change (attackRay (S (S n)) board r c dr dc byColor)
      with (if inBounds r c then
              match cell board r c with
              | Some piece =>
                  bool_decide (ChessPiece.color piece = Some byColor)
                  && (negb (dr =? 0) && negb (dc =? 0)
                      && (bool_decide (ChessPiece.type piece = Some bishop)
                          || bool_decide (ChessPiece.type piece = Some queen))
                      || ((dr =? 0) || (dc =? 0))
                         && (bool_decide (ChessPiece.type piece = Some rook)
                             || bool_decide (ChessPiece.type piece = Some queen)))
              | None => attackRay (S n) board (r + dr) (c + dc) dr dc byColor
              end
            else false).
    rewrite (IH k (r + dr) (c + dc)); [reflexivity|lia|].
    replace (r + dr + Z.of_nat k * dr) with (r + Z.of_nat (S k) * dr) by lia.
    replace (c + dc + Z.of_nat k * dc) with (c + Z.of_nat (S k) * dc) by lia.
    exact Hout.
Qed.

Lemma attackRay_rayFuel_enough n board row col dr dc byColor :
  0 <= row < 8 -> 0 <= col < 8 -> In (dr, dc) directions ->
  attackRay (rayFuel + n) board (row + dr) (col + dc) dr dc byColor
  = attackRay rayFuel board (row + dr) (col + dc) dr dc byColor.
Proof.
  intros Hr Hc Hd. induction n as [|n IH].
  - rewrite Nat.add_0_r. reflexivity.
  - rewrite <- IH. replace (rayFuel + S n)%nat with (S (rayFuel + n)) by lia.
    apply (attackRay_fuel_enough _ 7%nat); [unfold rayFuel; lia|].
    apply inBounds_false. simpl in Hd.
    repeat destruct Hd as [[= <- <-]|Hd]; try lia; destruct Hd.
Qed.

Lemma isSquareUnderAttack_split board row col byColor :
  isSquareUnderAttack board row col byColor
  = offRowAttack board row col byColor || rowAttack board row col byColor.
Proof.
  unfold isSquareUnderAttack, offRowAttack, rowAttack, slidingAttack, kingAttack.
  unfold directions, offRowDirections, existsb.
  repeat match goal with
         | |- context [attackRay ?n ?b ?r ?c ?dr ?dc ?bc] =>
             generalize (attackRay n b r c dr dc bc); intro
         | |- context [inBounds ?r ?c && isPieceOf ?t ?col ?o] =>
             generalize (inBounds r c && isPieceOf t col o); intro
         end.
  generalize (pawnAttack board row col byColor).
  generalize (knightAttack board row col byColor). intros.
  btauto.
Qed.

Lemma rowAttack_ext board1 board2 row col byColor :
  (∀ c, attackView byColor (cell board1 row c)
        = attackView byColor (cell board2 row c)) ->
  rowAttack board1 row col byColor = rowAttack board2 row col byColor.
Proof.
  intros Hsame. unfold rowAttack. rewrite !Z.add_0_r.
  rewrite (attackRay_ext _ board1 board2 row (col + -1)),
          (attackRay_ext _ board1 board2 row (col + 1)).
  - rewrite (isPieceOf_attackView king byColor _ _ (Hsame (col + -1))),
            (isPieceOf_attackView king byColor _ _ (Hsame (col + 1))).
    reflexivity.
  - intros k. rewrite Z.mul_0_r, Z.add_0_r. apply Hsame.
  - intros k. rewrite Z.mul_0_r, Z.add_0_r. apply Hsame.
Qed.

Lemma offRowAttack_ext board1 board2 row col byColor :
  (∀ r c, r ≠ row ->
     attackView byColor (cell board1 r c) = attackView byColor (cell board2 r c)) ->
  offRowAttack board1 row col byColor = offRowAttack board2 row col byColor.
Proof.
  intros Hsame.
  assert (∀ t r c, r ≠ row ->
            isPieceOf t (Some byColor) (cell board1 r c)
            = isPieceOf t (Some byColor) (cell board2 r c)) as Hpiece.
  { intros t r c Hr. apply isPieceOf_attackView, Hsame, Hr. }
  assert (∀ n c dr dc, dr = 1 ∨ dr = -1 ->
            attackRay n board1 (row + dr) c dr dc byColor
            = attackRay n board2 (row + dr) c dr dc byColor) as Hray.
  { intros n c dr dc Hdr. apply attackRay_ext. intros k. apply Hsame. nia. }
  unfold offRowAttack.
  assert (pawnAttack board1 row col byColor = pawnAttack board2 row col byColor)
    as ->.
  { unfold pawnAttack. destruct byColor; cbv zeta; rewrite !Hpiece by lia; reflexivity. }
  assert (knightAttack board1 row col byColor = knightAttack board2 row col byColor)
    as ->.
  { unfold knightAttack, knightOffsets, existsb. rewrite !Hpiece by lia. reflexivity. }
  unfold offRowDirections, existsb.
  rewrite !Hray by lia. rewrite !Hpiece by lia. reflexivity.
Qed.

Lemma isSquareUnderAttack_ext board1 board2 row col byColor :
  (∀ r c, attackView byColor (cell board1 r c) = attackView byColor (cell board2 r c)) ->
  isSquareUnderAttack board1 row col byColor
  = isSquareUnderAttack board2 row col byColor.
Proof.
  intros Hsame. rewrite !isSquareUnderAttack_split.
  rewrite (offRowAttack_ext board1 board2), (rowAttack_ext board1 board2);
    [reflexivity|intros; apply Hsame..].
Qed.

(** ** Finding the king *)

Lemma In_allSquares r c : In (r, c) allSquares <-> 0 <= r < 8 ∧ 0 <= c < 8.
Proof.
  split.
  - intros Hin. vm_compute in Hin.
    repeat destruct Hin as [[= <- <-]|Hin]; try lia.
  - intros [Hr Hc]. apply eight_cases in Hr. apply eight_cases in Hc.
    repeat destruct Hr as [->|Hr]; try subst r;
      repeat destruct Hc as [->|Hc]; try subst c;
      vm_compute; tauto.
Qed.

Lemma find_ext {A} (f g : A -> bool) l :
  (∀ x, In x l -> f x = g x) -> List.find f l = List.find g l.
Proof.
  induction l as [|x l IH]; intros Hfg; [reflexivity|]. simpl.
  rewrite (Hfg x) by (left; reflexivity).
  rewrite IH; [reflexivity|]. intros y Hy. apply Hfg. right. exact Hy.
Qed.

Lemma findKing_ext board1 board2 color :
  (∀ r c, isPieceOf king color (cell board1 r c)
          = isPieceOf king color (cell board2 r c)) ->
  findKing board1 color = findKing board2 color.
Proof.
  intros Hsame. unfold findKing. apply find_ext. intros [r c] _. apply Hsame.
Qed.

(** On a board whose only king of [color] stands on a square of the board,
    [findKing] returns that square. *)
Lemma findKing_only board color r0 c0 :
  0 <= r0 < 8 -> 0 <= c0 < 8 ->
  isPieceOf king color (cell board r0 c0) = true ->
  (∀ r c, 0 <= r < 8 -> 0 <= c < 8 ->
     isPieceOf king color (cell board r c) = true -> (r, c) = (r0, c0)) ->
  findKing board color = Some (r0, c0).
Proof.
  intros Hr0 Hc0 Hking Honly. unfold findKing.
  destruct (List.find _ allSquares) as [[r c]|] eqn:Hfind.
  - apply find_some in Hfind as [Hin Hk]. apply In_allSquares in Hin as [Hr Hc].
    f_equal. apply Honly; assumption.
  - exfalso. pose proof (find_none _ _ Hfind (r0, c0)) as Hnone.
    simpl in Hnone. rewrite Hking in Hnone.
    assert (true = false) by (apply Hnone, In_allSquares; split; assumption).
    discriminate.
Qed.

(** With at most one king of [color], two squares holding one coincide. *)
Lemma atMostOneKing_unique board color r c r' c' :
  atMostOneKing board color ->
  0 <= r < 8 -> 0 <= c < 8 -> 0 <= r' < 8 -> 0 <= c' < 8 ->
  isPieceOf king color (cell board r c) = true ->
  isPieceOf king color (cell board r' c') = true ->
  (r, c) = (r', c').
Proof.
  unfold atMostOneKing, kingSquares. intros Hone Hr Hc Hr' Hc' Hk Hk'.
  assert (In (r, c) (List.filter (fun '(r, c) => isPieceOf king color (cell board r c))
                       allSquares)) as Hin
    by (apply filter_In; split; [apply In_allSquares; split; assumption|exact Hk]).
  assert (In (r', c') (List.filter (fun '(r, c) => isPieceOf king color (cell board r c))
                         allSquares)) as Hin'
    by (apply filter_In; split; [apply In_allSquares; split; assumption|exact Hk']).
  destruct (List.filter _ allSquares) as [|x [|y l]]; simpl in *.
  - destruct Hin.
  - destruct Hin as [<-|[]], Hin' as [<-|[]]. reflexivity.
  - lia.
Qed.

Lemma isInCheck_ext board1 board2 color :
  sameForCheck color board1 board2 ->
  isInCheck board1 color = isInCheck board2 color.
Proof.
  intros Hsame. unfold isInCheck.
  rewrite (findKing_ext board1 board2) by (intros; apply Hsame).
  destruct (findKing board2 color) as [[r c]|]; [|reflexivity].
  apply isSquareUnderAttack_ext. intros; apply Hsame.
Qed.

(** ** The moves of the generators *)

Lemma cell_setCell board r c v r' c' :
  wfBoard board -> 0 <= r < 8 -> 0 <= c < 8 ->
  cell (setCell board r c v) r' c'
  = if bool_decide ((r, c) = (r', c')) then v else cell board r' c'.
Proof.
  intros Hwf Hr Hc. case_bool_decide as Heq.
  - injection Heq as <- <-. apply cell_setCell_eq; assumption.
  - apply cell_setCell_inside; assumption.
Qed.

Lemma cell_Some_row board r c piece :
  wfBoard board -> cell board r c = Some piece -> 0 <= r < 8.
Proof.
  intros [Hlen _]. unfold cell, rowAt.
  destruct (Z.ltb_spec r 0); [discriminate|].
  destruct (board !! Z.to_nat r) as [cells|] eqn:Hrow; [|discriminate].
  intros _. apply lookup_lt_Some in Hrow. lia.
Qed.

Lemma fold_left_Forall {A B} (P : A -> Prop) (f : list A -> B -> list A) l init :
  (∀ acc x, Forall P acc -> Forall P (f acc x)) ->
  Forall P init -> Forall P (fold_left f l init).
Proof.
  intros Hstep. revert init. induction l as [|x l IH]; intros init Hinit;
    [exact Hinit|]. simpl. apply IH, Hstep, Hinit.
Qed.

Lemma Forall_snoc {A} (P : A -> Prop) l x :
  Forall P l -> P x -> Forall P (l ++ [x]).
Proof. intros Hl Hx. apply Forall_app. split; [exact Hl|]. constructor; [exact Hx|constructor]. Qed.

Lemma plainGenerated_plain row col piece r c :
  0 <= r < 8 -> 0 <= c < 8 -> plainGenerated row col piece (plainMove row col r c).
Proof.
  intros Hr Hc. unfold plainGenerated, plainMove, squareInBounds. simpl.
  repeat split; try lia. left. reflexivity.
Qed.

Lemma plainGenerated_capture row col piece r c cap :
  0 <= r < 8 -> 0 <= c < 8 ->
  plainGenerated row col piece (captureMove row col r c cap).
Proof.
  intros Hr Hc. unfold plainGenerated, captureMove, squareInBounds. simpl.
  repeat split; try lia. left. reflexivity.
Qed.

Lemma getKnightMoves_generated board row col piece moves :
  Forall (plainGenerated row col piece) moves ->
  Forall (plainGenerated row col piece) (getKnightMoves board row col piece moves).
Proof.
  unfold getKnightMoves. apply fold_left_Forall. intros acc [dr dc] Hacc.
  destruct (inBounds (row + dr) (col + dc)) eqn:Hin; [|exact Hacc].
  apply inBounds_spec in Hin as [Hr Hc].
  destruct (cell board _ _) as [target|].
  - destruct (otherColor target piece); [|exact Hacc].
    apply Forall_snoc; [exact Hacc|]. apply plainGenerated_capture; assumption.
  - apply Forall_snoc; [exact Hacc|]. apply plainGenerated_capture; assumption.
Qed.

Lemma slide_generated fuel board row col piece newRow newCol dr dc moves :
  Forall (plainGenerated row col piece) moves ->
  Forall (plainGenerated row col piece)
    (slide fuel board row col piece newRow newCol dr dc moves).
Proof.
  revert newRow newCol moves.
  induction fuel as [|fuel IH]; intros newRow newCol moves Hacc; [exact Hacc|].
  simpl. destruct (inBounds newRow newCol) eqn:Hin; [|exact Hacc].
  apply inBounds_spec in Hin as [Hr Hc].
  destruct (cell board newRow newCol) as [target|].
  - destruct (otherColor target piece); [|exact Hacc].
    apply Forall_snoc; [exact Hacc|]. apply plainGenerated_capture; assumption.
  - apply IH. apply Forall_snoc; [exact Hacc|]. apply plainGenerated_plain; assumption.
Qed.

Lemma getSlidingMoves_generated board row col piece moves dirs :
  Forall (plainGenerated row col piece) moves ->
  Forall (plainGenerated row col piece)
    (getSlidingMoves board row col piece moves dirs).
Proof.
  unfold getSlidingMoves. apply fold_left_Forall. intros acc [dr dc] Hacc.
  apply slide_generated, Hacc.
Qed.

Lemma getPawnMoves_generated board row col piece moves :
  wfBoard board -> 0 <= row < 8 -> 0 <= col < 8 ->
  ChessPiece.type piece = Some pawn ->
  Forall (fun m => plainGenerated row col piece m
                   ∧ ChessSquare.row (ChessMove.to m) ≠ row) moves ->
  Forall (plainGenerated row col piece) (getPawnMoves board row col piece moves).
Proof.
  intros Hwf Hrow Hcol Hpawn Hmoves. unfold getPawnMoves. cbv zeta.
  set (direction := if bool_decide (ChessPiece.color piece = Some white) then -1 else 1).
  set (startRow := if bool_decide (ChessPiece.color piece = Some white) then 6 else 1).
  assert (direction = -1 ∧ startRow = 6 ∨ direction = 1 ∧ startRow = 1) as Hdir
    by (unfold direction, startRow; destruct (bool_decide _); [left|right]; split; reflexivity).
  apply Forall_fmap.
  assert (∀ m, plainGenerated row col piece m
               ∧ ChessSquare.row (ChessMove.to m) ≠ row ->
               (plainGenerated row col piece
                ∘ (fun move =>
                     if ChessSquare.row (ChessMove.to move)
                        =? (if bool_decide (ChessPiece.color piece = Some white)
                            then 0 else 7)
                     then setPromotion move promoQueen else move)) m) as Hpromo.
  { intros m [(Hfrom & Hto & Hcastle & Hep & _) Hne]. unfold compose.
    destruct (_ =? _); unfold plainGenerated; simpl;
      (split; [exact Hfrom|]); (split; [exact Hto|]); auto. }
  eapply Forall_impl; [|exact Hpromo].
  apply fold_left_Forall.
  - intros acc dc Hacc.
    destruct ((0 <=? col + dc) && (col + dc <? 8)) eqn:Hin; [|exact Hacc].
    destruct (cell board (row + direction) (col + dc)) as [target|] eqn:Htarget;
      [|exact Hacc].
    destruct (otherColor target piece); [|exact Hacc].
    apply Forall_snoc; [exact Hacc|].
    pose proof (cell_Some_row _ _ _ _ Hwf Htarget).
    split; [apply plainGenerated_capture; lia|]. simpl. lia.
  - destruct ((0 <=? row + direction) && (row + direction <? 8)
              && negb (bool_decide (is_Some (cell board (row + direction) col))))
      eqn:Hone; [|exact Hmoves].
    assert (0 <= row + direction < 8) by lia.
    assert (Forall (fun m => plainGenerated row col piece m
                             ∧ ChessSquare.row (ChessMove.to m) ≠ row)
              (moves ++ [plainMove row col (row + direction) col])) as Hone'.
    { apply Forall_snoc; [exact Hmoves|].
      split; [apply plainGenerated_plain; lia|]. simpl. lia. }
    destruct ((row =? startRow) && _) eqn:Htwo; [|exact Hone'].
    apply Forall_snoc; [exact Hone'|].
    split; [apply plainGenerated_plain; lia|]. simpl. lia.
Qed.

Lemma castle_path_kingside : seqZ (4 + 1) (7 - (4 + 1)) = [5; 6].
Proof. reflexivity. Qed.

Lemma castle_path_queenside : rev (seqZ (0 + 1) (4 - 1 - 0)) = [3; 2; 1].
Proof. reflexivity. Qed.

(** [getKingMoves] returns the king steps it kept, then the kingside castle
    if its tests pass, then the queenside castle if its tests pass. *)
Lemma getKingMoves_unfold board row col piece moves :
  ∃ steps,
    Forall (plainGenerated row col piece) steps
    ∧ getKingMoves board row col piece moves
      = (moves ++ steps)
        ++ (if negb (truthy (ChessPiece.hasMoved piece))
               && negb (isInCheck board (ChessPiece.color piece))
               && (col =? 4)
               && isCastleRook piece (cell board row 7)
               && forallb (castlePathOk board row col piece (fun c => c <=? col + 2))
                    [5; 6]
            then [castleMove row col row (col + 2) kingside] else [])
        ++ (if negb (truthy (ChessPiece.hasMoved piece))
               && negb (isInCheck board (ChessPiece.color piece))
               && (col =? 4)
               && isCastleRook piece (cell board row 0)
               && forallb (castlePathOk board row col piece (fun c => col - 2 <=? c))
                    [3; 2; 1]
            then [castleMove row col row (col - 2) queenside] else []).
Proof.
  unfold getKingMoves. cbv zeta.
  match goal with
  | |- context [fold_left ?f directions moves] =>
      assert (∃ steps, Forall (plainGenerated row col piece) steps
                       ∧ fold_left f directions moves = moves ++ steps) as Hsteps
  end.
  { generalize directions. intros dirs. revert moves.
    induction dirs as [|[dr dc] dirs IH]; intros moves.
    - exists []. split; [constructor|]. simpl. rewrite app_nil_r. reflexivity.
    - cbn [fold_left].
      match goal with
      | |- context [fold_left _ dirs ?acc] => destruct (IH acc) as (steps & Hsteps & ->)
      end.
      destruct (inBounds (row + dr) (col + dc)) eqn:Hin;
        [|exists steps; split; [exact Hsteps|reflexivity]].
      apply inBounds_spec in Hin as [Hr Hc].
      match goal with
      | |- context [if ?free then _ else moves] => destruct free
      end; [|exists steps; split; [exact Hsteps|reflexivity]].
      destruct (negb _); [|exists steps; split; [exact Hsteps|reflexivity]].
      exists (plainMove row col (row + dr) (col + dc) :: steps). split.
      + constructor; [apply plainGenerated_plain; assumption|exact Hsteps].
      + rewrite <- app_assoc. reflexivity. }
  destruct Hsteps as (steps & Hsteps & ->). exists steps. split; [exact Hsteps|].
  destruct (Z.eqb_spec col 4) as [->|Hcol].
  - rewrite castle_path_kingside, castle_path_queenside.
    generalize (forallb (castlePathOk board row 4 piece (fun c => c <=? 4 + 2)) [5; 6]).
    generalize (forallb (castlePathOk board row 4 piece (fun c => 4 - 2 <=? c)) [3; 2; 1]).
    intros bq bk.
    destruct (negb (truthy _) && negb (isInCheck _ _)),
             (isCastleRook piece (cell board row 7)),
             (isCastleRook piece (cell board row 0)), bq, bk;
      cbn [andb]; rewrite ?app_nil_r; rewrite <- ?app_assoc; reflexivity.
  - rewrite !andb_false_r. cbn [andb].
    destruct (negb (truthy _) && negb (isInCheck _ _));
      rewrite ?app_nil_r; reflexivity.
Qed.

Lemma getKingMoves_generated board row col piece :
  ChessPiece.type piece = Some king ->
  Forall (generated board row col piece) (getKingMoves board row col piece []).
Proof.
  intros Hking.
  destruct (getKingMoves_unfold board row col piece []) as (steps & Hsteps & ->).
  simpl. apply Forall_app. split; [|apply Forall_app; split].
  - eapply Forall_impl; [exact Hsteps|]. intros m Hm. left. exact Hm.
  - destruct (_ && _) eqn:Hcond; [|constructor].
    repeat (apply andb_true_iff in Hcond as [Hcond ?]).
    constructor; [|constructor]. right. split; [exact Hking|]. left.
    simpl in *. repeat match goal with
                       | H : _ && _ = true |- _ => apply andb_true_iff in H as [? ?]
                       end.
    unfold kingsideGenerated. repeat split; try assumption.
    apply Z.eqb_eq. assumption.
  - destruct (_ && _) eqn:Hcond; [|constructor].
    repeat (apply andb_true_iff in Hcond as [Hcond ?]).
    constructor; [|constructor]. right. split; [exact Hking|]. right.
    simpl in *. repeat match goal with
                       | H : _ && _ = true |- _ => apply andb_true_iff in H as [? ?]
                       end.
    unfold queensideGenerated. repeat split; try assumption.
    apply Z.eqb_eq. assumption.
Qed.

Lemma getValidMoves_generated board row col piece move :
  wfBoard board -> 0 <= row < 8 -> 0 <= col < 8 ->
  cell board row col = Some piece ->
  In move (getValidMoves board row col) ->
  generated board row col piece move
  ∧ wouldBeInCheck board move (ChessPiece.color piece) = false.
Proof.
  intros Hwf Hrow Hcol Hpiece. unfold getValidMoves. rewrite Hpiece.
  intros Hin. apply filter_In in Hin as [Hin Hsafe].
  apply negb_true_iff in Hsafe. split; [|exact Hsafe].
  assert (∀ l, Forall (plainGenerated row col piece) l -> In move l ->
               generated board row col piece move) as Hplain.
  { intros l Hl Hm. left. rewrite Forall_forall in Hl.
    apply Hl, list_elem_of_In, Hm. }
  destruct (ChessPiece.type piece) as [[]|] eqn:Htype.
  - eapply Hplain; [|exact Hin].
    apply getPawnMoves_generated; try assumption. constructor.
  - eapply Hplain; [|exact Hin]. apply getKnightMoves_generated. constructor.
  - eapply Hplain; [|exact Hin]. apply getSlidingMoves_generated. constructor.
  - eapply Hplain; [|exact Hin]. apply getSlidingMoves_generated. constructor.
  - eapply Hplain; [|exact Hin]. apply getSlidingMoves_generated. constructor.
  - pose proof (getKingMoves_generated board row col piece Htype) as Hall.
    rewrite Forall_forall in Hall. apply Hall, list_elem_of_In, Hin.
  - destruct Hin.
Qed.

(** ** Legality: a returned move leaves the mover's king safe *)

Lemma own_not_opponent (c : option ChessColor) : c ≠ Some (opponentColorOf c).
Proof. destruct c as [[]|]; discriminate. Qed.

Lemma attackView_own color piece piece' :
  ChessPiece.color piece = color -> ChessPiece.color piece' = color ->
  attackView (opponentColorOf color) (Some piece)
  = attackView (opponentColorOf color) (Some piece').
Proof.
  intros H H'. unfold attackView.
  rewrite !bool_decide_eq_false_2; [reflexivity|..];
    intros Heq; apply (own_not_opponent color); congruence.
Qed.

Ltac solve_wf := repeat apply setCell_wf; assumption.

(** A plain move gives [makeMove] the board [wouldBeInCheck] tested, up to
    what [isInCheck] reads for the mover's color. *)
Lemma plain_move_same_check board row col piece m :
  wfBoard board -> 0 <= row < 8 -> 0 <= col < 8 ->
  cell board row col = Some piece ->
  plainGenerated row col piece m ->
  wouldBeInCheck board m (ChessPiece.color piece)
  = isInCheck (applyMove board m piece) (ChessPiece.color piece).
Proof.
  intros Hwf Hrow Hcol Hpiece (Hfrom & [Htr Htc] & Hcastle & Hep & Hpromo).
  destruct m as [from [tr tc] promo cap chk mate castle ep]. simpl in *. subst.
  unfold wouldBeInCheck, applyMove, cloneBoard. simpl. rewrite Hpiece.
  apply isInCheck_ext. intros r c.
  destruct promo as [p|].
  - destruct Hpromo as [|[Hpawn Hne]]; [discriminate|].
    assert (pieceTypeOf p ≠ king) by (destruct p; discriminate).
    rewrite !cell_setCell by (solve_wf || lia).
    repeat case_bool_decide; simplify_eq; try lia; try (split; reflexivity).
    split; [apply attackView_own; reflexivity|].
    unfold isPieceOf. simpl. rewrite Hpawn.
    rewrite (bool_decide_eq_false_2 (Some pawn = Some king)) by discriminate.
    rewrite (bool_decide_eq_false_2 (Some (pieceTypeOf p) = Some king)) by congruence.
    reflexivity.
  - rewrite !cell_setCell by (solve_wf || lia).
    repeat case_bool_decide; simplify_eq; split; reflexivity.
Qed.

Lemma isSquareUnderAttack_false board row col byColor :
  isSquareUnderAttack board row col byColor = false
  <-> offRowAttack board row col byColor = false
      ∧ rowAttack board row col byColor = false.
Proof. rewrite isSquareUnderAttack_split. apply orb_false_iff. Qed.

Lemma rowAttack_false_intro board row col cl cr byColor :
  cl = col - 1 -> cr = col + 1 ->
  attackRay rayFuel board row cl 0 (-1) byColor = false ->
  attackRay rayFuel board row cr 0 1 byColor = false ->
  isPieceOf king (Some byColor) (cell board row cl) = false ->
  isPieceOf king (Some byColor) (cell board row cr) = false ->
  rowAttack board row col byColor = false.
Proof.
  intros -> -> Hl Hr Hkl Hkr. unfold rowAttack. rewrite !Z.add_0_r.
  change (col + -1) with (col - 1).
  rewrite Hl, Hr, Hkl, Hkr, !andb_false_r. reflexivity.
Qed.

Lemma rowAttack_false_rays board row col cl cr byColor :
  cl = col - 1 -> cr = col + 1 ->
  rowAttack board row col byColor = false ->
  attackRay rayFuel board row cl 0 (-1) byColor = false
  ∧ attackRay rayFuel board row cr 0 1 byColor = false.
Proof.
  intros -> ->. unfold rowAttack. rewrite !Z.add_0_r.
  change (col + -1) with (col - 1).
  rewrite !orb_false_iff. tauto.
Qed.

Lemma isPieceOf_king_not_king color piece :
  ChessPiece.type piece ≠ Some king -> isPieceOf king color (Some piece) = false.
Proof.
  intros Hne. unfold isPieceOf. rewrite bool_decide_eq_false_2 by exact Hne.
  reflexivity.
Qed.

Lemma isCastleRook_inv piece o :
  isCastleRook piece o = true ->
  ∃ rk, o = Some rk
    ∧ ChessPiece.type rk = Some rook
    ∧ ChessPiece.color rk = ChessPiece.color piece
    ∧ truthy (ChessPiece.hasMoved rk) = false.
Proof.
  unfold isCastleRook. destruct o as [rk|]; [|discriminate].
  rewrite !andb_true_iff, !bool_decide_eq_true, negb_true_iff.
  intros [[Ht Hc] Hm]. exists rk. repeat split; assumption.
Qed.

Lemma castlePathOk_inv board row col piece through c :
  castlePathOk board row col piece through c = true ->
  cell board row c = None
  ∧ (through c = true ->
     isSquareUnderAttack (kingTestBoard board row col piece row c) row c
       (opponentColorOf (ChessPiece.color piece)) = false).
Proof.
  unfold castlePathOk. rewrite andb_true_iff. intros [Hnull Hsafe].
  split; [apply isNullAt_cell, Hnull|]. intros Ht. rewrite Ht in Hsafe.
  apply negb_true_iff, Hsafe.
Qed.

(** The cells of the board on which a castling square is tested. *)
Lemma cell_kingTestBoard board row col piece c r' c' :
  wfBoard board -> 0 <= row < 8 -> 0 <= col < 8 -> 0 <= c < 8 ->
  cell (kingTestBoard board row col piece row c) r' c'
  = if bool_decide ((row, col) = (r', c')) then None
    else if bool_decide ((row, c) = (r', c')) then Some piece
    else cell board r' c'.
Proof.
  intros Hwf Hrow Hcol Hc. unfold kingTestBoard, cloneBoard.
  rewrite !cell_setCell by (solve_wf || lia). reflexivity.
Qed.

(** The cells of the board after a kingside castle. *)
Lemma cell_applyMove_kingside board row piece rk r c :
  wfBoard board -> 0 <= row < 8 ->
  cell board row 7 = Some rk ->
  cell (applyMove board (castleMove row 4 row 6 kingside) piece) r c
  = if bool_decide ((row, 7) = (r, c)) then None
    else if bool_decide ((row, 5) = (r, c)) then Some (markMoved (Some rk))
    else if bool_decide ((row, 4) = (r, c)) then None
    else if bool_decide ((row, 6) = (r, c)) then Some (markMoved (Some piece))
    else cell board r c.
Proof.
  intros Hwf Hrow Hrk.
  unfold applyMove, castleMove, handleCastle, cloneBoard. simpl.
  rewrite !cell_setCell by (solve_wf || lia).
  rewrite (bool_decide_eq_false_2 ((row, 4) = (row, 7))) by (intros [=]).
  rewrite (bool_decide_eq_false_2 ((row, 6) = (row, 7))) by (intros [=]).
  rewrite Hrk. reflexivity.
Qed.

(** The cells of the board after a queenside castle. *)
Lemma cell_applyMove_queenside board row piece rk r c :
  wfBoard board -> 0 <= row < 8 ->
  cell board row 0 = Some rk ->
  cell (applyMove board (castleMove row 4 row 2 queenside) piece) r c
  = if bool_decide ((row, 0) = (r, c)) then None
    else if bool_decide ((row, 3) = (r, c)) then Some (markMoved (Some rk))
    else if bool_decide ((row, 4) = (r, c)) then None
    else if bool_decide ((row, 2) = (r, c)) then Some (markMoved (Some piece))
    else cell board r c.
Proof.
  intros Hwf Hrow Hrk.
  unfold applyMove, castleMove, handleCastle, cloneBoard. simpl.
  rewrite !cell_setCell by (solve_wf || lia).
  rewrite (bool_decide_eq_false_2 ((row, 4) = (row, 0))) by (intros [=]).
  rewrite (bool_decide_eq_false_2 ((row, 2) = (row, 0))) by (intros [=]).
  rewrite Hrk. reflexivity.
Qed.

Lemma markMoved_color piece :
  ChessPiece.color (markMoved (Some piece)) = ChessPiece.color piece.
Proof. reflexivity. Qed.

Lemma markMoved_type piece :
  ChessPiece.type (markMoved (Some piece)) = ChessPiece.type piece.
Proof. reflexivity. Qed.

Lemma isPieceOf_king_own piece :
  ChessPiece.type piece = Some king ->
  isPieceOf king (ChessPiece.color piece) (Some (markMoved (Some piece))) = true.
Proof.
  intros Hking. unfold isPieceOf. simpl. rewrite Hking.
  rewrite !bool_decide_eq_true_2 by reflexivity. reflexivity.
Qed.

Ltac in_bounds := apply inBounds_spec; lia.
Ltac out_of_bounds := apply inBounds_false; lia.

Section CastleSafety.

(** The king [piece] stands on column 4 of [row], and the board has no
    other king of its color. *)
Variables (board : ChessBoard) (row : Z) (piece : ChessPiece).
Hypothesis Hwf : wfBoard board.
Hypothesis Hrow : 0 <= row < 8.
Hypothesis Hpiece : cell board row 4 = Some piece.
Hypothesis Hking : ChessPiece.type piece = Some king.
Hypothesis Hone : atMostOneKing board (ChessPiece.color piece).

(** After a kingside castle that [getKingMoves] generated, the king on the
    g-file is not attacked: off its row the board is the one the generator
    tested, on its row the rook stands beside it and the corner is empty. *)
Lemma kingside_castle_safe m :
  kingsideGenerated board row 4 piece m ->
  isInCheck (applyMove board m piece) (ChessPiece.color piece) = false.
Proof.
  intros (-> & _ & Hrook & H5 & H6).
  change (4 + 2) with 6 in *.
  apply isCastleRook_inv in Hrook as (rk & Hrk & Hrkt & Hrkc & _).
  apply castlePathOk_inv in H5 as [H5 _].
  apply castlePathOk_inv in H6 as [H6 Hsafe]. specialize (Hsafe eq_refl).
  set (byColor := opponentColorOf (ChessPiece.color piece)) in *.
  set (nb := applyMove board (castleMove row 4 row 6 kingside) piece).
  assert (∀ r c, cell nb r c
                 = if bool_decide ((row, 7) = (r, c)) then None
                   else if bool_decide ((row, 5) = (r, c)) then Some (markMoved (Some rk))
                   else if bool_decide ((row, 4) = (r, c)) then None
                   else if bool_decide ((row, 6) = (r, c))
                        then Some (markMoved (Some piece))
                        else cell board r c) as Hnb
    by (intros; apply cell_applyMove_kingside; assumption).
  assert (ChessPiece.color (markMoved (Some rk)) ≠ Some byColor) as Hrkown.
  { rewrite markMoved_color, Hrkc. intros Heq.
    apply (own_not_opponent (ChessPiece.color piece)). exact Heq. }
  assert (findKing nb (ChessPiece.color piece) = Some (row, 6)) as Hfind.
  { apply findKing_only; [lia|lia| |].
    - rewrite Hnb. repeat case_bool_decide; simplify_eq.
      apply isPieceOf_king_own, Hking.
    - intros r c Hr Hc. rewrite Hnb.
      repeat case_bool_decide; simplify_eq; try discriminate; try reflexivity.
      + rewrite isPieceOf_king_not_king; [discriminate|].
        rewrite markMoved_type, Hrkt. discriminate.
      + intros Hk. exfalso.
        assert ((r, c) = (row, 4)) as Heq.
        { apply (atMostOneKing_unique board (ChessPiece.color piece));
            try assumption; try lia.
          rewrite Hpiece. unfold isPieceOf. rewrite Hking.
          rewrite !bool_decide_eq_true_2 by reflexivity. reflexivity. }
        congruence. }
  unfold isInCheck. rewrite Hfind. fold byColor.
  apply isSquareUnderAttack_false in Hsafe as [Hoff _].
  apply isSquareUnderAttack_false. split.
  - rewrite <- Hoff. apply offRowAttack_ext. intros r c Hr.
    rewrite Hnb, cell_kingTestBoard by (assumption || lia).
    repeat case_bool_decide; simplify_eq; reflexivity.
  - apply (rowAttack_false_intro _ _ _ 5 7); [lia|lia|..].
    + eapply attackRay_blocked; [|exact Hrkown].
      rewrite Hnb. repeat case_bool_decide; simplify_eq. reflexivity.
    + unfold rayFuel. rewrite attackRay_empty_step.
      * apply attackRay_outside. out_of_bounds.
      * in_bounds.
      * rewrite Hnb. repeat case_bool_decide; simplify_eq. reflexivity.
    + rewrite Hnb. repeat case_bool_decide; simplify_eq.
      apply isPieceOf_king_not_king. rewrite markMoved_type, Hrkt. discriminate.
    + rewrite Hnb. repeat case_bool_decide; simplify_eq. reflexivity.
Qed.

(** The same after a queenside castle: the rook stands on the d-file and the
    a- and b-file squares of the row are empty. *)
Lemma queenside_castle_safe m :
  queensideGenerated board row 4 piece m ->
  isInCheck (applyMove board m piece) (ChessPiece.color piece) = false.
Proof.
  intros (-> & _ & Hrook & H3 & H2 & H1).
  change (4 - 2) with 2 in *.
  apply isCastleRook_inv in Hrook as (rk & Hrk & Hrkt & Hrkc & _).
  apply castlePathOk_inv in H3 as [H3 _].
  apply castlePathOk_inv in H2 as [H2 Hsafe]. specialize (Hsafe eq_refl).
  apply castlePathOk_inv in H1 as [H1 _].
  set (byColor := opponentColorOf (ChessPiece.color piece)) in *.
  set (nb := applyMove board (castleMove row 4 row 2 queenside) piece).
  assert (∀ r c, cell nb r c
                 = if bool_decide ((row, 0) = (r, c)) then None
                   else if bool_decide ((row, 3) = (r, c)) then Some (markMoved (Some rk))
                   else if bool_decide ((row, 4) = (r, c)) then None
                   else if bool_decide ((row, 2) = (r, c))
                        then Some (markMoved (Some piece))
                        else cell board r c) as Hnb
    by (intros; apply cell_applyMove_queenside; assumption).
  assert (ChessPiece.color (markMoved (Some rk)) ≠ Some byColor) as Hrkown.
  { rewrite markMoved_color, Hrkc. intros Heq.
    apply (own_not_opponent (ChessPiece.color piece)). exact Heq. }
  assert (findKing nb (ChessPiece.color piece) = Some (row, 2)) as Hfind.
  { apply findKing_only; [lia|lia| |].
    - rewrite Hnb. repeat case_bool_decide; simplify_eq.
      apply isPieceOf_king_own, Hking.
    - intros r c Hr Hc. rewrite Hnb.
      repeat case_bool_decide; simplify_eq; try discriminate; try reflexivity.
      + rewrite isPieceOf_king_not_king; [discriminate|].
        rewrite markMoved_type, Hrkt. discriminate.
      + intros Hk. exfalso.
        assert ((r, c) = (row, 4)) as Heq.
        { apply (atMostOneKing_unique board (ChessPiece.color piece));
            try assumption; try lia.
          rewrite Hpiece. unfold isPieceOf. rewrite Hking.
          rewrite !bool_decide_eq_true_2 by reflexivity. reflexivity. }
        congruence. }
  unfold isInCheck. rewrite Hfind. fold byColor.
  apply isSquareUnderAttack_false in Hsafe as [Hoff _].
  apply isSquareUnderAttack_false. split.
  - rewrite <- Hoff. apply offRowAttack_ext. intros r c Hr.
    rewrite Hnb, cell_kingTestBoard by (assumption || lia).
    repeat case_bool_decide; simplify_eq; reflexivity.
  - apply (rowAttack_false_intro _ _ _ 1 3); [lia|lia|..].
    + unfold rayFuel.
      rewrite attackRay_empty_step;
        [|in_bounds|rewrite Hnb; repeat case_bool_decide; simplify_eq; exact H1].
      rewrite Z.add_0_r. change (1 + -1) with 0.
      rewrite attackRay_empty_step;
        [|in_bounds|rewrite Hnb; repeat case_bool_decide; simplify_eq; reflexivity].
      apply attackRay_outside. out_of_bounds.
    + eapply attackRay_blocked; [|exact Hrkown].
      rewrite Hnb. repeat case_bool_decide; simplify_eq. reflexivity.
    + rewrite Hnb. repeat case_bool_decide; simplify_eq. rewrite H1. reflexivity.
    + rewrite Hnb. repeat case_bool_decide; simplify_eq.
      apply isPieceOf_king_not_king. rewrite markMoved_type, Hrkt. discriminate.
Qed.

End CastleSafety.

(** C1. On a board of the data model (eight rows, at most one king of the
    mover's color) every move that [getValidMoves] returns for a square of
    the board is applied by [makeMove] to a board on which the mover's color
    is not in check according to [isInCheck]. *)
Theorem valid_moves_keep_king_safe board row col piece move :
  wfBoard board -> 0 <= row < 8 -> 0 <= col < 8 ->
  cell board row col = Some piece ->
  atMostOneKing board (ChessPiece.color piece) ->
  In move (getValidMoves board row col) ->
  ∃ res newBoard,
    makeMove board move = Returned res
    ∧ MoveResult.valid res = true
    ∧ MoveResult.newBoard res = Some newBoard
    ∧ isInCheck newBoard (ChessPiece.color piece) = false.
Proof.
  intros Hwf Hrow Hcol Hpiece Hone Hin.
  destruct (getValidMoves_generated _ _ _ _ _ Hwf Hrow Hcol Hpiece Hin)
    as [Hgen Hsafe].
  assert (ChessMove.from move = ChessSquare.mk row col
          ∧ squareInBounds (ChessMove.to move)) as [Hfrom Hto].
  { destruct Hgen as [(Hfrom & Hto & _)|[_ [(-> & -> & _)|(-> & -> & _)]]];
      [split; assumption|split; [reflexivity|]..];
      unfold squareInBounds; simpl; lia. }
  assert (isInCheck (applyMove board move piece) (ChessPiece.color piece) = false)
    as Hcheck.
  { destruct Hgen as [Hplain|[Hking [Hk|Hq]]].
    - rewrite <- (plain_move_same_check _ _ _ _ _ Hwf Hrow Hcol Hpiece Hplain).
      exact Hsafe.
    - pose proof Hk as (_ & -> & _).
      apply (kingside_castle_safe board row piece Hwf Hrow Hpiece Hking Hone move).
      exact Hk.
    - pose proof Hq as (_ & -> & _).
      apply (queenside_castle_safe board row piece Hwf Hrow Hpiece Hking Hone move).
      exact Hq. }
  rewrite makeMove_returns;
    [|exact Hwf|rewrite Hfrom; unfold squareInBounds; simpl; lia|exact Hto].
  unfold sourcePiece. rewrite Hfrom. simpl. rewrite Hpiece.
  eexists _, _. split; [reflexivity|]. simpl.
  split; [reflexivity|]. split; [reflexivity|]. exact Hcheck.
Qed.

(** ** Castling *)

Lemma attackRay_fuel_le_false n m board r c dr dc byColor :
  (n <= m)%nat ->
  attackRay m board r c dr dc byColor = false ->
  attackRay n board r c dr dc byColor = false.
Proof.
  intros Hle Hm. destruct (attackRay n board r c dr dc byColor) eqn:Hn;
    [|reflexivity].
  rewrite (attackRay_fuel_mono _ _ _ _ _ _ _ _ Hle Hn) in Hm. discriminate.
Qed.

(** A horizontal ray reads only the cells of its row from its start on. *)
Lemma attackRay_row_ext n board1 board2 row c dc byColor :
  dc = 1 ∨ dc = -1 ->
  (∀ c', (dc = 1 -> c <= c') -> (dc = -1 -> c' <= c) ->
         cell board1 row c' = cell board2 row c') ->
  attackRay n board1 row c 0 dc byColor = attackRay n board2 row c 0 dc byColor.
Proof.
  intros Hdc Hsame. apply attackRay_ext. intros k.
  rewrite Z.mul_0_r, Z.add_0_r. f_equal. apply Hsame; nia.
Qed.

Lemma isPieceOf_other_color t byColor piece :
  ChessPiece.color piece ≠ Some byColor ->
  isPieceOf t (Some byColor) (Some piece) = false.
Proof.
  intros Hne. unfold isPieceOf. rewrite (bool_decide_eq_false_2 _ Hne).
  apply andb_false_r.
Qed.

Ltac cell_cases :=
  repeat case_bool_decide; simplify_eq; try lia; try reflexivity; try assumption.

Section CastlePath.

(** The king [piece] stands on column 4 of [row] and is not attacked. *)
Variables (board : ChessBoard) (row : Z) (piece : ChessPiece).
Hypothesis Hwf : wfBoard board.
Hypothesis Hrow : 0 <= row < 8.
Hypothesis Hking4 :
  isSquareUnderAttack board row 4 (opponentColorOf (ChessPiece.color piece))
  = false.

(** Kingside: when the king, f1 and g1 are not attacked on the board, f1 and
    g1 are not attacked either with the king placed on them. *)
Lemma kingside_path_safe rk :
  cell board row 7 = Some rk ->
  ChessPiece.color rk = ChessPiece.color piece ->
  cell board row 5 = None -> cell board row 6 = None ->
  isSquareUnderAttack board row 5 (opponentColorOf (ChessPiece.color piece))
  = false ->
  isSquareUnderAttack board row 6 (opponentColorOf (ChessPiece.color piece))
  = false ->
  isSquareUnderAttack (kingTestBoard board row 4 piece row 5) row 5
    (opponentColorOf (ChessPiece.color piece)) = false
  ∧ isSquareUnderAttack (kingTestBoard board row 4 piece row 6) row 6
      (opponentColorOf (ChessPiece.color piece)) = false.
Proof.
  intros Hrk Hrkc H5 H6 Ha5 Ha6. pose proof Hking4 as Ha4.
  set (byColor := opponentColorOf (ChessPiece.color piece)) in *.
  apply isSquareUnderAttack_false in Ha4 as [_ Ha4].
  apply (rowAttack_false_rays _ _ _ 3 5) in Ha4 as [Hleft _]; [|lia..].
  apply isSquareUnderAttack_false in Ha5 as [Hoff5 Ha5].
  apply (rowAttack_false_rays _ _ _ 4 6) in Ha5 as [_ Hright5]; [|lia..].
  apply isSquareUnderAttack_false in Ha6 as [Hoff6 _].
  assert (ChessPiece.color rk ≠ Some byColor) as Hrkown.
  { rewrite Hrkc. intros Heq.
    apply (own_not_opponent (ChessPiece.color piece)). exact Heq. }
  assert (∀ c r' c', 0 <= c < 8 ->
            cell (kingTestBoard board row 4 piece row c) r' c'
            = if bool_decide ((row, 4) = (r', c')) then None
              else if bool_decide ((row, c) = (r', c')) then Some piece
              else cell board r' c') as Htb
    by (intros; apply cell_kingTestBoard; assumption || lia).
  split; apply isSquareUnderAttack_false; split.
  - rewrite <- Hoff5. apply offRowAttack_ext. intros r c Hr.
    rewrite Htb by lia. cell_cases.
  - apply (rowAttack_false_intro _ _ _ 4 6); [lia|lia|..].
    + unfold rayFuel.
      rewrite attackRay_empty_step; [|in_bounds|rewrite Htb by lia; cell_cases].
      rewrite Z.add_0_r. change (4 + -1) with 3.
      rewrite (attackRay_row_ext _ _ board); [|right; reflexivity|].
      * eapply attackRay_fuel_le_false; [|exact Hleft]. unfold rayFuel. lia.
      * intros c' _ Hc'. rewrite Htb by lia. cell_cases.
    + rewrite (attackRay_row_ext _ _ board); [exact Hright5|left; reflexivity|].
      intros c' Hc' _. rewrite Htb by lia. cell_cases.
    + rewrite Htb by lia. cell_cases.
    + rewrite Htb by lia. cell_cases. rewrite H6. reflexivity.
  - rewrite <- Hoff6. apply offRowAttack_ext. intros r c Hr.
    rewrite Htb by lia. cell_cases.
  - apply (rowAttack_false_intro _ _ _ 5 7); [lia|lia|..].
    + unfold rayFuel.
      rewrite attackRay_empty_step; [|in_bounds|rewrite Htb by lia; cell_cases].
      rewrite Z.add_0_r. change (5 + -1) with 4.
      rewrite attackRay_empty_step; [|in_bounds|rewrite Htb by lia; cell_cases].
      rewrite Z.add_0_r. change (4 + -1) with 3.
      rewrite (attackRay_row_ext _ _ board); [|right; reflexivity|].
      * eapply attackRay_fuel_le_false; [|exact Hleft]. unfold rayFuel. lia.
      * intros c' _ Hc'. rewrite Htb by lia. cell_cases.
    + eapply attackRay_blocked; [|exact Hrkown].
      rewrite Htb by lia. cell_cases.
    + rewrite Htb by lia. cell_cases. rewrite H5. reflexivity.
    + rewrite Htb by lia. cell_cases. rewrite Hrk.
      apply isPieceOf_other_color, Hrkown.
Qed.

(** Queenside: the same for d1 and c1. *)
Lemma queenside_path_safe :
  cell board row 3 = None -> cell board row 2 = None -> cell board row 1 = None ->
  isSquareUnderAttack board row 3 (opponentColorOf (ChessPiece.color piece))
  = false ->
  isSquareUnderAttack board row 2 (opponentColorOf (ChessPiece.color piece))
  = false ->
  isSquareUnderAttack (kingTestBoard board row 4 piece row 3) row 3
    (opponentColorOf (ChessPiece.color piece)) = false
  ∧ isSquareUnderAttack (kingTestBoard board row 4 piece row 2) row 2
      (opponentColorOf (ChessPiece.color piece)) = false.
Proof.
  intros H3 H2 H1 Ha3 Ha2. pose proof Hking4 as Ha4.
  set (byColor := opponentColorOf (ChessPiece.color piece)) in *.
  apply isSquareUnderAttack_false in Ha4 as [_ Ha4].
  apply (rowAttack_false_rays _ _ _ 3 5) in Ha4 as [_ Hright]; [|lia..].
  apply isSquareUnderAttack_false in Ha3 as [Hoff3 Ha3].
  apply (rowAttack_false_rays _ _ _ 2 4) in Ha3 as [Hleft3 _]; [|lia..].
  apply isSquareUnderAttack_false in Ha2 as [Hoff2 Ha2].
  apply (rowAttack_false_rays _ _ _ 1 3) in Ha2 as [Hleft2 _]; [|lia..].
  assert (∀ c r' c', 0 <= c < 8 ->
            cell (kingTestBoard board row 4 piece row c) r' c'
            = if bool_decide ((row, 4) = (r', c')) then None
              else if bool_decide ((row, c) = (r', c')) then Some piece
              else cell board r' c') as Htb
    by (intros; apply cell_kingTestBoard; assumption || lia).
  split; apply isSquareUnderAttack_false; split.
  - rewrite <- Hoff3. apply offRowAttack_ext. intros r c Hr.
    rewrite Htb by lia. cell_cases.
  - apply (rowAttack_false_intro _ _ _ 2 4); [lia|lia|..].
    + rewrite (attackRay_row_ext _ _ board); [exact Hleft3|right; reflexivity|].
      intros c' _ Hc'. rewrite Htb by lia. cell_cases.
    + unfold rayFuel.
      rewrite attackRay_empty_step; [|in_bounds|rewrite Htb by lia; cell_cases].
      rewrite Z.add_0_r. change (4 + 1) with 5.
      rewrite (attackRay_row_ext _ _ board); [|left; reflexivity|].
      * eapply attackRay_fuel_le_false; [|exact Hright]. unfold rayFuel. lia.
      * intros c' Hc' _. rewrite Htb by lia. cell_cases.
    + rewrite Htb by lia. cell_cases. rewrite H2. reflexivity.
    + rewrite Htb by lia. cell_cases.
  - rewrite <- Hoff2. apply offRowAttack_ext. intros r c Hr.
    rewrite Htb by lia. cell_cases.
  - apply (rowAttack_false_intro _ _ _ 1 3); [lia|lia|..].
    + rewrite (attackRay_row_ext _ _ board); [exact Hleft2|right; reflexivity|].
      intros c' _ Hc'. rewrite Htb by lia. cell_cases.
    + unfold rayFuel.
      rewrite attackRay_empty_step; [|in_bounds|rewrite Htb by lia; cell_cases].
      rewrite Z.add_0_r. change (3 + 1) with 4.
      rewrite attackRay_empty_step; [|in_bounds|rewrite Htb by lia; cell_cases].
      rewrite Z.add_0_r. change (4 + 1) with 5.
      rewrite (attackRay_row_ext _ _ board); [|left; reflexivity|].
      * eapply attackRay_fuel_le_false; [|exact Hright]. unfold rayFuel. lia.
      * intros c' Hc' _. rewrite Htb by lia. cell_cases.
    + rewrite Htb by lia. cell_cases. rewrite H1. reflexivity.
    + rewrite Htb by lia. cell_cases. rewrite H3. reflexivity.
Qed.

End CastlePath.

Lemma opponentColorOf_Some c : opponentColorOf (Some c) = opponent c.
Proof. destruct c; reflexivity. Qed.

Lemma homeRow_bounds c : 0 <= homeRow c < 8.
Proof. destruct c; simpl; lia. Qed.

Lemma homeRow_rookRow c :
  (if bool_decide (Some c = Some white) then 7 else 0) = homeRow c.
Proof. destruct c; reflexivity. Qed.

(** On the back rank [wouldBeInCheck] tests a castle on the board that
    [makeMove] builds, up to the [hasMoved] marks. *)
Lemma wouldBeInCheck_castle_home board c side piece rk :
  wfBoard board ->
  cell board (homeRow c) 4 = Some piece ->
  ChessPiece.color piece = Some c ->
  cell board (homeRow c) (rookColOf side) = Some rk ->
  wouldBeInCheck board
    (castleMove (homeRow c) 4 (homeRow c) (kingToCol side) side) (Some c)
  = isInCheck
      (applyMove board
         (castleMove (homeRow c) 4 (homeRow c) (kingToCol side) side) piece)
      (Some c).
Proof.
  intros Hwf Hpiece Hcolor Hrk. pose proof (homeRow_bounds c) as Hrow.
  assert (∀ p p' : ChessPiece,
            ChessPiece.type p = ChessPiece.type p' ->
            ChessPiece.color p = ChessPiece.color p' ->
            attackView (opponentColorOf (Some c)) (Some p)
            = attackView (opponentColorOf (Some c)) (Some p')
            ∧ isPieceOf king (Some c) (Some p) = isPieceOf king (Some c) (Some p'))
    as Hview.
  { intros p p' Ht Hc. unfold attackView, isPieceOf. rewrite Ht, Hc. split; reflexivity. }
  apply isInCheck_ext. intros r c'.
  unfold wouldBeInCheck, cloneBoard. rewrite homeRow_rookRow.
  destruct side; simpl in Hrk; simpl.
  - rewrite (cell_applyMove_kingside _ _ _ rk) by assumption.
    rewrite !cell_setCell by (solve_wf || lia).
    rewrite (bool_decide_eq_false_2 ((homeRow c, 4) = (homeRow c, 7))) by (intros [=]).
    rewrite (bool_decide_eq_false_2 ((homeRow c, 6) = (homeRow c, 7))) by (intros [=]).
    rewrite Hpiece, Hrk.
    repeat case_bool_decide; simplify_eq; try (split; reflexivity);
      apply Hview; reflexivity.
  - rewrite (cell_applyMove_queenside _ _ _ rk) by assumption.
    rewrite !cell_setCell by (solve_wf || lia).
    rewrite (bool_decide_eq_false_2 ((homeRow c, 4) = (homeRow c, 0))) by (intros [=]).
    rewrite (bool_decide_eq_false_2 ((homeRow c, 2) = (homeRow c, 0))) by (intros [=]).
    rewrite Hpiece, Hrk.
    repeat case_bool_decide; simplify_eq; try (split; reflexivity);
      apply Hview; reflexivity.
Qed.

Lemma isCastleRook_intro piece rk :
  ChessPiece.type rk = Some rook ->
  ChessPiece.color rk = ChessPiece.color piece ->
  truthy (ChessPiece.hasMoved rk) = false ->
  isCastleRook piece (Some rk) = true.
Proof.
  intros Ht Hc Hm. unfold isCastleRook. rewrite Hm.
  rewrite !bool_decide_eq_true_2 by assumption. reflexivity.
Qed.

Lemma castlePathOk_intro board row col piece through c :
  wfBoard board -> 0 <= row < 8 -> 0 <= c < 8 ->
  cell board row c = None ->
  (through c = true ->
   isSquareUnderAttack (kingTestBoard board row col piece row c) row c
     (opponentColorOf (ChessPiece.color piece)) = false) ->
  castlePathOk board row col piece through c = true.
Proof.
  intros Hwf Hrow Hc Hcell Hsafe. unfold castlePathOk.
  rewrite (cell_isNullAt _ _ _ Hwf Hrow Hc Hcell). simpl.
  destruct (through c); [|reflexivity]. rewrite Hsafe; reflexivity.
Qed.

(** With a single king of its color, "not in check" says that the king's
    square is not attacked. *)
Lemma not_in_check_king_square board c row col piece :
  0 <= row < 8 -> 0 <= col < 8 ->
  cell board row col = Some piece ->
  ChessPiece.type piece = Some king -> ChessPiece.color piece = Some c ->
  atMostOneKing board (Some c) ->
  isInCheck board (Some c) = false ->
  isSquareUnderAttack board row col (opponent c) = false.
Proof.
  intros Hrow Hcol Hpiece Htype Hcolor Hone Hcheck.
  assert (isPieceOf king (Some c) (cell board row col) = true) as Hking.
  { rewrite Hpiece. unfold isPieceOf.
    rewrite !bool_decide_eq_true_2 by assumption. reflexivity. }
  unfold isInCheck in Hcheck. rewrite (findKing_only board (Some c) row col) in Hcheck;
    try assumption.
  - rewrite opponentColorOf_Some in Hcheck. exact Hcheck.
  - intros r c' Hr Hc Hk.
    apply (atMostOneKing_unique board (Some c)); assumption.
Qed.

(** The castle is among the moves of [getKingMoves] once its tests pass. *)
Lemma getKingMoves_castle board row piece side :
  truthy (ChessPiece.hasMoved piece) = false ->
  isInCheck board (ChessPiece.color piece) = false ->
  match side with
  | kingside => kingsideGenerated board row 4 piece
                  (castleMove row 4 row 6 kingside)
  | queenside => queensideGenerated board row 4 piece
                   (castleMove row 4 row 2 queenside)
  end ->
  In (castleMove row 4 row (kingToCol side) side)
    (getKingMoves board row 4 piece []).
Proof.
  intros Hmoved Hcheck Hgen.
  destruct (getKingMoves_unfold board row 4 piece []) as (steps & _ & ->).
  rewrite Hmoved, Hcheck. change (4 + 2) with 6. change (4 - 2) with 2.
  cbn [negb andb Z.eqb Pos.eqb].
  destruct side.
  - destruct Hgen as (_ & _ & -> & H5 & H6). change (4 + 2) with 6 in *.
    cbn [forallb andb]. rewrite H5, H6. cbn [andb kingToCol].
    apply in_or_app. right. apply in_or_app. left. left. reflexivity.
  - destruct Hgen as (_ & _ & -> & H3 & H2 & H1). change (4 - 2) with 2 in *.
    cbn [forallb andb]. rewrite H3, H2, H1. cbn [andb kingToCol].
    apply in_or_app. right. apply in_or_app. right. left. reflexivity.
Qed.

(** C5. On a board of the data model, with the king of color [c] on column 4
    of its back rank and the rook of the chosen side both unmoved, the king
    not in check, the squares between them empty and the squares the king
    passes through (destination included) not attacked by the opponent,
    [getValidMoves] on the king's square includes the move flagged with that
    castle side, to column 6 (kingside) or 2 (queenside); [makeMove] applies
    it by moving the king there and the rook to the square beside it
    (column 5 or 3), both marked as moved, and leaves their old squares
    empty. *)
Theorem castling_generated_and_applied board c side piece rk :
  wfBoard board ->
  cell board (homeRow c) 4 = Some piece ->
  ChessPiece.type piece = Some king ->
  ChessPiece.color piece = Some c ->
  truthy (ChessPiece.hasMoved piece) = false ->
  cell board (homeRow c) (rookColOf side) = Some rk ->
  ChessPiece.type rk = Some rook ->
  ChessPiece.color rk = Some c ->
  truthy (ChessPiece.hasMoved rk) = false ->
  atMostOneKing board (Some c) ->
  isInCheck board (Some c) = false ->
  (∀ k, In k (betweenCols side) -> cell board (homeRow c) k = None) ->
  (∀ k, In k (transitCols side) ->
        isSquareUnderAttack board (homeRow c) k (opponent c) = false) ->
  let m := castleMove (homeRow c) 4 (homeRow c) (kingToCol side) side in
  In m (getValidMoves board (homeRow c) 4)
  ∧ ChessMove.isCastle m = Some side
  ∧ ∃ res newBoard,
      makeMove board m = Returned res
      ∧ MoveResult.valid res = true
      ∧ MoveResult.newBoard res = Some newBoard
      ∧ cell newBoard (homeRow c) (kingToCol side)
        = Some (ChessPiece.mk (Some king) (Some c) (Some true))
      ∧ cell newBoard (homeRow c) (rookToCol side)
        = Some (ChessPiece.mk (Some rook) (Some c) (Some true))
      ∧ cell newBoard (homeRow c) 4 = None
      ∧ cell newBoard (homeRow c) (rookColOf side) = None.
Proof.
  intros Hwf Hpiece Htype Hcolor Hmoved Hrk Hrkt Hrkc Hrkm Hone Hcheck
    Hbetween Htransit m.
  pose proof (homeRow_bounds c) as Hrow.
  set (row := homeRow c) in *.
  assert (ChessPiece.color rk = ChessPiece.color piece) as Hsame by congruence.
  assert (0 <= 4 < 8) as Hcol4 by lia.
  pose proof (not_in_check_king_square board c row 4 piece Hrow Hcol4 Hpiece
                Htype Hcolor Hone Hcheck) as Ha4.
  rewrite <- opponentColorOf_Some, <- Hcolor in Ha4.
  assert (∀ k, In k (transitCols side) ->
               isSquareUnderAttack board row k
                 (opponentColorOf (ChessPiece.color piece)) = false) as Htransit'.
  { intros k Hk. rewrite Hcolor, opponentColorOf_Some. apply Htransit, Hk. }
  assert (match side with
          | kingside => kingsideGenerated board row 4 piece
                          (castleMove row 4 row 6 kingside)
          | queenside => queensideGenerated board row 4 piece
                           (castleMove row 4 row 2 queenside)
          end) as Hgen.
  { destruct side; simpl in Hrk, Hbetween, Htransit'.
    - destruct (kingside_path_safe board row piece Hwf Hrow Ha4 rk)
        as [Hs5 Hs6];
        try assumption; try (apply Hbetween; tauto); try (apply Htransit'; tauto).
      unfold kingsideGenerated. rewrite Hrk.
      repeat split; try reflexivity;
        [apply isCastleRook_intro; assumption|..];
        (apply castlePathOk_intro;
         [assumption|assumption|lia|apply Hbetween; tauto|intros _; assumption]).
    - destruct (queenside_path_safe board row piece Hwf Hrow Ha4)
        as [Hs3 Hs2];
        try assumption; try (apply Hbetween; tauto); try (apply Htransit'; tauto).
      unfold queensideGenerated. rewrite Hrk.
      repeat split; try reflexivity;
        [apply isCastleRook_intro; assumption|..];
        (apply castlePathOk_intro;
         [assumption|assumption|lia|apply Hbetween; tauto
         |first [intros _; assumption|discriminate]]). }
  assert (isInCheck (applyMove board m piece) (Some c) = false) as Hsafe.
  { rewrite <- Hcolor. rewrite <- Hcolor in Hone. unfold m.
    destruct side.
    - apply (kingside_castle_safe board row piece); try assumption.
    - apply (queenside_castle_safe board row piece); try assumption. }
  split; [|split; [reflexivity|]].
  - unfold getValidMoves. rewrite Hpiece, Htype. apply filter_In. split.
    + apply getKingMoves_castle; [exact Hmoved|rewrite Hcolor; exact Hcheck|exact Hgen].
    + rewrite Hcolor. unfold m, row.
      rewrite (wouldBeInCheck_castle_home board c side piece rk) by assumption.
      fold row. fold m. rewrite Hsafe. reflexivity.
  - rewrite makeMove_returns;
      [|exact Hwf|unfold m, squareInBounds; simpl; lia
       |unfold m, squareInBounds; destruct side; simpl; lia].
    unfold sourcePiece. unfold m at 1 2. simpl. rewrite Hpiece.
    eexists _, _. split; [reflexivity|]. simpl.
    split; [reflexivity|]. split; [reflexivity|].
    assert (markMoved (Some piece) = ChessPiece.mk (Some king) (Some c) (Some true))
      as Hk' by (unfold markMoved; rewrite Htype, Hcolor; reflexivity).
    assert (markMoved (Some rk) = ChessPiece.mk (Some rook) (Some c) (Some true))
      as Hr' by (unfold markMoved; rewrite Hrkt, Hrkc; reflexivity).
    unfold m. destruct side; simpl in Hrk; simpl.
    + rewrite !(cell_applyMove_kingside _ _ _ rk) by assumption.
      rewrite Hk', Hr'. repeat split; cell_cases.
    + rewrite !(cell_applyMove_queenside _ _ _ rk) by assumption.
      rewrite Hk', Hr'. repeat split; cell_cases.
Qed.

Lemma valid_moves_keep_king_safe_witness :
  ∃ res newBoard,
    makeMove castleReady (castleMove 7 4 7 6 kingside) = Returned res
    ∧ MoveResult.valid res = true
    ∧ MoveResult.newBoard res = Some newBoard
    ∧ isInCheck newBoard (Some white) = false.
Proof.
  apply (valid_moves_keep_king_safe castleReady 7 4
           (ChessPiece.mk (Some king) (Some white) None)).
  - apply wfBoardb_spec. reflexivity.
  - lia.
  - lia.
  - reflexivity.
  - unfold atMostOneKing. vm_compute. lia.
  - vm_compute. tauto.
Defined.

(** The bound on kings is needed: with a second black king on h8, the castle
    of the black king on e5 is returned by [getValidMoves] (its test board
    shuffles the back rank, where the other king stands), and after
    [makeMove] black is in check. *)
Lemma second_king_breaks_legality :
  length (kingSquares twoBlackKings (Some black)) = 2%nat
  ∧ In (castleMove 3 4 3 6 kingside) (getValidMoves twoBlackKings 3 4)
  ∧ isInCheck
      (applyMove twoBlackKings (castleMove 3 4 3 6 kingside)
         (ChessPiece.mk (Some king) (Some black) None))
      (Some black) = true.
Proof.
  split; [reflexivity|]. split; [|reflexivity]. vm_compute. tauto.
Qed.

Lemma castling_generated_and_applied_witness :
  In (castleMove 7 4 7 6 kingside) (getValidMoves castleReady 7 4)
  ∧ ∃ res newBoard,
      makeMove castleReady (castleMove 7 4 7 6 kingside) = Returned res
      ∧ MoveResult.newBoard res = Some newBoard
      ∧ cell newBoard 7 6 = Some (ChessPiece.mk (Some king) (Some white) (Some true))
      ∧ cell newBoard 7 5 = Some (ChessPiece.mk (Some rook) (Some white) (Some true)).
Proof.
  destruct (castling_generated_and_applied castleReady white kingside
              (ChessPiece.mk (Some king) (Some white) None)
              (ChessPiece.mk (Some rook) (Some white) None))
    as (Hin & _ & res & newBoard & Hres & _ & Hnb & Hk & Hr & _).
  - apply wfBoardb_spec. reflexivity.
  - reflexivity.
  - reflexivity.
  - reflexivity.
  - reflexivity.
  - reflexivity.
  - reflexivity.
  - reflexivity.
  - reflexivity.
  - unfold atMostOneKing. vm_compute. lia.
  - reflexivity.
  - intros k Hk. simpl in Hk. destruct Hk as [<-|[<-|[]]]; reflexivity.
  - intros k Hk. simpl in Hk. destruct Hk as [<-|[<-|[]]]; reflexivity.
  - split; [exact Hin|]. exists res, newBoard. repeat split; assumption.
Defined.

(** ** Insufficient material *)

Lemma filter_negb_white_black (l : list ChessPiece) :
  Forall (fun p => is_Some (ChessPiece.type p) ∧ is_Some (ChessPiece.color p)) l ->
  List.filter (fun p => negb (isWhitePiece p)) l = List.filter (hasColor black) l.
Proof.
  induction 1 as [|p l [_ [c Hc]] _ IH]; [reflexivity|]. simpl. rewrite IH.
  unfold isWhitePiece, hasColor. rewrite Hc. destruct c; reflexivity.
Qed.

Lemma Forall_filter_typed (f : ChessPiece -> bool) (l : list ChessPiece) :
  Forall (fun p => is_Some (ChessPiece.type p) ∧ is_Some (ChessPiece.color p)) l ->
  Forall (fun p => is_Some (ChessPiece.type p)) (List.filter f l).
Proof.
  induction 1 as [|p l [Hp _] _ IH]; [constructor|]. simpl.
  destruct (f p); [constructor; assumption|assumption].
Qed.

(** Kings and other pieces make up the list. *)
Lemma nonKings_length (l : list ChessPiece) :
  Forall (fun p => is_Some (ChessPiece.type p)) l ->
  (length (omap nonKingType l) + length (List.filter (hasType king) l)
   = length l)%nat.
Proof.
  unfold omap. induction 1 as [|p l [t Ht] _ IH]; [reflexivity|].
  simpl. unfold nonKingType at 1, hasType at 1. rewrite Ht.
  destruct t; simpl; lia.
Qed.

(** The three shapes of the pieces of one color with exactly one king: the
    lone king; the king and one other piece, which the searches of
    [isDrawByInsufficientMaterial] find; or more. *)
Lemma one_king_shape (l : list ChessPiece) :
  Forall (fun p => is_Some (ChessPiece.type p)) l ->
  length (List.filter (hasType king) l) = 1%nat ->
  (length l = 1%nat ∧ omap nonKingType l = [])
  ∨ (∃ t : PieceType,
       length l = 2%nat
       ∧ omap nonKingType l = [t]
       ∧ (match List.find (fun p => negb (hasType king p)) l with
          | Some second => hasType bishop second || hasType knight second
          | None => false
          end = bool_decide (t = bishop ∨ t = knight))
       ∧ (match List.find (hasType bishop) l with
          | Some _ => true
          | None => false
          end = bool_decide (t = bishop)))
  ∨ ((3 <= length l)%nat ∧ (2 <= length (omap nonKingType l))%nat).
Proof.
  intros Htyped Hking.
  destruct l as [|a [|b [|c l]]].
  - discriminate.
  - left. split; [reflexivity|].
    inversion Htyped as [|? ? [ta Hta] _]; subst.
    destruct a as [oa ca ha]. simpl in Hta. subst oa.
    revert Hking. destruct ta; vm_compute; try discriminate. reflexivity.
  - right. left.
    inversion Htyped as [|? ? [ta Hta] Hrest]; subst.
    inversion Hrest as [|? ? [tb Htb] _]; subst.
    destruct a as [oa ca ha], b as [ob cb hb]. simpl in Hta, Htb. subst oa ob.
    revert Hking. destruct ta, tb; vm_compute; try discriminate; intros _;
      eexists; (split; [reflexivity|]); (split; [reflexivity|]);
      split; reflexivity.
  - right. right. split; [simpl; lia|].
    pose proof (nonKings_length _ Htyped) as Hlen. unfold omap in *. simpl in *. lia.
Qed.

Lemma material_unfold board c :
  material board c = omap nonKingType (List.filter (hasColor c) (piecesOf board)).
Proof. reflexivity. Qed.

(** C6. On a board with exactly one king of each color (and pieces that all
    have a type and a color), [isDrawByInsufficientMaterial] returns true
    exactly for king against king, king and one bishop or knight against a
    lone king, and king and bishop against king and bishop, whatever the
    squares of the bishops; every other material returns false. *)
Theorem insufficient_material_iff board :
  typedBoard board ->
  countKings board white = 1%nat ->
  countKings board black = 1%nat ->
  isDrawByInsufficientMaterial board = true <-> insufficientMaterial board.
Proof.
  unfold typedBoard, countKings, isDrawByInsufficientMaterial, insufficientMaterial.
  rewrite !material_unfold. cbv zeta.
  generalize (piecesOf board). intros l Htyped Hkw Hkb.
  rewrite (filter_negb_white_black l Htyped).
  change (List.filter isWhitePiece l) with (List.filter (hasColor white) l).
  pose proof (Forall_filter_typed (hasColor white) l Htyped) as Htw.
  pose proof (Forall_filter_typed (hasColor black) l Htyped) as Htb.
  destruct (one_king_shape _ Htw Hkw)
    as [[Hlw Hmw]|[(tw & Hlw & Hmw & Hsw & Hbw)|[Hlw Hmw]]];
    destruct (one_king_shape _ Htb Hkb)
      as [[Hlb Hmb]|[(tb & Hlb & Hmb & Hsb & Hbb)|[Hlb Hmb]]];
    revert Hmw Hmb;
    generalize (omap nonKingType (List.filter (hasColor white) l));
    generalize (omap nonKingType (List.filter (hasColor black) l));
    intros mb mw Hmw Hmb.
  - rewrite Hlw, Hlb. subst. simpl. split; [left; split; reflexivity|reflexivity].
  - rewrite Hlw, Hlb. cbn [Nat.eqb Nat.ltb Nat.leb andb orb]. rewrite Hsb.
    subst. rewrite bool_decide_eq_true. split.
    + intros [->| ->]; right; right; left; (split; [reflexivity|]); [left|right];
        reflexivity.
    + intros [[_ [=]]|[[_ [=]]|[[_ [[=]|[=]]]|[[=] _]]]]; subst; tauto.
  - subst. split.
    + intros H. exfalso. revert H.
      destruct (length (List.filter (hasColor black) l)) as [|[|[|n]]];
        try lia; rewrite Hlw; simpl; discriminate.
    + intros [[_ ->]|[[_ ->]|[[_ [->| ->]]|[_ ->]]]]; simpl in Hmb; lia.
  - rewrite Hlw, Hlb. cbn [Nat.eqb Nat.ltb Nat.leb andb orb]. rewrite Hsw.
    subst. rewrite bool_decide_eq_true. split.
    + intros [->| ->]; right; left; (split; [|reflexivity]); [left|right];
        reflexivity.
    + intros [[[=] _]|[[[[=]|[=]] _]|[[[=] _]|[_ [=]]]]]; subst; tauto.
  - rewrite Hlw, Hlb. cbn [Nat.eqb Nat.ltb Nat.leb andb orb].
    assert (∀ o : option ChessPiece,
              match o with Some _ => true | None => false end
              = bool_decide (is_Some o)) as Hopt
      by (intros [p|]; [rewrite bool_decide_eq_true_2 by eauto
                       |rewrite bool_decide_eq_false_2 by (intros [? ?]; discriminate)];
          reflexivity).
    destruct (List.find (hasType bishop) (List.filter (hasColor white) l)) as [pw|];
      destruct (List.find (hasType bishop) (List.filter (hasColor black) l)) as [pb|];
      symmetry in Hbw, Hbb;
      try apply bool_decide_eq_true in Hbw; try apply bool_decide_eq_true in Hbb;
      try apply bool_decide_eq_false in Hbw; try apply bool_decide_eq_false in Hbb;
      subst; split; try discriminate; try tauto;
      try (intros _; right; right; right; split; reflexivity);
      intros [[[=] _]|[[_ [=]]|[[[=] _]|[[=] [=]]]]]; subst; tauto.
  - subst. split.
    + intros H. exfalso. revert H.
      destruct (length (List.filter (hasColor black) l)) as [|[|[|n]]];
        try lia; rewrite Hlw; simpl; discriminate.
    + intros [[_ ->]|[[_ ->]|[[[=] _]|[_ ->]]]]; simpl in Hmb; lia.
  - subst. split.
    + intros H. exfalso. revert H.
      destruct (length (List.filter (hasColor white) l)) as [|[|[|n]]];
        try lia; rewrite Hlb; simpl; discriminate.
    + intros [[-> _]|[[[->| ->] _]|[[-> _]|[-> _]]]]; simpl in Hmw; lia.
  - subst. split.
    + intros H. exfalso. revert H.
      destruct (length (List.filter (hasColor white) l)) as [|[|[|n]]];
        try lia; rewrite Hlb; simpl; discriminate.
    + intros [[-> _]|[[[->| ->] _]|[[-> _]|[-> _]]]]; simpl in Hmw; lia.
  - split.
    + intros H. exfalso. revert H.
      destruct (length (List.filter (hasColor white) l)) as [|[|[|n]]];
        try lia; simpl; discriminate.
    + intros [[-> _]|[[[->| ->] _]|[[-> _]|[-> _]]]]; simpl in Hmw; lia.
Qed.

Lemma insufficient_material_iff_witness : insufficientMaterial bishopsEach.
Proof.
  apply (insufficient_material_iff bishopsEach).
  - unfold typedBoard.
    let l := eval vm_compute in (piecesOf bishopsEach) in
    change (piecesOf bishopsEach) with l.
    repeat constructor; eexists; reflexivity.
  - reflexivity.
  - reflexivity.
  - reflexivity.
Defined.

(** King and knight against king and knight is not flagged. *)
Example knights_each_not_flagged :
  isDrawByInsufficientMaterial knightsEach = false.
Proof. reflexivity. Qed.

(** ** The loops leave the board within their fuel *)

Lemma slide_fuel_enough n k board row col piece r c dr dc moves :
  (k < n)%nat ->
  inBounds (r + Z.of_nat k * dr) (c + Z.of_nat k * dc) = false ->
  slide (S n) board row col piece r c dr dc moves
  = slide n board row col piece r c dr dc moves.
Proof.
  revert k r c moves. induction n as [|n IH]; intros k r c moves Hk Hout; [lia|].
  destruct k as [|k].
  - simpl in Hout. rewrite !Z.add_0_r in Hout. simpl. rewrite Hout. reflexivity.
  - change (slide (S (S n)) board row col piece r c dr dc moves)
      with (if inBounds r c then
              match cell board r c with
              | None =>
                  slide (S n) board row col piece (r + dr) (c + dc) dr dc
                    (moves ++ [plainMove row col r c])
              | Some target =>
                  if otherColor target piece
                  then moves ++ [captureMove row col r c true]
                  else moves
              end
            else moves).
    rewrite (IH k (r + dr) (c + dc)); [reflexivity|lia|].
    replace (r + dr + Z.of_nat k * dr) with (r + Z.of_nat (S k) * dr) by lia.
    replace (c + dc + Z.of_nat k * dc) with (c + Z.of_nat (S k) * dc) by lia.
    exact Hout.
Qed.

Lemma slide_rayFuel_enough n board row col piece dr dc moves :
  0 <= row < 8 -> 0 <= col < 8 -> In (dr, dc) directions ->
  slide (rayFuel + n) board row col piece (row + dr) (col + dc) dr dc moves
  = slide rayFuel board row col piece (row + dr) (col + dc) dr dc moves.
Proof.
  intros Hr Hc Hd. induction n as [|n IH].
  - rewrite Nat.add_0_r. reflexivity.
  - rewrite <- IH. replace (rayFuel + S n)%nat with (S (rayFuel + n)) by lia.
    apply (slide_fuel_enough _ 7%nat); [unfold rayFuel; lia|].
    apply inBounds_false. simpl in Hd.
    repeat destruct Hd as [[= <- <-]|Hd]; try lia; destruct Hd.
Qed.

(** ** What the pawn block of [isSquareUnderAttack] reports *)

(** A pawn of the attacking color on a diagonal square at row - 1 for white
    (row + 1 for black) is reported: the side the pawn moves away from. *)
Lemma pawn_in_front_reported board r c byColor c' :
  0 <= r < 8 -> 0 <= c < 8 -> 0 <= c' < 8 -> (c' = c - 1 ∨ c' = c + 1) ->
  let pawnRow := match byColor with white => r - 1 | black => r + 1 end in
  0 <= pawnRow < 8 ->
  isPieceOf pawn (Some byColor) (cell board pawnRow c') = true ->
  isSquareUnderAttack board r c byColor = true.
Proof.
  intros Hr Hc Hc' Hside pawnRow Hrow Hpawn.
  unfold isSquareUnderAttack, pawnAttack. cbv zeta.
  replace (r - match byColor with white => 1 | black => -1 end) with pawnRow
    by (unfold pawnRow; destruct byColor; lia).
  destruct Hside as [->| ->]; rewrite Hpawn.
  - replace (0 <=? pawnRow) with true by (symmetry; apply Z.leb_le; lia).
    replace (pawnRow <? 8) with true by (symmetry; apply Z.ltb_lt; lia).
    replace (0 <=? c - 1) with true by (symmetry; apply Z.leb_le; lia).
    reflexivity.
  - replace (0 <=? pawnRow) with true by (symmetry; apply Z.leb_le; lia).
    replace (pawnRow <? 8) with true by (symmetry; apply Z.ltb_lt; lia).
    replace (c + 1 <? 8) with true by (symmetry; apply Z.ltb_lt; lia).
    rewrite !andb_true_r, orb_true_r. reflexivity.
Qed.

(** ** What [isSquareUnderAttack] computes *)

Lemma isPieceOf_true t c o :
  isPieceOf t c o = true
  <-> ∃ p, o = Some p ∧ ChessPiece.type p = Some t ∧ ChessPiece.color p = c.
Proof.
  unfold isPieceOf. destruct o as [p|].
  - rewrite andb_true_iff, !bool_decide_eq_true. split.
    + intros [Ht Hc]. exists p. auto.
    + intros (p' & [= <-] & Ht & Hc). auto.
  - split; [discriminate|]. intros (p & [=] & _).
Qed.

(** The type test of the sliding loop, as a proposition. *)
Lemma sliderFor_spec dr dc piece :
  dr ≠ 0 ∨ dc ≠ 0 ->
  (negb (dr =? 0) && negb (dc =? 0)
   && (bool_decide (ChessPiece.type piece = Some bishop)
       || bool_decide (ChessPiece.type piece = Some queen))
   || ((dr =? 0) || (dc =? 0))
      && (bool_decide (ChessPiece.type piece = Some rook)
          || bool_decide (ChessPiece.type piece = Some queen))) = true
  <-> sliderFor dr dc (ChessPiece.type piece).
Proof.
  intros Hd. unfold sliderFor.
  destruct (Z.eqb_spec dr 0) as [Hdr|Hdr], (Z.eqb_spec dc 0) as [Hdc|Hdc];
    cbn [negb andb orb]; rewrite ?orb_false_r;
    rewrite ?orb_true_iff, ?bool_decide_eq_true; tauto.
Qed.

(** The sliding loop returns true exactly when the first piece on the line,
    reached within the fuel, is of the attacking color and of a type that
    moves along the line. *)
Lemma attackRay_true n board r c dr dc byColor :
  dr ≠ 0 ∨ dc ≠ 0 ->
  attackRay n board r c dr dc byColor = true
  <-> ∃ (k : nat) p,
        (k < n)%nat
        ∧ (∀ j : nat, (j < k)%nat ->
             inBounds (r + Z.of_nat j * dr) (c + Z.of_nat j * dc) = true
             ∧ cell board (r + Z.of_nat j * dr) (c + Z.of_nat j * dc) = None)
        ∧ inBounds (r + Z.of_nat k * dr) (c + Z.of_nat k * dc) = true
        ∧ cell board (r + Z.of_nat k * dr) (c + Z.of_nat k * dc) = Some p
        ∧ ChessPiece.color p = Some byColor
        ∧ sliderFor dr dc (ChessPiece.type p).
Proof.
  intros Hd. revert r c. induction n as [|n IH]; intros r c.
  { split; [discriminate|]. intros (k & _ & Hk & _). lia. }
  assert (∀ j : nat, r + Z.of_nat (S j) * dr = r + dr + Z.of_nat j * dr) as Hr
    by (intros; lia).
  assert (∀ j : nat, c + Z.of_nat (S j) * dc = c + dc + Z.of_nat j * dc) as Hc
    by (intros; lia).
  assert (r + Z.of_nat 0 * dr = r) as Hr0 by lia.
  assert (c + Z.of_nat 0 * dc = c) as Hc0 by lia.
  simpl. destruct (inBounds r c) eqn:Hin.
  - destruct (cell board r c) as [piece|] eqn:Hcell.
    + rewrite andb_true_iff, bool_decide_eq_true, (sliderFor_spec _ _ _ Hd).
      split.
      * intros [Hcol Ht]. exists 0%nat, piece. rewrite Hr0, Hc0.
        split; [lia|]. split; [intros j Hj; lia|]. auto.
      * intros (k & p & _ & Hopen & _ & Hp & Hcol & Ht).
        destruct k as [|k].
        -- rewrite Hr0, Hc0, Hcell in Hp. injection Hp as <-. auto.
        -- destruct (Hopen 0%nat ltac:(lia)) as [_ H0].
           rewrite Hr0, Hc0 in H0. congruence.
    + rewrite IH. split.
      * intros (k & p & Hk & Hopen & Hkin & Hp & Hcol & Ht).
        exists (S k), p. rewrite Hr, Hc.
        split; [lia|]. split; [|auto].
        intros [|j] Hj; [rewrite Hr0, Hc0; auto|].
        rewrite Hr, Hc. apply Hopen. lia.
      * intros (k & p & Hk & Hopen & Hkin & Hp & Hcol & Ht).
        destruct k as [|k]; [rewrite Hr0, Hc0 in Hp; congruence|].
        exists k, p. rewrite <- Hr, <- Hc.
        split; [lia|]. split; [|auto].
        intros j Hj. rewrite <- Hr, <- Hc. apply Hopen. lia.
  - split; [discriminate|].
    intros (k & p & _ & Hopen & Hkin & _).
    destruct k as [|k]; [rewrite Hr0, Hc0 in Hkin; congruence|].
    destruct (Hopen 0%nat ltac:(lia)) as [H0 _].
    rewrite Hr0, Hc0 in H0. congruence.
Qed.

Ltac split_direction Hd :=
  simpl in Hd; repeat destruct Hd as [[= <- <-]|Hd]; try destruct Hd.

Lemma slidingAttack_true board r c byColor :
  0 <= r < 8 -> 0 <= c < 8 ->
  slidingAttack board r c byColor = true
  <-> ∃ dr dc k p,
        In (dr, dc) directions ∧ 1 <= k
        ∧ 0 <= r + k * dr < 8 ∧ 0 <= c + k * dc < 8
        ∧ cell board (r + k * dr) (c + k * dc) = Some p
        ∧ ChessPiece.color p = Some byColor
        ∧ openLine board r c dr dc k
        ∧ sliderFor dr dc (ChessPiece.type p).
Proof.
  intros Hr Hc. unfold slidingAttack. rewrite existsb_exists. split.
  - intros ([dr dc] & Hd & Hray).
    assert (dr ≠ 0 ∨ dc ≠ 0) as Hnz by (split_direction Hd; lia).
    apply (attackRay_true _ _ _ _ _ _ _ Hnz) in Hray
      as (k & p & _ & Hopen & Hin & Hp & Hcol & Ht).
    exists dr, dc, (Z.of_nat k + 1), p.
    replace (r + (Z.of_nat k + 1) * dr) with (r + dr + Z.of_nat k * dr) by ring.
    replace (c + (Z.of_nat k + 1) * dc) with (c + dc + Z.of_nat k * dc) by ring.
    apply inBounds_spec in Hin.
    repeat (split; [assumption || lia|]). split; [|exact Ht].
    intros j Hj. destruct (Hopen (Z.to_nat (j - 1)) ltac:(lia)) as [_ Hnone].
    rewrite Z2Nat.id in Hnone by lia.
    replace (r + dr + (j - 1) * dr) with (r + j * dr) in Hnone by ring.
    replace (c + dc + (j - 1) * dc) with (c + j * dc) in Hnone by ring.
    exact Hnone.
  - intros (dr & dc & k & p & Hd & Hk & Hrk & Hck & Hp & Hcol & Hopen & Ht).
    exists (dr, dc). split; [exact Hd|].
    assert (dr ≠ 0 ∨ dc ≠ 0) as Hnz by (split_direction Hd; lia).
    apply (attackRay_true _ _ _ _ _ _ _ Hnz).
    exists (Z.to_nat (k - 1)), p.
    rewrite Z2Nat.id by lia.
    replace (r + dr + (k - 1) * dr) with (r + k * dr) by ring.
    replace (c + dc + (k - 1) * dc) with (c + k * dc) by ring.
    split; [unfold rayFuel; split_direction Hd; lia|].
    split; [|split; [apply inBounds_spec; split; assumption|auto]].
    intros j Hj.
    replace (r + dr + Z.of_nat j * dr) with (r + (Z.of_nat j + 1) * dr) by ring.
    replace (c + dc + Z.of_nat j * dc) with (c + (Z.of_nat j + 1) * dc) by ring.
    split; [|apply Hopen; lia].
    apply inBounds_spec. split_direction Hd; lia.
Qed.

Lemma offsetAttack_true (t : PieceType) offsets board r c byColor :
  existsb (fun '(dr, dc) =>
    inBounds (r + dr) (c + dc)
    && isPieceOf t (Some byColor) (cell board (r + dr) (c + dc))) offsets = true
  <-> ∃ r' c' p,
        In (r' - r, c' - c) offsets
        ∧ 0 <= r' < 8 ∧ 0 <= c' < 8
        ∧ cell board r' c' = Some p
        ∧ ChessPiece.type p = Some t
        ∧ ChessPiece.color p = Some byColor.
Proof.
  rewrite existsb_exists. split.
  - intros ([dr dc] & Hd & H). apply andb_true_iff in H as [Hin Hp].
    apply inBounds_spec in Hin as [Hr' Hc'].
    apply isPieceOf_true in Hp as (p & Hp & Ht & Hcol).
    exists (r + dr), (c + dc), p.
    replace (r + dr - r) with dr by lia. replace (c + dc - c) with dc by lia.
    auto 7.
  - intros (r' & c' & p & Hd & Hr' & Hc' & Hp & Ht & Hcol).
    exists (r' - r, c' - c). split; [exact Hd|].
    replace (r + (r' - r)) with r' by lia. replace (c + (c' - c)) with c' by lia.
    apply andb_true_iff. split; [apply inBounds_spec; auto|].
    apply isPieceOf_true. exists p. auto.
Qed.

Lemma pawnAttack_true board r c byColor :
  0 <= r < 8 -> 0 <= c < 8 ->
  pawnAttack board r c byColor = true
  <-> ∃ c' p,
        (c' = c - 1 ∨ c' = c + 1)
        ∧ 0 <= r - pawnDirectionOf byColor < 8 ∧ 0 <= c' < 8
        ∧ cell board (r - pawnDirectionOf byColor) c' = Some p
        ∧ ChessPiece.type p = Some pawn
        ∧ ChessPiece.color p = Some byColor.
Proof.
  intros Hr Hc. unfold pawnAttack. cbv zeta.
  change (match byColor with white => 1 | black => -1 end)
    with (pawnDirectionOf byColor).
  rewrite !andb_true_iff, orb_true_iff, !andb_true_iff, !isPieceOf_true.
  rewrite !Z.leb_le, !Z.ltb_lt. split.
  - intros [[Hlo Hhi] [[Hc' (p & Hp & Ht & Hcol)]|[Hc' (p & Hp & Ht & Hcol)]]].
    + exists (c - 1), p. repeat split; auto; lia.
    + exists (c + 1), p. repeat split; auto; lia.
  - intros (c' & p & [->| ->] & Hrow & Hc' & Hp & Ht & Hcol).
    + split; [lia|]. left. split; [lia|]. exists p. auto.
    + split; [lia|]. right. split; [lia|]. exists p. auto.
Qed.

(** X1. For a target square of the board, [isSquareUnderAttack] returns true
    exactly when some square of the board holds a piece of the attacking
    color that is a pawn diagonally on the row [row - pawnDirection], a
    knight a knight's jump away, a king one step away, or a queen, bishop or
    rook that is the first piece on its line from the target. *)
Theorem isSquareUnderAttack_iff_attacker board r c byColor :
  0 <= r < 8 -> 0 <= c < 8 ->
  isSquareUnderAttack board r c byColor = true
  <-> ∃ r' c', attackedFrom board byColor r c r' c'.
Proof.
  intros Hr Hc. unfold isSquareUnderAttack, knightAttack, kingAttack, attackedFrom.
  rewrite !orb_true_iff, (pawnAttack_true _ _ _ _ Hr Hc),
    (slidingAttack_true _ _ _ _ Hr Hc), !offsetAttack_true.
  split.
  - intros [[[(c' & p & Hside & Hrow & Hc' & Hp & Ht & Hcol)
             |(r' & c' & p & Hd & Hr' & Hc' & Hp & Ht & Hcol)]
            |(dr & dc & k & p & Hd & Hk & Hrk & Hck & Hp & Hcol & Hopen & Ht)]
           |(r' & c' & p & Hd & Hr' & Hc' & Hp & Ht & Hcol)].
    + exists (r - pawnDirectionOf byColor), c', p. auto 10.
    + exists r', c', p. auto 10.
    + exists (r + k * dr), (c + k * dc), p.
      repeat (split; [assumption|]). right. right. right.
      exists dr, dc, k. auto 10.
    + exists r', c', p. auto 10.
  - intros (r' & c' & p & Hp & Hcol & Hr' & Hc'
            & [(Ht & -> & Hside)|[(Ht & Hd)|[(Ht & Hd)
              |(dr & dc & k & Hd & Hk & -> & -> & Hopen & Ht)]]]).
    + left. left. left. exists c', p. auto 10.
    + left. left. right. exists r', c', p. auto 10.
    + right. exists r', c', p. auto 10.
    + left. right. exists dr, dc, k, p. auto 10.
Qed.

Lemma isSquareUnderAttack_iff_attacker_witness :
  ∃ r' c', attackedFrom attackersAround black 4 4 r' c'.
Proof.
  apply (proj1 (isSquareUnderAttack_iff_attacker attackersAround 4 4 black
                  ltac:(lia) ltac:(lia))).
  reflexivity.
Defined.

(** X2. Whether a square of the board is attacked does not depend on what
    stands on that square: writing any cell there leaves the answer of
    [isSquareUnderAttack] unchanged. *)
Theorem isSquareUnderAttack_ignores_target board r c v byColor :
  wfBoard board -> 0 <= r < 8 -> 0 <= c < 8 ->
  isSquareUnderAttack (setCell board r c v) r c byColor
  = isSquareUnderAttack board r c byColor.
Proof.
  intros Hwf Hr Hc. rewrite !isSquareUnderAttack_split. f_equal.
  - apply offRowAttack_ext. intros r' c' Hr'.
    rewrite cell_setCell_inside; [reflexivity|assumption..|congruence].
  - unfold rowAttack. rewrite !Z.add_0_r.
    rewrite (attackRay_row_ext _ (setCell board r c v) board r (c + -1));
      [|right; reflexivity
       |intros c' _ Hc'; apply cell_setCell_inside; try assumption;
        intros [=]; lia].
    rewrite (attackRay_row_ext _ (setCell board r c v) board r (c + 1));
      [|left; reflexivity
       |intros c' Hc' _; apply cell_setCell_inside; try assumption;
        intros [=]; lia].
    rewrite !(cell_setCell_inside board r c v r) by
      (assumption || (intros [=]; lia)).
    reflexivity.
Qed.

Lemma isSquareUnderAttack_ignores_target_witness :
  isSquareUnderAttack (place attackersAround 4 4 queen white) 4 4 black
  = isSquareUnderAttack attackersAround 4 4 black.
Proof.
  apply (isSquareUnderAttack_ignores_target attackersAround 4 4).
  - apply wfBoardb_spec. reflexivity.
  - lia.
  - lia.
Defined.

(** ** What the generators return *)

Lemma fold_left_flat_map {A B} (f : list A -> B -> list A) (g : B -> list A) :
  (∀ acc x, f acc x = acc ++ g x) ->
  ∀ l acc, fold_left f l acc = acc ++ flat_map g l.
Proof.
  intros Hf. induction l as [|x l IH]; intros acc; simpl.
  - rewrite app_nil_r. reflexivity.
  - rewrite IH, Hf, <- app_assoc. reflexivity.
Qed.

Lemma getKnightMoves_eq board row col piece moves :
  getKnightMoves board row col piece moves
  = moves ++ flat_map (knightStep board row col piece) knightOffsets.
Proof.
  unfold getKnightMoves. apply fold_left_flat_map. intros acc [dr dc].
  unfold knightStep. destruct (inBounds _ _); [|rewrite app_nil_r; reflexivity].
  destruct (cell board _ _) as [target|]; [|reflexivity].
  destruct (otherColor target piece); [reflexivity|rewrite app_nil_r; reflexivity].
Qed.

Lemma otherColor_true target piece :
  otherColor target piece = true
  <-> ChessPiece.color target ≠ ChessPiece.color piece.
Proof. unfold otherColor. rewrite negb_true_iff, bool_decide_eq_false. tauto. Qed.

Lemma In_knightStep board row col piece dr dc m :
  In m (knightStep board row col piece (dr, dc))
  <-> 0 <= row + dr < 8 ∧ 0 <= col + dc < 8
      ∧ canLandOn board piece (row + dr) (col + dc)
      ∧ m = captureMove row col (row + dr) (col + dc)
              (occupied board (row + dr) (col + dc)).
Proof.
  unfold knightStep, canLandOn, occupied.
  destruct (inBounds (row + dr) (col + dc)) eqn:Hin.
  - apply inBounds_spec in Hin as [Hr Hc].
    destruct (cell board (row + dr) (col + dc)) as [target|] eqn:Hcell.
    + rewrite bool_decide_eq_true_2 by eauto.
      destruct (otherColor target piece) eqn:Hother.
      * apply otherColor_true in Hother. simpl. split.
        -- intros [<-|[]]. repeat split; try lia. intros t [= <-]. exact Hother.
        -- intros (_ & _ & _ & ->). left. reflexivity.
      * split; [intros []|]. intros (_ & _ & Hland & _).
        apply (otherColor_true target piece) in Hland; [congruence|reflexivity].
    + rewrite bool_decide_eq_false_2 by (intros [? ?]; discriminate).
      simpl. split.
      * intros [<-|[]]. repeat split; try lia. intros t [=].
      * intros (_ & _ & _ & ->). left. reflexivity.
  - apply inBounds_false in Hin. split; [intros []|]. intros (Hr & Hc & _). tauto.
Qed.

(** The filter of [getValidMoves], for a piece of a known type. *)
Lemma In_getValidMoves board row col piece m :
  cell board row col = Some piece ->
  In m (getValidMoves board row col)
  <-> In m (match ChessPiece.type piece with
            | Some pawn => getPawnMoves board row col piece []
            | Some knight => getKnightMoves board row col piece []
            | Some bishop => getBishopMoves board row col piece []
            | Some rook => getRookMoves board row col piece []
            | Some queen => getQueenMoves board row col piece []
            | Some king => getKingMoves board row col piece []
            | None => []
            end)
      ∧ wouldBeInCheck board m (ChessPiece.color piece) = false.
Proof.
  intros Hpiece. unfold getValidMoves. rewrite Hpiece, filter_In, negb_true_iff.
  reflexivity.
Qed.

(** X3. The moves [getValidMoves] returns for a knight are exactly the jumps
    by one of the eight knight offsets onto a square of the board that is
    empty or holds a piece of another color, for which [wouldBeInCheck] is
    false; each carries [isCapture] set to whether the destination is
    occupied. *)
Theorem knight_moves_iff board row col piece m :
  cell board row col = Some piece ->
  ChessPiece.type piece = Some knight ->
  In m (getValidMoves board row col)
  <-> ∃ dr dc,
        In (dr, dc) knightOffsets
        ∧ 0 <= row + dr < 8 ∧ 0 <= col + dc < 8
        ∧ canLandOn board piece (row + dr) (col + dc)
        ∧ m = captureMove row col (row + dr) (col + dc)
                (occupied board (row + dr) (col + dc))
        ∧ wouldBeInCheck board m (ChessPiece.color piece) = false.
Proof.
  intros Hpiece Hknight. rewrite (In_getValidMoves _ _ _ _ _ Hpiece), Hknight.
  rewrite getKnightMoves_eq, app_nil_l, in_flat_map. split.
  - intros [([dr dc] & Hd & Hstep) Hsafe]. apply In_knightStep in Hstep.
    exists dr, dc. tauto.
  - intros (dr & dc & Hd & Hr & Hc & Hland & Hm & Hsafe). split; [|exact Hsafe].
    exists (dr, dc). split; [exact Hd|]. apply In_knightStep. auto.
Qed.

Lemma knight_moves_iff_witness :
  In (captureMove 7 1 5 2 false) (getValidMoves initialBoard 7 1).
Proof.
  apply (proj2 (knight_moves_iff initialBoard 7 1
                  (ChessPiece.mk (Some knight) (Some white) None)
                  (captureMove 7 1 5 2 false) eq_refl eq_refl)).
  exists (-2), 1. repeat split; try (simpl; lia); try reflexivity.
  - simpl. tauto.
  - intros target H. discriminate H.
Defined.

(** *** Sliding pieces *)

Lemma slide_app fuel board row col piece r c dr dc moves :
  slide fuel board row col piece r c dr dc moves
  = moves ++ slide fuel board row col piece r c dr dc [].
Proof.
  revert r c moves. induction fuel as [|fuel IH]; intros r c moves; simpl.
  - rewrite app_nil_r. reflexivity.
  - destruct (inBounds r c); [|rewrite app_nil_r; reflexivity].
    destruct (cell board r c) as [target|].
    + destruct (otherColor target piece); [reflexivity|rewrite app_nil_r; reflexivity].
    + change ([] ++ [plainMove row col r c]) with [plainMove row col r c].
      rewrite (IH _ _ (moves ++ _)), (IH _ _ [_]), <- app_assoc. reflexivity.
Qed.

(** The moves of one sliding loop: the squares of the line up to and with the
    first piece, when that piece has another color. *)
Lemma In_slide fuel board row col piece r c dr dc m :
  In m (slide fuel board row col piece r c dr dc [])
  <-> ∃ k : nat,
        (k < fuel)%nat
        ∧ (∀ j : nat, (j < k)%nat ->
             inBounds (r + Z.of_nat j * dr) (c + Z.of_nat j * dc) = true
             ∧ cell board (r + Z.of_nat j * dr) (c + Z.of_nat j * dc) = None)
        ∧ inBounds (r + Z.of_nat k * dr) (c + Z.of_nat k * dc) = true
        ∧ canLandOn board piece (r + Z.of_nat k * dr) (c + Z.of_nat k * dc)
        ∧ m = if occupied board (r + Z.of_nat k * dr) (c + Z.of_nat k * dc)
              then captureMove row col (r + Z.of_nat k * dr)
                     (c + Z.of_nat k * dc) true
              else plainMove row col (r + Z.of_nat k * dr) (c + Z.of_nat k * dc).
Proof.
  revert r c. induction fuel as [|fuel IH]; intros r c.
  { simpl. split; [intros []|]. intros (k & Hk & _). lia. }
  assert (∀ j : nat, r + Z.of_nat (S j) * dr = r + dr + Z.of_nat j * dr) as Hr
    by (intros; lia).
  assert (∀ j : nat, c + Z.of_nat (S j) * dc = c + dc + Z.of_nat j * dc) as Hc
    by (intros; lia).
  assert (r + Z.of_nat 0 * dr = r) as Hr0 by lia.
  assert (c + Z.of_nat 0 * dc = c) as Hc0 by lia.
  simpl. destruct (inBounds r c) eqn:Hin.
  - destruct (cell board r c) as [target|] eqn:Hcell.
    + assert (occupied board r c = true) as Hocc
        by (unfold occupied; rewrite Hcell; apply bool_decide_eq_true_2; eauto).
      split.
      * intros Hm. exists 0%nat. rewrite Hr0, Hc0, Hocc.
        destruct (otherColor target piece) eqn:Hother; [|destruct Hm].
        destruct Hm as [<-|[]]. split; [lia|]. split; [intros j Hj; lia|].
        split; [exact Hin|]. split; [|reflexivity].
        intros t Ht. rewrite Hcell in Ht. injection Ht as <-.
        apply otherColor_true, Hother.
      * intros (k & _ & Hopen & _ & Hland & Hm). destruct k as [|k].
        -- rewrite Hr0, Hc0, Hocc in *.
           rewrite (proj2 (otherColor_true target piece) (Hland _ Hcell)).
           left. symmetry. exact Hm.
        -- destruct (Hopen 0%nat ltac:(lia)) as [_ H0].
           rewrite Hr0, Hc0 in H0. congruence.
    + assert (occupied board r c = false) as Hocc
        by (unfold occupied; rewrite Hcell; apply bool_decide_eq_false_2;
            intros [? ?]; discriminate).
      rewrite slide_app, in_app_iff, IH. split.
      * intros [[<-|[]]|(k & Hk & Hopen & Hkin & Hland & Hm)].
        -- exists 0%nat. rewrite Hr0, Hc0, Hocc.
           split; [lia|]. split; [intros j Hj; lia|].
           split; [exact Hin|]. split; [|reflexivity].
           intros t Ht. congruence.
        -- exists (S k). rewrite Hr, Hc. split; [lia|]. split; [|auto].
           intros [|j] Hj; [rewrite Hr0, Hc0; auto|].
           rewrite Hr, Hc. apply Hopen. lia.
      * intros (k & Hk & Hopen & Hkin & Hland & Hm). destruct k as [|k].
        -- left. left. rewrite Hr0, Hc0, Hocc in Hm. symmetry. exact Hm.
        -- right. exists k. rewrite <- Hr, <- Hc. split; [lia|]. split; [|auto].
           intros j Hj. rewrite <- Hr, <- Hc. apply Hopen. lia.
  - split; [intros []|].
    intros (k & _ & Hopen & Hkin & _). destruct k as [|k].
    + rewrite Hr0, Hc0 in Hkin. congruence.
    + destruct (Hopen 0%nat ltac:(lia)) as [H0 _].
      rewrite Hr0, Hc0 in H0. congruence.
Qed.

Lemma getSlidingMoves_eq board row col piece moves dirs :
  getSlidingMoves board row col piece moves dirs
  = moves
    ++ flat_map (fun '(dr, dc) =>
         slide rayFuel board row col piece (row + dr) (col + dc) dr dc []) dirs.
Proof.
  unfold getSlidingMoves. apply fold_left_flat_map. intros acc [dr dc].
  apply slide_app.
Qed.

(** The moves of [getSlidingMoves] from a square of the board: along each
    direction, every square up to and with the first piece, the latter when
    it has another color. *)
Lemma In_getSlidingMoves board row col piece dirs m :
  0 <= row < 8 -> 0 <= col < 8 ->
  (∀ d, In d dirs -> In d directions) ->
  In m (getSlidingMoves board row col piece [] dirs)
  <-> ∃ dr dc k,
        In (dr, dc) dirs ∧ 1 <= k
        ∧ 0 <= row + k * dr < 8 ∧ 0 <= col + k * dc < 8
        ∧ openLine board row col dr dc k
        ∧ canLandOn board piece (row + k * dr) (col + k * dc)
        ∧ m = if occupied board (row + k * dr) (col + k * dc)
              then captureMove row col (row + k * dr) (col + k * dc) true
              else plainMove row col (row + k * dr) (col + k * dc).
Proof.
  intros Hr Hc Hdirs. rewrite getSlidingMoves_eq, app_nil_l, in_flat_map. split.
  - intros ([dr dc] & Hd & Hm). apply In_slide in Hm
      as (k & _ & Hopen & Hin & Hland & Hm).
    exists dr, dc, (Z.of_nat k + 1).
    replace (row + (Z.of_nat k + 1) * dr) with (row + dr + Z.of_nat k * dr) by ring.
    replace (col + (Z.of_nat k + 1) * dc) with (col + dc + Z.of_nat k * dc) by ring.
    apply inBounds_spec in Hin.
    repeat (split; [assumption || lia|]). split; [|auto].
    intros j Hj. destruct (Hopen (Z.to_nat (j - 1)) ltac:(lia)) as [_ Hnone].
    rewrite Z2Nat.id in Hnone by lia.
    replace (row + dr + (j - 1) * dr) with (row + j * dr) in Hnone by ring.
    replace (col + dc + (j - 1) * dc) with (col + j * dc) in Hnone by ring.
    exact Hnone.
  - intros (dr & dc & k & Hd & Hk & Hrk & Hck & Hopen & Hland & Hm).
    exists (dr, dc). split; [exact Hd|].
    pose proof (Hdirs _ Hd) as Hdir.
    apply In_slide. exists (Z.to_nat (k - 1)).
    rewrite Z2Nat.id by lia.
    replace (row + dr + (k - 1) * dr) with (row + k * dr) by ring.
    replace (col + dc + (k - 1) * dc) with (col + k * dc) by ring.
    split; [unfold rayFuel; split_direction Hdir; lia|].
    split; [|split; [apply inBounds_spec; split; assumption|auto]].
    intros j Hj.
    replace (row + dr + Z.of_nat j * dr) with (row + (Z.of_nat j + 1) * dr) by ring.
    replace (col + dc + Z.of_nat j * dc) with (col + (Z.of_nat j + 1) * dc) by ring.
    split; [|apply Hopen; lia].
    apply inBounds_spec. split_direction Hdir; lia.
Qed.

Lemma slidingDirections_in t d :
  In d (slidingDirections t) -> In d directions.
Proof.
  destruct d as [dr dc].
  destruct t; simpl; intros H; repeat destruct H as [[= <- <-]|H];
    try destruct H; tauto.
Qed.

(** X4. The moves [getValidMoves] returns for a bishop, rook or queen on a
    square of the board are exactly, along each of the piece's directions
    (diagonals for a bishop, rows and columns for a rook, both for a queen),
    the squares of the board reached over empty squares only, the destination
    itself being empty or holding a piece of another color, for which
    [wouldBeInCheck] is false; a move onto a piece carries [isCapture]. *)
Theorem sliding_moves_iff board row col piece t m :
  0 <= row < 8 -> 0 <= col < 8 ->
  cell board row col = Some piece ->
  ChessPiece.type piece = Some t ->
  t = bishop ∨ t = rook ∨ t = queen ->
  In m (getValidMoves board row col)
  <-> ∃ dr dc k,
        In (dr, dc) (slidingDirections t) ∧ 1 <= k
        ∧ 0 <= row + k * dr < 8 ∧ 0 <= col + k * dc < 8
        ∧ openLine board row col dr dc k
        ∧ canLandOn board piece (row + k * dr) (col + k * dc)
        ∧ (m = if occupied board (row + k * dr) (col + k * dc)
               then captureMove row col (row + k * dr) (col + k * dc) true
               else plainMove row col (row + k * dr) (col + k * dc))
        ∧ wouldBeInCheck board m (ChessPiece.color piece) = false.
Proof.
  intros Hr Hc Hpiece Htype Ht.
  rewrite (In_getValidMoves _ _ _ _ _ Hpiece), Htype.
  assert (In m (getSlidingMoves board row col piece [] (slidingDirections t))
          ∧ wouldBeInCheck board m (ChessPiece.color piece) = false
          <-> ∃ dr dc k,
                In (dr, dc) (slidingDirections t) ∧ 1 <= k
                ∧ 0 <= row + k * dr < 8 ∧ 0 <= col + k * dc < 8
                ∧ openLine board row col dr dc k
                ∧ canLandOn board piece (row + k * dr) (col + k * dc)
                ∧ (m = if occupied board (row + k * dr) (col + k * dc)
                       then captureMove row col (row + k * dr) (col + k * dc) true
                       else plainMove row col (row + k * dr) (col + k * dc))
                ∧ wouldBeInCheck board m (ChessPiece.color piece) = false) as H.
  { rewrite (In_getSlidingMoves _ _ _ _ _ _ Hr Hc (slidingDirections_in t)).
    split.
    - intros [(dr & dc & k & H) Hsafe]. exists dr, dc, k. tauto.
    - intros (dr & dc & k & H). split; [exists dr, dc, k|]; tauto. }
  destruct Ht as [->|[->| ->]]; exact H.
Qed.

Lemma sliding_moves_iff_witness :
  In (plainMove 4 0 4 3 ) (getValidMoves attackersAround 4 0).
Proof.
  apply (proj2 (sliding_moves_iff attackersAround 4 0
                  (ChessPiece.mk (Some rook) (Some black) None) rook
                  (plainMove 4 0 4 3) ltac:(lia) ltac:(lia) eq_refl eq_refl
                  ltac:(tauto))).
  exists 0, 1, 3. repeat split; try (simpl; lia); try reflexivity.
  - simpl. tauto.
  - intros j Hj. assert (j = 1 ∨ j = 2) as [->| ->] by lia; reflexivity.
  - intros target H. discriminate H.
Defined.

Lemma not_is_Some_cell board r c :
  negb (bool_decide (is_Some (cell board r c))) = true <-> cell board r c = None.
Proof.
  rewrite negb_true_iff, bool_decide_eq_false, <- eq_None_not_Some. reflexivity.
Qed.

Lemma In_getPawnMoves board row col piece m :
  In m (getPawnMoves board row col piece [])
  <-> ∃ m0, pawnCandidate board row col piece m0
            ∧ m = promoteOnFarRank piece m0.
Proof.
  unfold getPawnMoves, pawnCandidate, promoteOnFarRank, farRank, pawnAdvance,
    pawnStartRow. cbv zeta.
  set (d := if bool_decide (ChessPiece.color piece = Some white) then -1 else 1).
  set (s := if bool_decide (ChessPiece.color piece = Some white) then 6 else 1).
  set (f := if bool_decide (ChessPiece.color piece = Some white) then 0 else 7).
  rewrite in_map_iff.
  assert (∀ m0,
    In m0
      (fold_left (fun moves dc =>
         if (0 <=? col + dc) && (col + dc <? 8) then
           match cell board (row + d) (col + dc) with
           | Some target =>
               if otherColor target piece
               then moves ++ [captureMove row col (row + d) (col + dc) true]
               else moves
           | None => moves
           end
         else moves) [-1; 1]
         (if (0 <=? row + d) && (row + d <? 8)
             && negb (bool_decide (is_Some (cell board (row + d) col)))
          then
            if (row =? s)
               && negb (bool_decide (is_Some (cell board (row + 2 * d) col)))
            then ([] ++ [plainMove row col (row + d) col])
                 ++ [plainMove row col (row + 2 * d) col]
            else [] ++ [plainMove row col (row + d) col]
          else []))
    <-> (0 <= row + d < 8 ∧ cell board (row + d) col = None
         ∧ (m0 = plainMove row col (row + d) col
            ∨ (row = s ∧ cell board (row + 2 * d) col = None
               ∧ m0 = plainMove row col (row + 2 * d) col)))
        ∨ (∃ dc target,
             (dc = -1 ∨ dc = 1) ∧ 0 <= col + dc < 8
             ∧ cell board (row + d) (col + dc) = Some target
             ∧ ChessPiece.color target ≠ ChessPiece.color piece
             ∧ m0 = captureMove row col (row + d) (col + dc) true)) as Hcand.
  { intros m0.
    assert (∀ dc acc,
      In m0 (if (0 <=? col + dc) && (col + dc <? 8) then
               match cell board (row + d) (col + dc) with
               | Some target =>
                   if otherColor target piece
                   then acc ++ [captureMove row col (row + d) (col + dc) true]
                   else acc
               | None => acc
               end
             else acc)
      <-> In m0 acc
          ∨ (∃ target, 0 <= col + dc < 8
               ∧ cell board (row + d) (col + dc) = Some target
               ∧ ChessPiece.color target ≠ ChessPiece.color piece
               ∧ m0 = captureMove row col (row + d) (col + dc) true)) as Hstep.
    { intros dc acc.
      destruct ((0 <=? col + dc) && (col + dc <? 8)) eqn:Hb.
      - apply andb_true_iff in Hb as [H0 H8].
        apply Z.leb_le in H0. apply Z.ltb_lt in H8.
        destruct (cell board (row + d) (col + dc)) as [target|] eqn:Hcell.
        + destruct (otherColor target piece) eqn:Hother.
          * apply otherColor_true in Hother. rewrite in_app_iff. simpl.
            split.
            -- intros [H|[<-|[]]]; [left; exact H|right].
               exists target. repeat split; auto; lia.
            -- intros [H|(t & _ & [= <-] & _ & ->)]; [left; exact H|].
               right. left. reflexivity.
          * split; [intros H; left; exact H|].
            intros [H|(t & _ & [= <-] & Hne & _)]; [exact H|].
            exfalso. apply otherColor_true in Hne. congruence.
        + split; [intros H; left; exact H|].
          intros [H|(t & _ & [=] & _)]. exact H.
      - split; [intros H; left; exact H|].
        intros [H|(t & Hin & _)]; [exact H|].
        exfalso. apply andb_false_iff in Hb as [Hb|Hb];
          [apply Z.leb_gt in Hb|apply Z.ltb_ge in Hb]; lia. }
    cbn [fold_left]. rewrite Hstep, Hstep.
    assert (In m0
              (if (0 <=? row + d) && (row + d <? 8)
                  && negb (bool_decide (is_Some (cell board (row + d) col)))
               then
                 if (row =? s)
                    && negb (bool_decide (is_Some (cell board (row + 2 * d) col)))
                 then ([] ++ [plainMove row col (row + d) col])
                      ++ [plainMove row col (row + 2 * d) col]
                 else [] ++ [plainMove row col (row + d) col]
               else [])
            <-> 0 <= row + d < 8 ∧ cell board (row + d) col = None
                ∧ (m0 = plainMove row col (row + d) col
                   ∨ (row = s ∧ cell board (row + 2 * d) col = None
                      ∧ m0 = plainMove row col (row + 2 * d) col))) as ->.
    { destruct ((0 <=? row + d) && (row + d <? 8)
                && negb (bool_decide (is_Some (cell board (row + d) col))))
        eqn:Hfwd.
      - apply andb_true_iff in Hfwd as [Hfwd Hempty].
        apply andb_true_iff in Hfwd as [H0 H8].
        apply Z.leb_le in H0. apply Z.ltb_lt in H8.
        apply not_is_Some_cell in Hempty.
        destruct ((row =? s)
                  && negb (bool_decide (is_Some (cell board (row + 2 * d) col))))
          eqn:Htwo.
        + apply andb_true_iff in Htwo as [Hs Hempty2].
          apply Z.eqb_eq in Hs. apply not_is_Some_cell in Hempty2.
          simpl. split.
          * intros [<-|[<-|[]]]; repeat split; auto; lia.
          * intros (_ & _ & [->|(_ & _ & ->)]); auto.
        + simpl. split.
          * intros [<-|[]]. repeat split; auto; lia.
          * intros (_ & _ & [->|(Hs & Hempty2 & _)]); auto.
            exfalso. apply andb_false_iff in Htwo as [Htwo|Htwo].
            -- apply Z.eqb_neq in Htwo. contradiction.
            -- apply not_is_Some_cell in Hempty2. congruence.
      - simpl. split; [intros []|]. intros (Hin & Hempty & _).
        apply andb_false_iff in Hfwd as [Hfwd|Hfwd].
        + apply andb_false_iff in Hfwd as [Hb|Hb];
            [apply Z.leb_gt in Hb|apply Z.ltb_ge in Hb]; lia.
        + apply not_is_Some_cell in Hempty. congruence. }
    split.
    - intros [[H|(t & H)]|(t & H)]; [left; exact H| |].
      + right. exists (-1), t. tauto.
      + right. exists 1, t. tauto.
    - intros [H|(dc & t & [->| ->] & H)]; [left; left; exact H| |].
      + left. right. exists t. exact H.
      + right. exists t. exact H. }
  split.
  - intros (m0 & <- & Hin). exists m0. split; [apply Hcand; exact Hin|].
    reflexivity.
  - intros (m0 & Hin & ->). exists m0. split; [reflexivity|].
    apply Hcand. exact Hin.
Qed.

(** X5. The moves [getValidMoves] returns for a pawn are exactly: one square
    forward (up the board for white, down for black) onto an empty square of
    the board; two squares forward from the start row (6 for white, 1 for
    black) when both squares are empty; and one square diagonally forward onto
    a piece of another color, flagged as a capture; each with the queen as
    promotion type when it lands on the far rank, and each only when
    [wouldBeInCheck] is false for it. *)
Theorem pawn_moves_iff board row col piece m :
  cell board row col = Some piece ->
  ChessPiece.type piece = Some pawn ->
  In m (getValidMoves board row col)
  <-> (∃ m0, pawnCandidate board row col piece m0
             ∧ m = promoteOnFarRank piece m0)
      ∧ wouldBeInCheck board m (ChessPiece.color piece) = false.
Proof.
  intros Hpiece Htype.
  rewrite (In_getValidMoves _ _ _ _ _ Hpiece), Htype, In_getPawnMoves.
  reflexivity.
Qed.

Lemma pawn_moves_iff_witness :
  In (setPromotion (plainMove 1 0 0 0) promoQueen)
     (getValidMoves pawnOnSeventh 1 0).
Proof.
  apply (proj2 (pawn_moves_iff pawnOnSeventh 1 0
                  (ChessPiece.mk (Some pawn) (Some white) None)
                  (setPromotion (plainMove 1 0 0 0) promoQueen)
                  eq_refl eq_refl)).
  split; [|reflexivity].
  exists (plainMove 1 0 0 0). split; [|reflexivity].
  unfold pawnCandidate. cbv zeta. left.
  split; [change (0 <= 1 + -1 < 8); lia|].
  split; [reflexivity|]. left. reflexivity.
Defined.

Lemma In_kingStep board row col piece dr dc m :
  In m (kingStep board row col piece (dr, dc))
  <-> 0 <= row + dr < 8 ∧ 0 <= col + dc < 8
      ∧ canLandOn board piece (row + dr) (col + dc)
      ∧ isSquareUnderAttack
          (kingTestBoard board row col piece (row + dr) (col + dc))
          (row + dr) (col + dc)
          (opponentColorOf (ChessPiece.color piece)) = false
      ∧ m = plainMove row col (row + dr) (col + dc).
Proof.
  unfold kingStep, canLandOn.
  destruct (inBounds (row + dr) (col + dc)) eqn:Hin.
  - apply inBounds_spec in Hin as [Hr Hc].
    assert (match cell board (row + dr) (col + dc) with
            | Some targetPiece => otherColor targetPiece piece
            | None => true
            end = true
            <-> ∀ target, cell board (row + dr) (col + dc) = Some target ->
                  ChessPiece.color target ≠ ChessPiece.color piece) as Hfree.
    { destruct (cell board (row + dr) (col + dc)) as [target|].
      - rewrite otherColor_true. split.
        + intros H t [= <-]. exact H.
        + intros H. apply H. reflexivity.
      - split; [intros _ t [=]|reflexivity]. }
    destruct (match cell board (row + dr) (col + dc) with
              | Some targetPiece => otherColor targetPiece piece
              | None => true
              end) eqn:Hf.
    + destruct (isSquareUnderAttack _ _ _ _) eqn:Hatt; simpl.
      * split; [intros []|]. intros (_ & _ & _ & [=] & _).
      * split.
        -- intros [<-|[]]. repeat split; try lia. apply Hfree. reflexivity.
        -- intros (_ & _ & _ & _ & ->). left. reflexivity.
    + split; [intros []|]. intros (_ & _ & Hland & _).
      apply Hfree in Hland. discriminate.
  - apply inBounds_false in Hin. split; [intros []|]. intros (Hr & Hc & _). tauto.
Qed.

(** [getKingMoves] returns the king steps it kept, then the kingside castle
    if its tests pass, then the queenside castle if its tests pass. *)
Lemma getKingMoves_eq board row col piece moves :
  getKingMoves board row col piece moves
  = (moves ++ flat_map (kingStep board row col piece) directions)
    ++ (if negb (truthy (ChessPiece.hasMoved piece))
           && negb (isInCheck board (ChessPiece.color piece))
           && (col =? 4)
           && isCastleRook piece (cell board row 7)
           && forallb (castlePathOk board row col piece (fun c => c <=? col + 2))
                [5; 6]
        then [castleMove row col row (col + 2) kingside] else [])
    ++ (if negb (truthy (ChessPiece.hasMoved piece))
           && negb (isInCheck board (ChessPiece.color piece))
           && (col =? 4)
           && isCastleRook piece (cell board row 0)
           && forallb (castlePathOk board row col piece (fun c => col - 2 <=? c))
                [3; 2; 1]
        then [castleMove row col row (col - 2) queenside] else []).
Proof.
  unfold getKingMoves. cbv zeta.
  match goal with
  | |- context [fold_left ?f directions moves] =>
      assert (fold_left f directions moves
              = moves ++ flat_map (kingStep board row col piece) directions)
        as ->
  end.
  { apply fold_left_flat_map. intros acc [dr dc]. unfold kingStep.
    destruct (inBounds _ _); [|rewrite app_nil_r; reflexivity].
    match goal with
    | |- context [if ?free then _ else acc] => destruct free
    end; [|rewrite app_nil_r; reflexivity].
    destruct (negb _); [reflexivity|rewrite app_nil_r; reflexivity]. }
  destruct (Z.eqb_spec col 4) as [->|Hcol].
  - rewrite castle_path_kingside, castle_path_queenside.
    generalize (forallb (castlePathOk board row 4 piece (fun c => c <=? 4 + 2)) [5; 6]).
    generalize (forallb (castlePathOk board row 4 piece (fun c => 4 - 2 <=? c)) [3; 2; 1]).
    intros bq bk.
    destruct (negb (truthy _) && negb (isInCheck _ _)),
             (isCastleRook piece (cell board row 7)),
             (isCastleRook piece (cell board row 0)), bq, bk;
      cbn [andb]; rewrite ?app_nil_r; rewrite <- ?app_assoc; reflexivity.
  - rewrite !andb_false_r. cbn [andb].
    destruct (negb (truthy _) && negb (isInCheck _ _));
      rewrite ?app_nil_r; reflexivity.
Qed.

Lemma In_getKingMoves board row col piece m :
  In m (getKingMoves board row col piece [])
  <-> (∃ dr dc,
         In (dr, dc) directions
         ∧ 0 <= row + dr < 8 ∧ 0 <= col + dc < 8
         ∧ canLandOn board piece (row + dr) (col + dc)
         ∧ isSquareUnderAttack
             (kingTestBoard board row col piece (row + dr) (col + dc))
             (row + dr) (col + dc)
             (opponentColorOf (ChessPiece.color piece)) = false
         ∧ m = plainMove row col (row + dr) (col + dc))
      ∨ (truthy (ChessPiece.hasMoved piece) = false
         ∧ isInCheck board (ChessPiece.color piece) = false
         ∧ (kingsideGenerated board row col piece m
            ∨ queensideGenerated board row col piece m)).
Proof.
  rewrite getKingMoves_eq, app_nil_l, !in_app_iff, in_flat_map.
  unfold kingsideGenerated, queensideGenerated.
  split.
  - intros [([dr dc] & Hd & Hm)|[Hm|Hm]].
    + left. exists dr, dc. apply In_kingStep in Hm. tauto.
    + right. destruct (_ && _) eqn:Hcond; [|destruct Hm].
      destruct Hm as [<-|[]].
      repeat match goal with
             | H : _ && _ = true |- _ => apply andb_true_iff in H as [? ?]
             end.
      simpl in *.
      repeat match goal with
             | H : _ && _ = true |- _ => apply andb_true_iff in H as [? ?]
             | H : negb _ = true |- _ => apply negb_true_iff in H
             | H : (_ =? _) = true |- _ => apply Z.eqb_eq in H
             end.
      repeat split; try assumption. left. repeat split; assumption.
    + right. destruct (_ && _) eqn:Hcond; [|destruct Hm].
      destruct Hm as [<-|[]].
      repeat match goal with
             | H : _ && _ = true |- _ => apply andb_true_iff in H as [? ?]
             end.
      simpl in *.
      repeat match goal with
             | H : _ && _ = true |- _ => apply andb_true_iff in H as [? ?]
             | H : negb _ = true |- _ => apply negb_true_iff in H
             | H : (_ =? _) = true |- _ => apply Z.eqb_eq in H
             end.
      repeat split; try assumption. right. repeat split; assumption.
  - intros [(dr & dc & Hd & H)|(Hmoved & Hcheck & [Hk|Hq])].
    + left. exists (dr, dc). split; [exact Hd|]. apply In_kingStep. tauto.
    + right. left. destruct Hk as (-> & Hcol & Hrook & H5 & H6).
      rewrite Hmoved, Hcheck, Hrook. apply Z.eqb_eq in Hcol. rewrite Hcol.
      simpl. rewrite H5, H6. left. reflexivity.
    + right. right. destruct Hq as (-> & Hcol & Hrook & H3 & H2 & H1).
      rewrite Hmoved, Hcheck, Hrook. apply Z.eqb_eq in Hcol. rewrite Hcol.
      simpl. rewrite H3, H2, H1. left. reflexivity.
Qed.

(** X6. The moves [getValidMoves] returns for a king are exactly: the steps
    by one square in one of the eight directions onto a square of the board
    that is empty or holds a piece of another color and that no opponent
    piece attacks once the king stands on it; and, for a king that has not
    moved and is not in check, the castling moves whose rook and path tests
    pass; each only when [wouldBeInCheck] is false for it.  A king step
    carries no capture flag, also onto an occupied square. *)
Theorem king_moves_iff board row col piece m :
  cell board row col = Some piece ->
  ChessPiece.type piece = Some king ->
  In m (getValidMoves board row col)
  <-> ((∃ dr dc,
          In (dr, dc) directions
          ∧ 0 <= row + dr < 8 ∧ 0 <= col + dc < 8
          ∧ canLandOn board piece (row + dr) (col + dc)
          ∧ isSquareUnderAttack
              (kingTestBoard board row col piece (row + dr) (col + dc))
              (row + dr) (col + dc)
              (opponentColorOf (ChessPiece.color piece)) = false
          ∧ m = plainMove row col (row + dr) (col + dc))
       ∨ (truthy (ChessPiece.hasMoved piece) = false
          ∧ isInCheck board (ChessPiece.color piece) = false
          ∧ (kingsideGenerated board row col piece m
             ∨ queensideGenerated board row col piece m)))
      ∧ wouldBeInCheck board m (ChessPiece.color piece) = false.
Proof.
  intros Hpiece Htype.
  rewrite (In_getValidMoves _ _ _ _ _ Hpiece), Htype, In_getKingMoves.
  reflexivity.
Qed.

Lemma king_moves_iff_witness :
  In (castleMove 7 4 7 6 kingside) (getValidMoves castleReady 7 4).
Proof.
  apply (proj2 (king_moves_iff castleReady 7 4
                  (ChessPiece.mk (Some king) (Some white) None)
                  (castleMove 7 4 7 6 kingside) eq_refl eq_refl)).
  split; [|reflexivity]. right.
  split; [reflexivity|]. split; [reflexivity|]. left.
  unfold kingsideGenerated. repeat split; reflexivity.
Defined.

(** ** The form of the generated moves *)

Lemma moveShape_plain board row col piece r c :
  0 <= r < 8 -> 0 <= c < 8 -> (r ≠ row ∨ c ≠ col) ->
  canLandOn board piece r c ->
  moveShape board row col piece (plainMove row col r c).
Proof.
  intros Hr Hc Hne Hland. unfold moveShape, squareInBounds. simpl.
  repeat split; try assumption; try lia.
  - intros [= -> ->]. destruct Hne; congruence.
  - intros [? [=]].
  - left. reflexivity.
  - intros [=].
Qed.

Lemma moveShape_capture board row col piece r c b :
  0 <= r < 8 -> 0 <= c < 8 -> (r ≠ row ∨ c ≠ col) ->
  canLandOn board piece r c ->
  (b = true -> is_Some (cell board r c)) ->
  moveShape board row col piece (captureMove row col r c b).
Proof.
  intros Hr Hc Hne Hland Hb. unfold moveShape, squareInBounds, destCell. simpl.
  repeat split; try assumption; try lia.
  - intros [= -> ->]. destruct Hne; congruence.
  - intros [? [=]].
  - left. reflexivity.
  - intros [= ->]. apply Hb. reflexivity.
Qed.

Lemma moveShape_castle board row col piece c side :
  ChessPiece.type piece = Some king ->
  0 <= row < 8 -> 0 <= c < 8 -> c ≠ col ->
  cell board row c = None ->
  moveShape board row col piece (castleMove row col row c side).
Proof.
  intros Hking Hr Hc Hne Hnone. unfold moveShape, squareInBounds, canLandOn.
  simpl. repeat split; try assumption; try lia.
  - intros [= ->]. congruence.
  - intros t Ht. congruence.
  - intros _. exact Hking.
  - left. reflexivity.
  - intros [=].
Qed.

Lemma moveShape_promote board row col piece m :
  ChessPiece.type piece = Some pawn ->
  moveShape board row col piece m ->
  moveShape board row col piece (promoteOnFarRank piece m).
Proof.
  intros Hpawn Hm. unfold promoteOnFarRank.
  destruct (Z.eqb_spec (ChessSquare.row (ChessMove.to m))
              (farRank (ChessPiece.color piece))) as [Hfar|_]; [|exact Hm].
  destruct Hm as (Hfrom & Hto & Hne & Hland & Hep & Hck & Hmate & Hcastle
                  & _ & Hcap).
  unfold moveShape, destCell in *. simpl.
  repeat split; try assumption; try apply Hto.
  right. repeat split; assumption.
Qed.

Lemma pawnAdvance_cases piece : pawnAdvance piece = -1 ∨ pawnAdvance piece = 1.
Proof. unfold pawnAdvance. destruct (bool_decide _); auto. Qed.

Lemma pawnStartRow_two piece :
  0 <= pawnStartRow piece + 2 * pawnAdvance piece < 8.
Proof. unfold pawnStartRow, pawnAdvance. destruct (bool_decide _); lia. Qed.

Lemma canLandOn_empty board piece r c :
  cell board r c = None -> canLandOn board piece r c.
Proof. intros Hnone t Ht. congruence. Qed.

Lemma moveShape_pawnCandidate board row col piece m :
  wfBoard board -> 0 <= row < 8 -> 0 <= col < 8 ->
  pawnCandidate board row col piece m ->
  moveShape board row col piece m.
Proof.
  intros Hwf Hr Hc. unfold pawnCandidate. cbv zeta.
  pose proof (pawnAdvance_cases piece) as Hd.
  pose proof (pawnStartRow_two piece) as Hs.
  intros [(Hin & Hnone & [->|(Hstart & Hnone2 & ->)])
         |(dc & t & Hdc & Hin & Hcell & Hcol & ->)].
  - apply moveShape_plain; try assumption; [lia|].
    apply canLandOn_empty. exact Hnone.
  - apply moveShape_plain; try assumption; [subst row; exact Hs|lia|].
    apply canLandOn_empty. exact Hnone2.
  - apply moveShape_capture; try assumption; try lia.
    + exact (cell_Some_row _ _ _ _ Hwf Hcell).
    + intros t' Ht'. rewrite Hcell in Ht'. injection Ht' as <-. exact Hcol.
    + intros _. rewrite Hcell. eauto.
Qed.

Lemma direction_nonzero dr dc :
  In (dr, dc) directions -> -1 <= dr <= 1 ∧ -1 <= dc <= 1 ∧ (dr ≠ 0 ∨ dc ≠ 0).
Proof. intros Hd. split_direction Hd; lia. Qed.

Lemma direction_leaves row col dr dc k :
  In (dr, dc) directions -> 1 <= k ->
  row + k * dr ≠ row ∨ col + k * dc ≠ col.
Proof. intros Hd Hk. split_direction Hd; lia. Qed.

Lemma knightOffset_nonzero dr dc :
  In (dr, dc) knightOffsets -> dr ≠ 0.
Proof.
  simpl. intros H. repeat destruct H as [[= <- <-]|H]; try destruct H; lia.
Qed.

Lemma castlePathOk_None board row col piece through c :
  castlePathOk board row col piece through c = true -> cell board row c = None.
Proof.
  unfold castlePathOk. intros H. apply andb_true_iff in H as [H _].
  apply isNullAt_cell. exact H.
Qed.

Lemma occupied_true board r c :
  occupied board r c = true -> is_Some (cell board r c).
Proof. unfold occupied. apply bool_decide_eq_true_1. Qed.

(** Every move a generator pushes for the piece on a square of the board has
    the form [moveShape]. *)
Lemma getValidMoves_moveShape board row col piece m :
  wfBoard board -> 0 <= row < 8 -> 0 <= col < 8 ->
  cell board row col = Some piece ->
  In m (getValidMoves board row col) ->
  moveShape board row col piece m.
Proof.
  intros Hwf Hr Hc Hpiece Hin.
  apply (In_getValidMoves _ _ _ _ _ Hpiece) in Hin as [Hin _].
  destruct (ChessPiece.type piece) as [[| | | | |]|] eqn:Htype.
  - (* pawn *)
    apply In_getPawnMoves in Hin as (m0 & Hcand & ->).
    apply moveShape_promote; [exact Htype|].
    apply moveShape_pawnCandidate; assumption.
  - (* knight *)
    rewrite getKnightMoves_eq, app_nil_l, in_flat_map in Hin.
    destruct Hin as ([dr dc] & Hd & Hm).
    apply In_knightStep in Hm as (Hnr & Hnc & Hland & ->).
    apply knightOffset_nonzero in Hd.
    apply moveShape_capture; try assumption; [left; lia|].
    apply occupied_true.
  - (* bishop *)
    change (In m (getSlidingMoves board row col piece []
                    (slidingDirections bishop))) in Hin.
    apply (proj1 (In_getSlidingMoves board row col piece
                    (slidingDirections bishop) m Hr Hc
                    (slidingDirections_in bishop)))
      in Hin as (dr & dc & k & Hd & Hk & Hnr & Hnc & _ & Hland & ->).
    apply (slidingDirections_in bishop) in Hd.
    pose proof (direction_leaves row col dr dc k Hd Hk) as Hne.
    destruct (occupied _ _ _) eqn:Hocc.
    + apply moveShape_capture; try assumption.
      intros _. apply occupied_true. exact Hocc.
    + apply moveShape_plain; assumption.
  - (* rook *)
    change (In m (getSlidingMoves board row col piece []
                    (slidingDirections rook))) in Hin.
    apply (proj1 (In_getSlidingMoves board row col piece
                    (slidingDirections rook) m Hr Hc
                    (slidingDirections_in rook)))
      in Hin as (dr & dc & k & Hd & Hk & Hnr & Hnc & _ & Hland & ->).
    apply (slidingDirections_in rook) in Hd.
    pose proof (direction_leaves row col dr dc k Hd Hk) as Hne.
    destruct (occupied _ _ _) eqn:Hocc.
    + apply moveShape_capture; try assumption.
      intros _. apply occupied_true. exact Hocc.
    + apply moveShape_plain; assumption.
  - (* queen *)
    change (In m (getSlidingMoves board row col piece []
                    (slidingDirections queen))) in Hin.
    apply (proj1 (In_getSlidingMoves board row col piece
                    (slidingDirections queen) m Hr Hc
                    (slidingDirections_in queen)))
      in Hin as (dr & dc & k & Hd & Hk & Hnr & Hnc & _ & Hland & ->).
    apply (slidingDirections_in queen) in Hd.
    pose proof (direction_leaves row col dr dc k Hd Hk) as Hne.
    destruct (occupied _ _ _) eqn:Hocc.
    + apply moveShape_capture; try assumption.
      intros _. apply occupied_true. exact Hocc.
    + apply moveShape_plain; assumption.
  - (* king *)
    apply In_getKingMoves in Hin
      as [(dr & dc & Hd & Hnr & Hnc & Hland & _ & ->)
         |(_ & _ & [(-> & -> & _ & _ & H6)|(-> & -> & _ & _ & H2 & _)])].
    + apply direction_nonzero in Hd.
      apply moveShape_plain; try assumption. lia.
    + apply moveShape_castle; try assumption; try lia.
      apply castlePathOk_None in H6. exact H6.
    + apply moveShape_castle; try assumption; try lia.
      apply castlePathOk_None in H2. exact H2.
  - destruct Hin.
Qed.

(** X7. On a board of eight rows of eight squares, every move
    [getValidMoves] returns for the piece on a square starts on that square,
    ends on another square of the board that holds no piece of the mover's
    color, and carries neither an en passant,
    a check nor a checkmate flag; a castle flag only for a king; a promotion
    only for a pawn reaching its far rank, and then the queen; and a true
    capture flag only when the destination holds a piece. *)
Theorem valid_move_shape board row col piece m :
  wfBoard board -> 0 <= row < 8 -> 0 <= col < 8 ->
  cell board row col = Some piece ->
  In m (getValidMoves board row col) ->
  ChessMove.from m = ChessSquare.mk row col
  ∧ squareInBounds (ChessMove.to m)
  ∧ ChessMove.to m ≠ ChessMove.from m
  ∧ canLandOn board piece (ChessSquare.row (ChessMove.to m))
      (ChessSquare.col (ChessMove.to m))
  ∧ ChessMove.isEnPassant m = None
  ∧ ChessMove.isCheck m = None
  ∧ ChessMove.isCheckmate m = None
  ∧ (is_Some (ChessMove.isCastle m) -> ChessPiece.type piece = Some king)
  ∧ (ChessMove.promotion m = None
     ∨ (ChessMove.promotion m = Some promoQueen
        ∧ ChessPiece.type piece = Some pawn
        ∧ ChessSquare.row (ChessMove.to m) = farRank (ChessPiece.color piece)))
  ∧ (ChessMove.isCapture m = Some true -> is_Some (destCell board m)).
Proof. exact (getValidMoves_moveShape board row col piece m). Qed.

Lemma valid_move_shape_witness :
  ChessMove.isCheck (castleMove 7 4 7 6 kingside) = None.
Proof.
  apply (valid_move_shape castleReady 7 4
           (ChessPiece.mk (Some king) (Some white) None)
           (castleMove 7 4 7 6 kingside)
           (wfBoardb_spec castleReady eq_refl) ltac:(lia) ltac:(lia) eq_refl).
  vm_compute. tauto.
Defined.

(** ** The generators against attack detection *)

Lemma attacker_found board r c byColor r' c' :
  0 <= r < 8 -> 0 <= c < 8 ->
  attackedFrom board byColor r c r' c' ->
  isSquareUnderAttack board r c byColor = true.
Proof.
  intros Hr Hc. unfold isSquareUnderAttack, knightAttack, kingAttack, attackedFrom.
  rewrite !orb_true_iff, (pawnAttack_true _ _ _ _ Hr Hc),
    (slidingAttack_true _ _ _ _ Hr Hc), !offsetAttack_true.
  intros (p & Hp & Hcol & Hr' & Hc'
          & [(Ht & -> & Hside)|[(Ht & Hd)|[(Ht & Hd)
            |(dr & dc & k & Hd & Hk & -> & -> & Hopen & Ht)]]]).
  - left. left. left. exists c', p. auto 10.
  - left. left. right. exists r', c', p. auto 10.
  - right. exists r', c', p. auto 10.
  - left. right. exists dr, dc, k, p. auto 10.
Qed.

Lemma knightOffsets_opposite dr dc :
  In (dr, dc) knightOffsets -> In (- dr, - dc) knightOffsets.
Proof.
  simpl. intros H. repeat destruct H as [[= <- <-]|H]; try destruct H;
    simpl; tauto.
Qed.

Lemma directions_opposite dr dc :
  In (dr, dc) directions -> In (- dr, - dc) directions.
Proof. intros Hd. split_direction Hd; simpl; tauto. Qed.

Lemma openLine_reverse board r c dr dc k :
  openLine board r c dr dc k ->
  openLine board (r + k * dr) (c + k * dc) (- dr) (- dc) k.
Proof.
  intros Hopen j Hj.
  replace (r + k * dr + j * - dr) with (r + (k - j) * dr) by ring.
  replace (c + k * dc + j * - dc) with (c + (k - j) * dc) by ring.
  apply Hopen. lia.
Qed.

Lemma sliderFor_slidingDirections t dr dc :
  t = bishop ∨ t = rook ∨ t = queen ->
  In (dr, dc) (slidingDirections t) ->
  sliderFor (- dr) (- dc) (Some t).
Proof.
  unfold sliderFor. intros [->|[->| ->]] Hd.
  - right. left. simpl in Hd.
    repeat destruct Hd as [[= <- <-]|Hd]; try destruct Hd;
      repeat split; lia.
  - right. right. simpl in Hd.
    repeat destruct Hd as [[= <- <-]|Hd]; try destruct Hd;
      split; try reflexivity; lia.
  - left. reflexivity.
Qed.

(** X8. The generators and attack detection agree for every piece but the
    pawn: when [getValidMoves] returns, for a knight, bishop, rook, queen or
    king of some color, a move that is not a castle, [isSquareUnderAttack]
    reports the destination of the move as attacked by that color. *)
Theorem valid_move_target_attacked board row col piece c m :
  0 <= row < 8 -> 0 <= col < 8 ->
  cell board row col = Some piece ->
  ChessPiece.color piece = Some c ->
  ChessPiece.type piece ≠ Some pawn ->
  ChessMove.isCastle m = None ->
  In m (getValidMoves board row col) ->
  isSquareUnderAttack board (ChessSquare.row (ChessMove.to m))
    (ChessSquare.col (ChessMove.to m)) c = true.
Proof.
  intros Hr Hc Hpiece Hcolor Hnopawn Hnocastle Hin.
  apply (In_getValidMoves _ _ _ _ _ Hpiece) in Hin as [Hin _].
  assert (∀ t dr dc k,
            ChessPiece.type piece = Some t ->
            t = bishop ∨ t = rook ∨ t = queen ->
            In (dr, dc) (slidingDirections t) -> 1 <= k ->
            0 <= row + k * dr < 8 -> 0 <= col + k * dc < 8 ->
            openLine board row col dr dc k ->
            isSquareUnderAttack board (row + k * dr) (col + k * dc) c = true)
    as Hslider.
  { intros t dr dc k Htype Ht Hd Hk Hnr Hnc Hopen.
    apply (attacker_found _ _ _ _ row col); [assumption..|].
    exists piece. repeat (split; [assumption || lia|]).
    right. right. right. exists (- dr), (- dc), k.
    split; [apply directions_opposite, (slidingDirections_in t); exact Hd|].
    split; [exact Hk|]. split; [ring|]. split; [ring|].
    split; [apply openLine_reverse; exact Hopen|].
    rewrite Htype. apply sliderFor_slidingDirections; assumption. }
  destruct (ChessPiece.type piece) as [[| | | | |]|] eqn:Htype.
  - congruence.
  - (* knight *)
    rewrite getKnightMoves_eq, app_nil_l, in_flat_map in Hin.
    destruct Hin as ([dr dc] & Hd & Hm).
    apply In_knightStep in Hm as (Hnr & Hnc & _ & ->). simpl.
    apply (attacker_found _ _ _ _ row col); [assumption..|].
    exists piece. repeat (split; [assumption || lia|]).
    right. left. split; [exact Htype|].
    replace (row - (row + dr)) with (- dr) by ring.
    replace (col - (col + dc)) with (- dc) by ring.
    apply knightOffsets_opposite. exact Hd.
  - (* bishop *)
    change (In m (getSlidingMoves board row col piece []
                    (slidingDirections bishop))) in Hin.
    apply (proj1 (In_getSlidingMoves board row col piece
                    (slidingDirections bishop) m Hr Hc
                    (slidingDirections_in bishop)))
      in Hin as (dr & dc & k & Hd & Hk & Hnr & Hnc & Hopen & _ & ->).
    destruct (occupied _ _ _); simpl; eapply Hslider; eauto.
  - (* rook *)
    change (In m (getSlidingMoves board row col piece []
                    (slidingDirections rook))) in Hin.
    apply (proj1 (In_getSlidingMoves board row col piece
                    (slidingDirections rook) m Hr Hc
                    (slidingDirections_in rook)))
      in Hin as (dr & dc & k & Hd & Hk & Hnr & Hnc & Hopen & _ & ->).
    destruct (occupied _ _ _); simpl; eapply Hslider; eauto.
  - (* queen *)
    change (In m (getSlidingMoves board row col piece []
                    (slidingDirections queen))) in Hin.
    apply (proj1 (In_getSlidingMoves board row col piece
                    (slidingDirections queen) m Hr Hc
                    (slidingDirections_in queen)))
      in Hin as (dr & dc & k & Hd & Hk & Hnr & Hnc & Hopen & _ & ->).
    destruct (occupied _ _ _); simpl; eapply Hslider; eauto.
  - (* king *)
    apply In_getKingMoves in Hin
      as [(dr & dc & Hd & Hnr & Hnc & _ & _ & ->)
         |(_ & _ & [(-> & _)|(-> & _)])]; [|discriminate..].
    simpl.
    apply (attacker_found _ _ _ _ row col); [assumption..|].
    exists piece. repeat (split; [assumption || lia|]).
    right. right. left. split; [exact Htype|].
    replace (row - (row + dr)) with (- dr) by ring.
    replace (col - (col + dc)) with (- dc) by ring.
    apply directions_opposite. exact Hd.
  - destruct Hin.
Qed.

Lemma valid_move_target_attacked_witness :
  isSquareUnderAttack attackersAround 4 3 black = true.
Proof.
  apply (valid_move_target_attacked attackersAround 4 0
           (ChessPiece.mk (Some rook) (Some black) None) black
           (plainMove 4 0 4 3) ltac:(lia) ltac:(lia) eq_refl eq_refl
           ltac:(discriminate) eq_refl).
  vm_compute. tauto.
Defined.

(** ** One move per destination *)

Lemma promoteOnFarRank_to piece m :
  ChessMove.to (promoteOnFarRank piece m) = ChessMove.to m.
Proof. unfold promoteOnFarRank. destruct (_ =? _); reflexivity. Qed.

(** The moves generated for a piece are a function of their destination. *)
Lemma generated_by_destination board row col piece :
  0 <= row < 8 -> 0 <= col < 8 ->
  cell board row col = Some piece ->
  ∃ g : ChessSquare -> ChessMove,
    ∀ m, In m (getValidMoves board row col) -> m = g (ChessMove.to m).
Proof.
  intros Hr Hc Hpiece.
  pose (slideTo := fun sq : ChessSquare =>
          if occupied board (ChessSquare.row sq) (ChessSquare.col sq)
          then captureMove row col (ChessSquare.row sq) (ChessSquare.col sq) true
          else plainMove row col (ChessSquare.row sq) (ChessSquare.col sq)).
  assert (∀ t, t = bishop ∨ t = rook ∨ t = queen ->
            ∀ m, In m (getSlidingMoves board row col piece []
                         (slidingDirections t)) ->
              m = slideTo (ChessMove.to m)) as Hslider.
  { intros t Ht m Hin. unfold slideTo.
    apply (proj1 (In_getSlidingMoves board row col piece
                    (slidingDirections t) m Hr Hc
                    (slidingDirections_in t)))
      in Hin as (dr & dc & k & _ & _ & _ & _ & _ & _ & ->).
    destruct (occupied board (row + k * dr) (col + k * dc)) eqn:Hocc;
      simpl; rewrite Hocc; reflexivity. }
  destruct (ChessPiece.type piece) as [[| | | | |]|] eqn:Htype.
  - (* pawn *)
    exists (fun sq =>
      promoteOnFarRank piece
        (if ChessSquare.col sq =? col
         then plainMove row col (ChessSquare.row sq) (ChessSquare.col sq)
         else captureMove row col (ChessSquare.row sq) (ChessSquare.col sq) true)).
    intros m Hin.
    apply (In_getValidMoves _ _ _ _ _ Hpiece) in Hin as [Hin _].
    rewrite Htype in Hin.
    apply In_getPawnMoves in Hin as (m0 & Hcand & ->).
    rewrite promoteOnFarRank_to. f_equal.
    unfold pawnCandidate in Hcand. cbv zeta in Hcand.
    destruct Hcand as [(_ & _ & [->|(_ & _ & ->)])
                      |(dc & t & Hdc & _ & _ & _ & ->)]; simpl.
    + rewrite Z.eqb_refl. reflexivity.
    + rewrite Z.eqb_refl. reflexivity.
    + destruct (Z.eqb_spec (col + dc) col) as [Heq|_]; [lia|reflexivity].
  - (* knight *)
    exists (fun sq =>
      captureMove row col (ChessSquare.row sq) (ChessSquare.col sq)
        (occupied board (ChessSquare.row sq) (ChessSquare.col sq))).
    intros m Hin.
    apply (In_getValidMoves _ _ _ _ _ Hpiece) in Hin as [Hin _].
    rewrite Htype, getKnightMoves_eq, app_nil_l, in_flat_map in Hin.
    destruct Hin as ([dr dc] & _ & Hm).
    apply In_knightStep in Hm as (_ & _ & _ & ->). reflexivity.
  - (* bishop *)
    exists slideTo. intros m Hin.
    apply (In_getValidMoves _ _ _ _ _ Hpiece) in Hin as [Hin _].
    rewrite Htype in Hin. apply (Hslider bishop); [tauto|exact Hin].
  - (* rook *)
    exists slideTo. intros m Hin.
    apply (In_getValidMoves _ _ _ _ _ Hpiece) in Hin as [Hin _].
    rewrite Htype in Hin. apply (Hslider rook); [tauto|exact Hin].
  - (* queen *)
    exists slideTo. intros m Hin.
    apply (In_getValidMoves _ _ _ _ _ Hpiece) in Hin as [Hin _].
    rewrite Htype in Hin. apply (Hslider queen); [tauto|exact Hin].
  - (* king *)
    exists (fun sq =>
      if ChessSquare.col sq =? col + 2
      then castleMove row col row (col + 2) kingside
      else if ChessSquare.col sq =? col - 2
           then castleMove row col row (col - 2) queenside
           else plainMove row col (ChessSquare.row sq) (ChessSquare.col sq)).
    intros m Hin.
    apply (In_getValidMoves _ _ _ _ _ Hpiece) in Hin as [Hin _].
    rewrite Htype in Hin.
    apply In_getKingMoves in Hin
      as [(dr & dc & Hd & _ & _ & _ & _ & ->)
         |(_ & _ & [(-> & _)|(-> & _)])]; simpl.
    + apply direction_nonzero in Hd.
      destruct (Z.eqb_spec (col + dc) (col + 2)) as [Heq|_]; [lia|].
      destruct (Z.eqb_spec (col + dc) (col - 2)) as [Heq|_]; [lia|].
      reflexivity.
    + rewrite Z.eqb_refl. reflexivity.
    + destruct (Z.eqb_spec (col - 2) (col + 2)) as [Heq|_]; [lia|].
      rewrite Z.eqb_refl. reflexivity.
  - exists (fun _ => plainMove 0 0 0 0). intros m Hin.
    apply (In_getValidMoves _ _ _ _ _ Hpiece) in Hin as [Hin _].
    rewrite Htype in Hin. destruct Hin.
Qed.

(** X9. Among the moves [getValidMoves] returns for a square of the board,
    the destination identifies the move: two returned moves with the same
    destination square are the same move, flags and promotion included. *)
Theorem valid_move_by_destination board row col piece m1 m2 :
  0 <= row < 8 -> 0 <= col < 8 ->
  cell board row col = Some piece ->
  In m1 (getValidMoves board row col) ->
  In m2 (getValidMoves board row col) ->
  ChessMove.to m1 = ChessMove.to m2 ->
  m1 = m2.
Proof.
  intros Hr Hc Hpiece H1 H2 Hto.
  destruct (generated_by_destination board row col piece Hr Hc Hpiece)
    as (g & Hg).
  rewrite (Hg m1 H1), (Hg m2 H2), Hto. reflexivity.
Qed.

Lemma valid_move_by_destination_witness :
  plainMove 4 0 4 3 = plainMove 4 0 4 3.
Proof.
  apply (valid_move_by_destination attackersAround 4 0
           (ChessPiece.mk (Some rook) (Some black) None)
           (plainMove 4 0 4 3) (plainMove 4 0 4 3)
           ltac:(lia) ltac:(lia) eq_refl).
  - vm_compute. tauto.
  - vm_compute. tauto.
  - reflexivity.
Defined.

(** ** The notation of the generated moves *)

Lemma moveToAlgebraic_unflagged move :
  squareInBounds (ChessMove.from move) -> squareInBounds (ChessMove.to move) ->
  ChessMove.isCastle move = None ->
  ChessMove.isCheck move = None -> ChessMove.isCheckmate move = None ->
  moveToAlgebraic move
  = squareName (ChessMove.from move) +:+ squareName (ChessMove.to move)
    +:+ match ChessMove.promotion move with
        | Some p => "=" +:+ promotionLetter p
        | None => ""
        end.
Proof.
  intros [Hfr Hfc] [Htr Htc] Hcastle Hcheck Hmate. unfold moveToAlgebraic.
  cbv zeta. rewrite Hcastle, Hcheck, Hmate.
  rewrite !bool_decide_eq_false_2 by discriminate.
  rewrite !jsIndex_files, !jsIndex_ranks by assumption.
  unfold squareName. simpl jsAdd. simpl jsToString. simpl truthy. cbv iota.
  assert (∀ s : string, "" +:+ s = s) as Hnil by reflexivity.
  destruct (ChessMove.promotion move) as [p|];
    [rewrite promotion_suffix|];
    rewrite ?Hnil, ?append_assoc, ?append_empty_r, ?Hnil; reflexivity.
Qed.

(** X10. The notation [moveToAlgebraic] gives a move returned by
    [getValidMoves] (the way the game screen uses the two): "O-O" or "O-O-O"
    for a castle; otherwise the name of the queried square, the name of the
    destination and "=Q" for a promotion.  It never ends in "+" or "#": no
    generated move carries a check or checkmate flag. *)
Theorem notation_of_valid_move board row col piece m :
  wfBoard board -> 0 <= row < 8 -> 0 <= col < 8 ->
  cell board row col = Some piece ->
  In m (getValidMoves board row col) ->
  moveToAlgebraic m =
    match ChessMove.isCastle m with
    | Some kingside => "O-O"%string
    | Some queenside => "O-O-O"%string
    | None =>
        squareName (ChessSquare.mk row col) +:+ squareName (ChessMove.to m)
        +:+ (if bool_decide (is_Some (ChessMove.promotion m)) then "=Q" else "")
    end.
Proof.
  intros Hwf Hr Hc Hpiece Hin.
  destruct (getValidMoves_moveShape _ _ _ _ _ Hwf Hr Hc Hpiece Hin)
    as (Hfrom & Hto & _ & _ & _ & Hcheck & Hmate & _ & Hpromo & _).
  destruct (ChessMove.isCastle m) as [[|]|] eqn:Hcastle.
  - unfold moveToAlgebraic. cbv zeta. rewrite Hcastle. reflexivity.
  - unfold moveToAlgebraic. cbv zeta. rewrite Hcastle. reflexivity.
  - rewrite moveToAlgebraic_unflagged; try assumption.
    + rewrite Hfrom.
      destruct Hpromo as [->|(-> & _)]; reflexivity.
    + rewrite Hfrom. split; assumption.
Qed.

Lemma notation_of_valid_move_witness :
  moveToAlgebraic (setPromotion (plainMove 1 0 0 0) promoQueen) = "a7a8=Q"%string.
Proof.
  apply (notation_of_valid_move pawnOnSeventh 1 0
           (ChessPiece.mk (Some pawn) (Some white) None)
           (setPromotion (plainMove 1 0 0 0) promoQueen)
           (wfBoardb_spec pawnOnSeventh eq_refl) ltac:(lia) ltac:(lia) eq_refl).
  vm_compute. tauto.
Defined.

(** ** What a move changes on the board *)

Lemma handleCastle_wf board move : wfBoard board -> wfBoard (handleCastle board move).
Proof. intros Hwf. unfold handleCastle. cbv zeta. solve_wf. Qed.

Lemma applyMove_frame board move piece r c :
  wfBoard board -> 0 <= r < 8 -> 0 <= c < 8 ->
  ¬ In (r, c) (touchedSquares move) ->
  cell (applyMove board move piece) r c = cell board r c.
Proof.
  intros Hwf Hr Hc Hout. unfold touchedSquares in Hout. cbv zeta in Hout.
  rewrite !in_app_iff in Hout. simpl in Hout.
  unfold applyMove, cloneBoard. cbv zeta.
  set (b1 := setCell board _ _ (Some (markMoved (Some piece)))).
  set (b2 := setCell b1 _ _ None).
  assert (wfBoard b1) as Hwf1 by (apply setCell_wf; exact Hwf).
  assert (wfBoard b2) as Hwf2 by (apply setCell_wf; exact Hwf1).
  assert (cell b2 r c = cell board r c) as H2.
  { unfold b2, b1. rewrite !cell_setCell_ne; try assumption; try reflexivity.
    - intros Heq. apply Hout. left. right. left. exact Heq.
    - intros Heq. apply Hout. left. left. exact Heq. }
  set (b3 := if bool_decide (is_Some (ChessMove.isCastle move))
             then handleCastle b2 move else b2).
  assert (wfBoard b3 ∧ cell b3 r c = cell board r c) as [Hwf3 H3].
  { unfold b3. destruct (ChessMove.isCastle move) as [side|] eqn:Hcastle.
    - rewrite bool_decide_eq_true_2 by eauto.
      split; [apply handleCastle_wf; exact Hwf2|].
      unfold handleCastle. cbv zeta. rewrite Hcastle.
      rewrite !cell_setCell_ne; try assumption; try (apply setCell_wf; assumption).
      + intros Heq. apply Hout. right. left.
        destruct side; simpl in *; tauto.
      + intros Heq. apply Hout. right. left.
        destruct side; simpl in *; tauto.
    - rewrite bool_decide_eq_false_2 by (intros [? [=]]).
      split; assumption. }
  set (b4 := if truthy (ChessMove.isEnPassant move)
             then handleEnPassant b3 move else b3).
  assert (wfBoard b4 ∧ cell b4 r c = cell board r c) as [Hwf4 H4].
  { unfold b4. destruct (truthy (ChessMove.isEnPassant move)).
    - unfold handleEnPassant. cbv zeta.
      split; [apply setCell_wf; exact Hwf3|].
      rewrite cell_setCell_ne; try assumption.
      intros Heq. apply Hout. right. right. left. exact Heq.
    - split; assumption. }
  destruct (ChessMove.promotion move) as [p|]; [|exact H4].
  rewrite cell_setCell_ne; try assumption.
  intros Heq. apply Hout. left. right. left. exact Heq.
Qed.

(** X11. [makeMove] changes the board only on the squares of the move: the
    source and the destination, for a castle the rook's corner and the square
    beside the king's destination, for an en passant move the square beside
    the source in the destination's column.  Every other square of the board
    holds in the new board what it held before. *)
Theorem makeMove_frame board move res newBoard r c :
  wfBoard board ->
  makeMove board move = Returned res ->
  MoveResult.newBoard res = Some newBoard ->
  0 <= r < 8 -> 0 <= c < 8 ->
  ¬ In (r, c) (touchedSquares move) ->
  cell newBoard r c = cell board r c.
Proof.
  intros Hwf Hmake Hnew Hr Hc Hout. unfold makeMove in Hmake. cbv zeta in Hmake.
  destruct (rowAt board (ChessSquare.row (ChessMove.from move)));
    [|discriminate].
  destruct (cell board (ChessSquare.row (ChessMove.from move))
              (ChessSquare.col (ChessMove.from move))) as [piece|].
  - destruct (rowAt board (ChessSquare.row (ChessMove.to move)));
      [|discriminate].
    injection Hmake as <-. simpl in Hnew. injection Hnew as <-.
    apply applyMove_frame; assumption.
  - injection Hmake as <-. discriminate.
Qed.

Lemma makeMove_frame_witness :
  cell (applyMove castleReady (castleMove 7 4 7 6 kingside)
          (ChessPiece.mk (Some king) (Some white) None)) 7 0
  = cell castleReady 7 0.
Proof.
  apply (makeMove_frame castleReady (castleMove 7 4 7 6 kingside)
           (MoveResult.mk true None (Some (castleMove 7 4 7 6 kingside))
              (Some (applyMove castleReady (castleMove 7 4 7 6 kingside)
                       (ChessPiece.mk (Some king) (Some white) None)))
              None (Some false) (Some false) (Some false))
           _ 7 0 (wfBoardb_spec castleReady eq_refl)).
  - vm_compute. reflexivity.
  - reflexivity.
  - lia.
  - lia.
  - vm_compute. intuition discriminate.
Defined.

Ltac read_cells Hwf :=
  repeat (rewrite cell_setCell;
          [|repeat apply setCell_wf; exact Hwf|simpl; lia|simpl; lia]).

(** The source and destination squares after a generated move. *)
Lemma applyMove_generated board row col piece m :
  wfBoard board -> 0 <= row < 8 -> 0 <= col < 8 ->
  cell board row col = Some piece ->
  In m (getValidMoves board row col) ->
  cell (applyMove board m piece) row col = None
  ∧ destCell (applyMove board m piece) m
    = Some (ChessPiece.mk
              (if bool_decide (is_Some (ChessMove.promotion m))
               then Some queen else ChessPiece.type piece)
              (ChessPiece.color piece) (Some true)).
Proof.
  intros Hwf Hr Hc Hpiece Hin.
  pose proof (getValidMoves_moveShape _ _ _ _ _ Hwf Hr Hc Hpiece Hin)
    as (Hfrom & [Htr Htc] & Hne & _ & Hep & _ & _ & Hking & Hpromo & _).
  destruct (ChessMove.isCastle m) as [side|] eqn:Hcastle.
  - specialize (Hking ltac:(eauto)).
    apply (In_getValidMoves _ _ _ _ _ Hpiece) in Hin as [Hin _].
    rewrite Hking in Hin.
    apply In_getKingMoves in Hin
      as [(dr & dc & _ & _ & _ & _ & _ & ->)
         |(_ & _ & [(-> & -> & _)|(-> & -> & _)])]; [discriminate| |].
    + unfold destCell, applyMove, handleCastle, cloneBoard. simpl.
      read_cells Hwf. split; cell_cases.
    + unfold destCell, applyMove, handleCastle, cloneBoard. simpl.
      read_cells Hwf. split; cell_cases.
  - destruct m as [from [tr tc] promo cap chk mate castle ep].
    simpl in *. subst from castle ep.
    unfold destCell, applyMove, cloneBoard. simpl.
    destruct Hpromo as [->|(-> & _)]; simpl.
    + read_cells Hwf. split; cell_cases.
    + read_cells Hwf. split; cell_cases.
Qed.

(** X12. Applying with [makeMove] a move that [getValidMoves] returned for
    the piece on a square of an 8x8 board succeeds; in the new board the
    square the piece left is empty and the destination holds a piece of the
    mover's color marked as moved: a queen when the move carries a promotion,
    a piece of the mover's type otherwise. *)
Theorem valid_move_result board row col piece m :
  wfBoard board -> 0 <= row < 8 -> 0 <= col < 8 ->
  cell board row col = Some piece ->
  In m (getValidMoves board row col) ->
  ∃ res newBoard,
    makeMove board m = Returned res
    ∧ MoveResult.valid res = true
    ∧ MoveResult.newBoard res = Some newBoard
    ∧ cell newBoard row col = None
    ∧ destCell newBoard m
      = Some (ChessPiece.mk
                (if bool_decide (is_Some (ChessMove.promotion m))
                 then Some queen else ChessPiece.type piece)
                (ChessPiece.color piece) (Some true)).
Proof.
  intros Hwf Hr Hc Hpiece Hin.
  pose proof (getValidMoves_moveShape _ _ _ _ _ Hwf Hr Hc Hpiece Hin)
    as (Hfrom & Hto & _).
  pose proof (applyMove_generated _ _ _ _ _ Hwf Hr Hc Hpiece Hin)
    as [Hsrc Hdst].
  assert (squareInBounds (ChessMove.from m)) as Hfromb
    by (rewrite Hfrom; split; assumption).
  pose proof (makeMove_returns board m Hwf Hfromb Hto) as Hmake.
  unfold sourcePiece in Hmake. rewrite Hfrom in Hmake. simpl in Hmake.
  rewrite Hpiece in Hmake. cbv zeta in Hmake.
  eexists. exists (applyMove board m piece).
  split; [exact Hmake|]. simpl. repeat split; assumption.
Qed.

Lemma valid_move_result_witness :
  ∃ res newBoard,
    makeMove pawnOnSeventh (setPromotion (plainMove 1 0 0 0) promoQueen)
    = Returned res
    ∧ MoveResult.valid res = true
    ∧ MoveResult.newBoard res = Some newBoard
    ∧ cell newBoard 1 0 = None
    ∧ destCell newBoard (setPromotion (plainMove 1 0 0 0) promoQueen)
      = Some (ChessPiece.mk (Some queen) (Some white) (Some true)).
Proof.
  apply (valid_move_result pawnOnSeventh 1 0
           (ChessPiece.mk (Some pawn) (Some white) None)
           (setPromotion (plainMove 1 0 0 0) promoQueen)
           (wfBoardb_spec pawnOnSeventh eq_refl) ltac:(lia) ltac:(lia) eq_refl).
  vm_compute. tauto.
Defined.

(** ** A side without a king *)

Lemma find_none_intro {A} (f : A -> bool) l :
  (∀ x, In x l -> f x = false) -> List.find f l = None.
Proof.
  induction l as [|x l IH]; intros Hall; [reflexivity|]. simpl.
  rewrite (Hall x) by (left; reflexivity).
  apply IH. intros y Hy. apply Hall. right. exact Hy.
Qed.

Lemma no_king_cell board color r c :
  kingSquares board color = [] -> 0 <= r < 8 -> 0 <= c < 8 ->
  isPieceOf king color (cell board r c) = false.
Proof.
  intros Hnone Hr Hc.
  destruct (isPieceOf king color (cell board r c)) eqn:Hk; [|reflexivity].
  assert (In (r, c) (kingSquares board color)) as Hin.
  { unfold kingSquares. apply filter_In. split; [|exact Hk].
    apply In_allSquares. split; assumption. }
  rewrite Hnone in Hin. destruct Hin.
Qed.

(** X13. A side that has no king on the board is never held back by the
    check test: [isInCheck] is false for it, and [wouldBeInCheck] is false
    for every move between squares of an 8x8 board, whatever the move's
    flags, so [getValidMoves] filters out none of its moves. *)
Theorem no_king_never_in_check board color m :
  wfBoard board ->
  squareInBounds (ChessMove.from m) -> squareInBounds (ChessMove.to m) ->
  kingSquares board color = [] ->
  isInCheck board color = false ∧ wouldBeInCheck board m color = false.
Proof.
  intros Hwf [Hfr Hfc] [Htr Htc] Hnone.
  pose proof (no_king_cell board color) as Hcell.
  specialize (fun r c => Hcell r c Hnone).
  split.
  - unfold isInCheck, findKing. rewrite find_none_intro; [reflexivity|].
    intros [r c] Hin. apply In_allSquares in Hin as [Hr Hc].
    apply Hcell; assumption.
  - unfold wouldBeInCheck, isInCheck, findKing, cloneBoard. cbv zeta.
    rewrite find_none_intro; [reflexivity|].
    intros [r c] Hin. apply In_allSquares in Hin as [Hr Hc].
    assert (0 <= (if bool_decide (color = Some white) then 7 else 0) < 8)
      as Hrook by (destruct (bool_decide _); lia).
    set (rookRow := if bool_decide (color = Some white) then 7 else 0) in *.
    destruct (ChessMove.isCastle m) as [[|]|];
      destruct (truthy (ChessMove.isEnPassant m));
      repeat (rewrite cell_setCell;
              [|repeat apply setCell_wf; exact Hwf|lia|lia]);
      repeat case_bool_decide; try reflexivity; apply Hcell; lia.
Qed.

Lemma no_king_never_in_check_witness :
  isInCheck emptyBoard (Some white) = false
  ∧ wouldBeInCheck emptyBoard (plainMove 6 4 4 4) (Some white) = false.
Proof.
  apply (no_king_never_in_check emptyBoard (Some white) (plainMove 6 4 4 4)
           (wfBoardb_spec emptyBoard eq_refl)).
  - unfold squareInBounds. simpl. lia.
  - unfold squareInBounds. simpl. lia.
  - reflexivity.
Defined.

(** ** What the end-of-game flags mean *)

Lemma noValidMoves_true board color :
  noValidMoves board color = true <-> noLegalMove board color.
Proof.
  unfold noValidMoves, noLegalMove. rewrite forallb_forall. split.
  - intros Hall r c piece Hr Hc Hpiece Hcolor.
    specialize (Hall (r, c) (proj2 (In_allSquares r c) (conj Hr Hc))).
    simpl in Hall. rewrite Hpiece, bool_decide_eq_true_2 in Hall by exact Hcolor.
    destruct (getValidMoves board r c); [reflexivity|discriminate].
  - intros Hnone [r c] Hin. apply In_allSquares in Hin as [Hr Hc].
    destruct (cell board r c) as [piece|] eqn:Hpiece; [|reflexivity].
    case_bool_decide as Hcolor; [|reflexivity].
    rewrite (Hnone r c piece Hr Hc Hpiece Hcolor). reflexivity.
Qed.

(** X14. The flags of a successful [makeMove]: [isCheckmate] is true exactly
    when the result reports the mover's opponent in check and no piece of the
    opponent has a move that [getValidMoves] returns on the new board;
    [isStalemate] is true exactly when the result reports no check and no
    piece of the opponent has such a move. *)
Theorem makeMove_flags board move piece res newBoard :
  sourcePiece board move = Some piece ->
  makeMove board move = Returned res ->
  MoveResult.newBoard res = Some newBoard ->
  let opp := opponentColorOf (ChessPiece.color piece) in
  (MoveResult.isCheckmate res = Some true
   <-> MoveResult.inCheck res = Some opp ∧ noLegalMove newBoard opp)
  ∧ (MoveResult.isStalemate res = Some true
     <-> MoveResult.inCheck res = None ∧ noLegalMove newBoard opp).
Proof.
  intros Hsrc Hmake Hnew opp. unfold makeMove in Hmake. cbv zeta in Hmake.
  unfold sourcePiece in Hsrc.
  destruct (rowAt board (ChessSquare.row (ChessMove.from move)));
    [|discriminate].
  rewrite Hsrc in Hmake.
  destruct (rowAt board (ChessSquare.row (ChessMove.to move)));
    [|discriminate].
  injection Hmake as <-. simpl in *. injection Hnew as <-.
  fold opp. unfold isCheckmate, isStalemate.
  rewrite <- noValidMoves_true.
  destruct (isInCheck (applyMove board move piece) (Some opp)); simpl.
  - split.
    + split; [intros [= ->]; auto|intros [_ ->]; reflexivity].
    + split; [intros [=]|intros [[=] _]].
  - split.
    + split; [intros [=]|intros [[=] _]].
    + split; [intros [= ->]; auto|intros [_ ->]; reflexivity].
Qed.

Lemma makeMove_flags_witness :
  ∃ res newBoard,
    makeMove kingsOnly (plainMove 7 4 7 3) = Returned res
    ∧ MoveResult.newBoard res = Some newBoard
    ∧ (MoveResult.isCheckmate res = Some true
       <-> MoveResult.inCheck res = Some black ∧ noLegalMove newBoard black)
    ∧ (MoveResult.isStalemate res = Some true
       <-> MoveResult.inCheck res = None ∧ noLegalMove newBoard black).
Proof.
  eexists. eexists.
  split; [vm_compute; reflexivity|]. split; [reflexivity|].
  apply (makeMove_flags kingsOnly (plainMove 7 4 7 3)
           (ChessPiece.mk (Some king) (Some white) None)).
  - reflexivity.
  - vm_compute. reflexivity.
  - reflexivity.
Defined.

(** ** The generators without the check filter *)

Lemma cell_off_board board r c :
  wfBoard board -> ¬ 0 <= r < 8 -> cell board r c = None.
Proof.
  intros Hwf Hout. destruct (cell board r c) as [p|] eqn:Hcell; [|reflexivity].
  exfalso. apply Hout. exact (cell_Some_row _ _ _ _ Hwf Hcell).
Qed.

Lemma getPawnMoves_map_basic board row col piece :
  wfBoard board ->
  getPawnMoves board row col piece []
  = map (promoteOnFarRank piece) (getPawnBasicMoves board row col piece []).
Proof.
  intros Hwf. unfold getPawnMoves, getPawnBasicMoves, promoteOnFarRank, farRank.
  cbv zeta.
  set (d := if bool_decide (ChessPiece.color piece = Some white) then -1 else 1).
  destruct ((0 <=? row + d) && (row + d <? 8)) eqn:Hrow; [reflexivity|].
  assert (¬ 0 <= row + d < 8) as Hout.
  { intros [H0 H8]. apply andb_false_iff in Hrow as [Hb|Hb];
      [apply Z.leb_gt in Hb|apply Z.ltb_ge in Hb]; lia. }
  cbn [andb fold_left].
  rewrite !(cell_off_board board (row + d)) by assumption.
  destruct ((0 <=? col + -1) && (col + -1 <? 8)),
           ((0 <=? col + 1) && (col + 1 <? 8)); reflexivity.
Qed.

(** X15. The two pawn generators agree: on an 8x8 board [getPawnMoves]
    returns the moves of [getPawnBasicMoves], in the same order, each with
    the queen as promotion type when it lands on the far rank. *)
Theorem getPawnMoves_basic board row col piece :
  wfBoard board ->
  getPawnMoves board row col piece []
  = map (promoteOnFarRank piece) (getPawnBasicMoves board row col piece []).
Proof. exact (getPawnMoves_map_basic board row col piece). Qed.

Lemma getPawnMoves_basic_witness :
  getPawnMoves pawnOnSeventh 1 0 (ChessPiece.mk (Some pawn) (Some white) None) []
  = map (promoteOnFarRank (ChessPiece.mk (Some pawn) (Some white) None))
      (getPawnBasicMoves pawnOnSeventh 1 0
         (ChessPiece.mk (Some pawn) (Some white) None) []).
Proof.
  apply (getPawnMoves_basic pawnOnSeventh 1 0
           (ChessPiece.mk (Some pawn) (Some white) None)
           (wfBoardb_spec pawnOnSeventh eq_refl)).
Defined.

Lemma getKingBasicMoves_eq board row col piece moves :
  getKingBasicMoves board row col piece moves
  = moves
    ++ flat_map (fun '(dr, dc) =>
         if inBounds (row + dr) (col + dc) then
           if match cell board (row + dr) (col + dc) with
              | None => true
              | Some targetPiece => otherColor targetPiece piece
              end
           then [plainMove row col (row + dr) (col + dc)] else []
         else []) directions.
Proof.
  unfold getKingBasicMoves. apply fold_left_flat_map. intros acc [dr dc].
  cbv zeta. destruct (inBounds _ _); [|rewrite app_nil_r; reflexivity].
  match goal with
  | |- context [if ?free then _ else acc] => destruct free
  end; [reflexivity|rewrite app_nil_r; reflexivity].
Qed.

(** X16. [getBasicMoves] covers [getValidMoves]: on an 8x8 board every move
    [getValidMoves] returns for the piece on a square, a castle apart, is a
    move [getBasicMoves] returns for that piece and square (for a pawn, with
    the promotion mark added); for a knight, bishop, rook or queen the
    converse holds for the moves that pass [wouldBeInCheck]. *)
Theorem basic_moves_cover board row col piece m :
  wfBoard board ->
  cell board row col = Some piece ->
  (In m (getValidMoves board row col) -> ChessMove.isCastle m = None ->
     ∃ m0, In m0 (getBasicMoves board row col piece)
           ∧ m = if bool_decide (ChessPiece.type piece = Some pawn)
                 then promoteOnFarRank piece m0 else m0)
  ∧ (ChessPiece.type piece ≠ Some pawn -> ChessPiece.type piece ≠ Some king ->
     In m (getBasicMoves board row col piece) ->
     wouldBeInCheck board m (ChessPiece.color piece) = false ->
     In m (getValidMoves board row col)).
Proof.
  intros Hwf Hpiece. split.
  - intros Hin Hcastle.
    apply (In_getValidMoves _ _ _ _ _ Hpiece) in Hin as [Hin _].
    unfold getBasicMoves. cbv zeta.
    destruct (ChessPiece.type piece) as [[| | | | |]|] eqn:Htype;
      try (exists m; split; [exact Hin|reflexivity]).
    + (* pawn *)
      rewrite (getPawnMoves_map_basic _ _ _ _ Hwf) in Hin.
      apply in_map_iff in Hin as (m0 & <- & Hin).
      exists m0. split; [exact Hin|reflexivity].
    + (* king *)
      exists m. split; [|reflexivity].
      apply In_getKingMoves in Hin
        as [(dr & dc & Hd & Hnr & Hnc & Hland & _ & ->)
           |(_ & _ & [(-> & _)|(-> & _)])]; [|discriminate..].
      rewrite getKingBasicMoves_eq, app_nil_l, in_flat_map.
      exists (dr, dc). split; [exact Hd|].
      rewrite (proj2 (inBounds_spec _ _)) by (split; assumption).
      destruct (cell board (row + dr) (col + dc)) as [target|] eqn:Hcell.
      * rewrite (proj2 (otherColor_true target piece)) by (apply Hland; exact Hcell).
        left. reflexivity.
      * left. reflexivity.
  - intros Hnopawn Hnoking Hin Hsafe.
    apply (In_getValidMoves _ _ _ _ _ Hpiece). split; [|exact Hsafe].
    unfold getBasicMoves in Hin. cbv zeta in Hin.
    destruct (ChessPiece.type piece) as [[| | | | |]|]; congruence || exact Hin.
Qed.

Lemma basic_moves_cover_witness :
  ∃ m0, In m0 (getBasicMoves pawnOnSeventh 1 0
                 (ChessPiece.mk (Some pawn) (Some white) None))
        ∧ setPromotion (plainMove 1 0 0 0) promoQueen
          = promoteOnFarRank (ChessPiece.mk (Some pawn) (Some white) None) m0.
Proof.
  apply (proj1 (basic_moves_cover pawnOnSeventh 1 0
                  (ChessPiece.mk (Some pawn) (Some white) None)
                  (setPromotion (plainMove 1 0 0 0) promoQueen)
                  (wfBoardb_spec pawnOnSeventh eq_refl) eq_refl)).
  - vm_compute. tauto.
  - reflexivity.
Defined.

(** ** [canCastle] *)


(** Scanning away from the rook over empty squares never ends. *)
Lemma castleScan_away fuel board row c rookCol :
  c < rookCol ->
  (∀ c', c' <= c -> cell board row c' = None) ->
  castleScan fuel board row c rookCol (-1) = None.
Proof.
  revert c. induction fuel as [|fuel IH]; intros c Hlt Hempty; [reflexivity|].
  simpl. destruct (Z.eqb_spec c rookCol) as [Heq|_]; [lia|].
  rewrite bool_decide_eq_false_2
    by (rewrite (Hempty c) by lia; intros [? [=]]).
  apply IH; [lia|]. intros c' Hc'. apply Hempty. lia.
Qed.



(** X18. Called for the rook's own corner ([col] is the column of the chosen
    side's rook, which stands there unmoved) with nothing to its left on the
    row, [canCastle] never returns: its loop steps away from the corner and
    no round ends it. *)
Theorem canCastle_never_returns fuel board row col side color :
  col = (if side =? 0 then 7 else 0) ->
  notCastleRook (cell board row col) = false ->
  (∀ c, c < col -> cell board row c = None) ->
  canCastle fuel board row col side color = None.
Proof.
  intros Hcol Hrook Hempty. unfold canCastle. cbv zeta. rewrite <- Hcol, Hrook.
  rewrite Z.ltb_irrefl.
  rewrite castleScan_away; [reflexivity|lia|].
  intros c' Hc'. apply Hempty. lia.
Qed.

Lemma canCastle_never_returns_witness :
  canCastle 100 castleReady 7 0 1 white = None.
Proof.
  apply (canCastle_never_returns 100 castleReady 7 0 1 white).
  - reflexivity.
  - reflexivity.
  - intros c Hc. unfold cell.
    destruct (rowAt castleReady 7); [|reflexivity].
    rewrite (proj2 (Z.ltb_lt c 0)) by lia. reflexivity.
Defined.

(** ** The check filter on king moves *)

(** For a step of the only king of its color, [wouldBeInCheck] asks what
    [getKingMoves] asked already: whether the destination is attacked on the
    board with the king moved there. *)
Lemma king_step_check board row col piece r c :
  wfBoard board -> 0 <= row < 8 -> 0 <= col < 8 -> 0 <= r < 8 -> 0 <= c < 8 ->
  cell board row col = Some piece ->
  ChessPiece.type piece = Some king ->
  atMostOneKing board (ChessPiece.color piece) ->
  (r, c) ≠ (row, col) ->
  wouldBeInCheck board (plainMove row col r c) (ChessPiece.color piece)
  = isSquareUnderAttack (kingTestBoard board row col piece r c) r c
      (opponentColorOf (ChessPiece.color piece)).
Proof.
  intros Hwf Hrow Hcol Hr Hc Hpiece Hking Hone Hne.
  unfold wouldBeInCheck. cbv zeta. simpl. unfold cloneBoard. rewrite Hpiece.
  change (setCell (setCell board r c (Some piece)) row col None)
    with (kingTestBoard board row col piece r c).
  assert (∀ r' c',
            cell (kingTestBoard board row col piece r c) r' c'
            = if bool_decide ((row, col) = (r', c')) then None
              else if bool_decide ((r, c) = (r', c')) then Some piece
              else cell board r' c') as Hcells.
  { intros r' c'. unfold kingTestBoard, cloneBoard.
    rewrite !cell_setCell by (solve_wf || lia). reflexivity. }
  assert (isPieceOf king (ChessPiece.color piece) (Some piece) = true) as Hk.
  { unfold isPieceOf. rewrite !bool_decide_eq_true_2; auto. }
  unfold isInCheck. rewrite (findKing_only _ _ r c); try assumption.
  - reflexivity.
  - rewrite Hcells, bool_decide_eq_false_2, bool_decide_eq_true_2; auto.
  - intros r' c' Hr' Hc'. rewrite Hcells.
    case_bool_decide as H1; [discriminate|].
    case_bool_decide as H2; [intros _; symmetry; exact H2|].
    intros Hk'. exfalso. apply H1.
    apply (atMostOneKing_unique board (ChessPiece.color piece));
      try assumption.
    rewrite Hpiece. exact Hk.
Qed.

(** X19. On an 8x8 board with no second king of its color, the check filter
    of [getValidMoves] removes no king step: every step that [getKingMoves]
    pushes (it has tested the destination for attacks itself) passes
    [wouldBeInCheck], so the king's non-castling moves are exactly the steps
    the generator pushed. *)
Theorem king_steps_pass_filter board row col piece m :
  wfBoard board -> 0 <= row < 8 -> 0 <= col < 8 ->
  cell board row col = Some piece ->
  ChessPiece.type piece = Some king ->
  atMostOneKing board (ChessPiece.color piece) ->
  In m (getKingMoves board row col piece []) ->
  ChessMove.isCastle m = None ->
  In m (getValidMoves board row col).
Proof.
  intros Hwf Hrow Hcol Hpiece Hking Hone Hin Hcastle.
  apply (In_getValidMoves _ _ _ _ _ Hpiece). rewrite Hking.
  split; [exact Hin|].
  apply In_getKingMoves in Hin
    as [(dr & dc & Hd & Hnr & Hnc & _ & Hsafe & ->)
       |(_ & _ & [(-> & _)|(-> & _)])]; [|discriminate..].
  rewrite king_step_check; try assumption.
  apply direction_nonzero in Hd. intros [= ? ?]. lia.
Qed.

Lemma king_steps_pass_filter_witness :
  In (plainMove 7 4 7 3) (getValidMoves kingsOnly 7 4).
Proof.
  apply (king_steps_pass_filter kingsOnly 7 4
           (ChessPiece.mk (Some king) (Some white) None) (plainMove 7 4 7 3)
           (wfBoardb_spec kingsOnly eq_refl) ltac:(lia) ltac:(lia)
           eq_refl eq_refl).
  - vm_compute. lia.
  - vm_compute. tauto.
  - reflexivity.
Defined.

Lemma isCastleRook_notCastleRook piece o :
  isCastleRook piece o = true -> notCastleRook o = false.
Proof.
  unfold isCastleRook, notCastleRook. destruct o as [r|]; [|discriminate].
  rewrite !andb_true_iff, negb_true_iff. intros [[-> _] ->]. reflexivity.
Qed.

(** X20. [canCastle] agrees with the castling test of [getKingMoves]: when
    the generator pushes a castle for the only king of its color on an 8x8
    board, [canCastle], called for the king's square and that side (0 for the
    kingside, 1 for the queenside), returns true. *)
Theorem generated_castle_canCastle board row col piece c side toCol :
  wfBoard board -> 0 <= row < 8 ->
  cell board row col = Some piece ->
  ChessPiece.type piece = Some king ->
  ChessPiece.color piece = Some c ->
  atMostOneKing board (Some c) ->
  In (castleMove row col row toCol side) (getKingMoves board row col piece []) ->
  canCastle 8 board row col (sideNumber side) c = Some true.
Proof.
  intros Hwf Hrow Hpiece Hking Hcolor Hone Hin.
  assert (∀ k, 0 <= k < 8 -> k ≠ 4 -> col = 4 ->
            isSquareUnderAttack (kingTestBoard board row col piece row k) row k
              (opponentColorOf (ChessPiece.color piece)) = false ->
            wouldBeInCheck board (plainMove row col row k) (Some c) = false)
    as Hstep.
  { intros k Hk Hk4 -> Hsafe.
    assert (atMostOneKing board (ChessPiece.color piece)) as Hone'
      by (rewrite Hcolor; exact Hone).
    assert ((row, k) ≠ (row, 4)) as Hne by (intros [= ?]; lia).
    pose proof (king_step_check board row 4 piece row k Hwf Hrow
                  ltac:(lia) Hrow Hk Hpiece Hking Hone' Hne) as Hcheck.
    rewrite Hsafe, Hcolor in Hcheck. exact Hcheck. }
  apply In_getKingMoves in Hin
    as [(dr & dc & _ & _ & _ & _ & _ & [=])
       |(_ & _ & [([= -> ->] & Hcol & Hrook & H5 & H6)
                 |([= -> ->] & Hcol & Hrook & H3 & H2 & H1)])].
  - (* kingside *)
    apply castlePathOk_inv in H5 as [H5 Hsafe5].
    apply castlePathOk_inv in H6 as [H6 _].
    specialize (Hsafe5 ltac:(subst col; reflexivity)).
    unfold canCastle, sideNumber. cbv zeta.
    change (0 =? 0) with true. cbv iota.
    rewrite (isCastleRook_notCastleRook _ _ Hrook).
    subst col. simpl.
    change (4 + 1 + 1) with 6. change (4 + 1) with 5.
    rewrite H5, H6.
    rewrite !bool_decide_eq_false_2 by (intros [? [=]]).
    rewrite (Hstep 5); [reflexivity|lia|lia|reflexivity|exact Hsafe5].
  - (* queenside *)
    apply castlePathOk_inv in H3 as [H3 Hsafe3].
    apply castlePathOk_inv in H2 as [H2 _].
    apply castlePathOk_inv in H1 as [H1 _].
    specialize (Hsafe3 ltac:(subst col; reflexivity)).
    unfold canCastle, sideNumber. cbv zeta.
    change (1 =? 0) with false. cbv iota.
    rewrite (isCastleRook_notCastleRook _ _ Hrook).
    subst col. simpl.
    change (4 + -1 + -1 + -1) with 1. change (4 + -1 + -1) with 2.
    change (4 + -1) with 3. change (4 - 1) with 3.
    rewrite H3, H2, H1.
    rewrite !bool_decide_eq_false_2 by (intros [? [=]]).
    rewrite (Hstep 3); [reflexivity|lia|lia|reflexivity|exact Hsafe3].
Qed.

Lemma generated_castle_canCastle_witness :
  canCastle 8 castleReady 7 4 0 white = Some true.
Proof.
  apply (generated_castle_canCastle castleReady 7 4
           (ChessPiece.mk (Some king) (Some white) None) white kingside 6
           (wfBoardb_spec castleReady eq_refl) ltac:(lia)
           eq_refl eq_refl eq_refl).
  - vm_compute. lia.
  - vm_compute. tauto.
Defined.

(** ** Reading a move back from its notation *)

Lemma moveToAlgebraic_coordinates move :
  squareInBounds (ChessMove.from move) -> squareInBounds (ChessMove.to move) ->
  ChessMove.isCastle move = None ->
  moveToAlgebraic move = coordinateNotation move.
Proof.
  intros [Hfr Hfc] [Htr Htc] Hcastle. unfold moveToAlgebraic. cbv zeta.
  rewrite Hcastle. rewrite !bool_decide_eq_false_2 by discriminate.
  rewrite !jsIndex_files, !jsIndex_ranks by assumption.
  unfold coordinateNotation, squareName. simpl jsAdd. simpl jsToString.
  assert (∀ s : string, "" +:+ s = s) as Hnil by reflexivity.
  destruct (ChessMove.promotion move) as [p|];
    [rewrite promotion_suffix|];
    destruct (truthy (ChessMove.isCheck move)),
             (truthy (ChessMove.isCheckmate move));
    rewrite ?Hnil, ?append_assoc, ?append_empty_r, ?Hnil; reflexivity.
Qed.

Lemma fileLetter_char c :
  0 <= c < 8 -> ∃ a, fileLetter c = String a "".
Proof.
  intros Hc. apply eight_cases in Hc.
  repeat destruct Hc as [->|Hc]; try subst c; eexists; reflexivity.
Qed.

Lemma rankDigit_char r :
  0 <= r < 8 -> ∃ a, rankDigit r = String a "".
Proof.
  intros Hr. apply eight_cases in Hr.
  repeat destruct Hr as [->|Hr]; try subst r; eexists; reflexivity.
Qed.

Lemma fileLetter_inj c1 c2 :
  0 <= c1 < 8 -> 0 <= c2 < 8 -> fileLetter c1 = fileLetter c2 -> c1 = c2.
Proof.
  intros H1 H2. apply eight_cases in H1. apply eight_cases in H2.
  repeat destruct H1 as [->|H1]; try subst c1;
    repeat destruct H2 as [->|H2]; try subst c2;
    intros H; try reflexivity; discriminate H.
Qed.

Lemma rankDigit_inj r1 r2 :
  0 <= r1 < 8 -> 0 <= r2 < 8 -> rankDigit r1 = rankDigit r2 -> r1 = r2.
Proof.
  intros H1 H2. apply eight_cases in H1. apply eight_cases in H2.
  repeat destruct H1 as [->|H1]; try subst r1;
    repeat destruct H2 as [->|H2]; try subst r2;
    intros H; try reflexivity; discriminate H.
Qed.

Lemma squareName_chars sq :
  squareInBounds sq ->
  ∃ a b, fileLetter (ChessSquare.col sq) = String a ""
         ∧ rankDigit (ChessSquare.row sq) = String b ""
         ∧ ∀ s, squareName sq +:+ s = String a (String b s).
Proof.
  intros [Hr Hc].
  destruct (fileLetter_char _ Hc) as (a & Ha).
  destruct (rankDigit_char _ Hr) as (b & Hb).
  exists a, b. split; [exact Ha|]. split; [exact Hb|].
  intros s. unfold squareName. rewrite Ha, Hb. reflexivity.
Qed.

Lemma squareName_inj sq1 sq2 a b :
  squareInBounds sq1 -> squareInBounds sq2 ->
  fileLetter (ChessSquare.col sq1) = String a "" ->
  rankDigit (ChessSquare.row sq1) = String b "" ->
  fileLetter (ChessSquare.col sq2) = String a "" ->
  rankDigit (ChessSquare.row sq2) = String b "" ->
  sq1 = sq2.
Proof.
  intros [Hr1 Hc1] [Hr2 Hc2] Hf1 Hd1 Hf2 Hd2.
  destruct sq1 as [r1 c1], sq2 as [r2 c2]. simpl in *.
  f_equal.
  - apply rankDigit_inj; try assumption. congruence.
  - apply fileLetter_inj; try assumption. congruence.
Qed.

Lemma notation_suffix_inj (p1 p2 : option Promotion) (k1 k2 t1 t2 : bool) :
  match p1 with Some p => "=" +:+ promotionLetter p | None => "" end
  +:+ (if k1 then "+" else "") +:+ (if t1 then "#" else "")
  = match p2 with Some p => "=" +:+ promotionLetter p | None => "" end
    +:+ (if k2 then "+" else "") +:+ (if t2 then "#" else "") ->
  p1 = p2 ∧ k1 = k2 ∧ t1 = t2.
Proof.
  destruct p1 as [[| | |]|], p2 as [[| | |]|], k1, k2, t1, t2;
    intros H; try discriminate H; repeat split; reflexivity.
Qed.

(** X21. The notation tells the move: two moves between squares of the
    board, neither a castle, to which [moveToAlgebraic] gives the same string
    have the same source, destination and promotion type and agree on whether
    the check flag and the checkmate flag are set. *)
Theorem moveToAlgebraic_injective m1 m2 :
  squareInBounds (ChessMove.from m1) -> squareInBounds (ChessMove.to m1) ->
  squareInBounds (ChessMove.from m2) -> squareInBounds (ChessMove.to m2) ->
  ChessMove.isCastle m1 = None -> ChessMove.isCastle m2 = None ->
  moveToAlgebraic m1 = moveToAlgebraic m2 ->
  ChessMove.from m1 = ChessMove.from m2
  ∧ ChessMove.to m1 = ChessMove.to m2
  ∧ ChessMove.promotion m1 = ChessMove.promotion m2
  ∧ truthy (ChessMove.isCheck m1) = truthy (ChessMove.isCheck m2)
  ∧ truthy (ChessMove.isCheckmate m1) = truthy (ChessMove.isCheckmate m2).
Proof.
  intros Hf1 Ht1 Hf2 Ht2 Hc1 Hc2 Heq.
  rewrite !moveToAlgebraic_coordinates in Heq by assumption.
  unfold coordinateNotation in Heq.
  destruct (squareName_chars _ Hf1) as (a1 & b1 & Ha1 & Hb1 & Hs1).
  destruct (squareName_chars _ Ht1) as (a2 & b2 & Ha2 & Hb2 & Hs2).
  destruct (squareName_chars _ Hf2) as (a3 & b3 & Ha3 & Hb3 & Hs3).
  destruct (squareName_chars _ Ht2) as (a4 & b4 & Ha4 & Hb4 & Hs4).
  rewrite Hs1, Hs2, Hs3, Hs4 in Heq.
  injection Heq as -> -> -> -> Hsuffix.
  apply notation_suffix_inj in Hsuffix as (Hp & Hk & Hm).
  split; [exact (squareName_inj _ _ _ _ Hf1 Hf2 Ha1 Hb1 Ha3 Hb3)|].
  split; [exact (squareName_inj _ _ _ _ Ht1 Ht2 Ha2 Hb2 Ha4 Hb4)|].
  auto.
Qed.

Lemma moveToAlgebraic_injective_witness :
  ChessMove.from (plainMove 6 4 4 4) = ChessMove.from (captureMove 6 4 4 4 false).
Proof.
  apply (moveToAlgebraic_injective (plainMove 6 4 4 4) (captureMove 6 4 4 4 false));
    try (unfold squareInBounds; simpl; lia); reflexivity.
Defined.

(** ** Flags that no generator sets *)

Lemma makeMove_applied board move piece :
  wfBoard board ->
  squareInBounds (ChessMove.from move) -> squareInBounds (ChessMove.to move) ->
  sourcePiece board move = Some piece ->
  ∃ res, makeMove board move = Returned res
         ∧ MoveResult.valid res = true
         ∧ MoveResult.newBoard res = Some (applyMove board move piece).
Proof.
  intros Hwf Hfrom Hto Hsrc.
  pose proof (makeMove_returns board move Hwf Hfrom Hto) as Hmake.
  rewrite Hsrc in Hmake. cbv zeta in Hmake.
  eexists. split; [exact Hmake|]. split; reflexivity.
Qed.

(** X22. A move flagged as en passant makes [makeMove] clear the square in
    the source row and the destination column, whatever stands there (no
    generator sets the flag; the caller's word is taken): in the new board
    that square is empty, unless it is the destination itself and the move
    also promotes. *)
Theorem makeMove_en_passant board move piece :
  wfBoard board ->
  squareInBounds (ChessMove.from move) -> squareInBounds (ChessMove.to move) ->
  sourcePiece board move = Some piece ->
  truthy (ChessMove.isEnPassant move) = true ->
  ChessSquare.row (ChessMove.from move) ≠ ChessSquare.row (ChessMove.to move)
  ∨ ChessMove.promotion move = None ->
  ∃ res newBoard,
    makeMove board move = Returned res
    ∧ MoveResult.valid res = true
    ∧ MoveResult.newBoard res = Some newBoard
    ∧ cell newBoard (ChessSquare.row (ChessMove.from move))
        (ChessSquare.col (ChessMove.to move)) = None.
Proof.
  intros Hwf Hfrom Hto Hsrc Hep Hside.
  destruct (makeMove_applied board move piece Hwf Hfrom Hto Hsrc)
    as (res & Hmake & Hvalid & Hnew).
  exists res, (applyMove board move piece).
  repeat (split; [assumption|]).
  destruct Hfrom as [Hfr Hfc], Hto as [Htr Htc].
  unfold applyMove, handleEnPassant, cloneBoard. cbv zeta. rewrite Hep.
  assert (∀ b, wfBoard b ->
            wfBoard (if bool_decide (is_Some (ChessMove.isCastle move))
                     then handleCastle b move else b)) as Hwfc.
  { intros b Hb. destruct (bool_decide _); [apply handleCastle_wf|]; exact Hb. }
  destruct (ChessMove.promotion move) as [p|].
  - destruct Hside as [Hrow|[=]].
    rewrite cell_setCell_ne, cell_setCell_eq; try assumption.
    + reflexivity.
    + apply Hwfc. solve_wf.
    + apply setCell_wf, Hwfc. solve_wf.
    + intros [= ?]. congruence.
  - apply cell_setCell_eq; try assumption. apply Hwfc. solve_wf.
Qed.

Lemma makeMove_en_passant_witness :
  ∃ res newBoard,
    makeMove pawnBelowTarget
      (ChessMove.mk (ChessSquare.mk 7 4) (ChessSquare.mk 6 3)
         None None None None None (Some true)) = Returned res
    ∧ MoveResult.valid res = true
    ∧ MoveResult.newBoard res = Some newBoard
    ∧ cell newBoard 7 3 = None.
Proof.
  apply (makeMove_en_passant pawnBelowTarget
           (ChessMove.mk (ChessSquare.mk 7 4) (ChessSquare.mk 6 3)
              None None None None None (Some true))
           (ChessPiece.mk (Some king) (Some white) None)
           (wfBoardb_spec pawnBelowTarget eq_refl)).
  - unfold squareInBounds. simpl. lia.
  - unfold squareInBounds. simpl. lia.
  - reflexivity.
  - reflexivity.
  - left. simpl. lia.
Defined.

(** X23. [makeMove] takes the castle flag on the caller's word: for a move
    flagged as a castle while the corner of that side is empty, it still
    writes a rook beside the king's destination, and what it writes is the
    spread of [null]: an object with [hasMoved] set and neither type nor
    color. *)
Theorem makeMove_castle_without_rook board move piece side :
  wfBoard board ->
  squareInBounds (ChessMove.from move) -> squareInBounds (ChessMove.to move) ->
  sourcePiece board move = Some piece ->
  ChessMove.isCastle move = Some side ->
  0 <= newRookColOf move side < 8 ->
  cell board (ChessSquare.row (ChessMove.from move)) (rookColOf side) = None ->
  (ChessSquare.row (ChessMove.from move), rookColOf side)
  ≠ (ChessSquare.row (ChessMove.to move), ChessSquare.col (ChessMove.to move)) ->
  ∃ res newBoard,
    makeMove board move = Returned res
    ∧ MoveResult.valid res = true
    ∧ MoveResult.newBoard res = Some newBoard
    ∧ cell newBoard (ChessSquare.row (ChessMove.from move))
        (newRookColOf move side)
      = Some (ChessPiece.mk None None (Some true)).
Proof.
  intros Hwf Hfrom Hto Hsrc Hcastle Hnew Hcorner Hnotto.
  destruct (makeMove_applied board move piece Hwf Hfrom Hto Hsrc)
    as (res & Hmake & Hvalid & Hboard).
  exists res, (applyMove board move piece).
  repeat (split; [assumption|]).
  destruct Hfrom as [Hfr Hfc], Hto as [Htr Htc].
  assert (0 <= rookColOf side < 8) as Hrc by (destruct side; simpl; lia).
  unfold applyMove, handleCastle, handleEnPassant, cloneBoard. cbv zeta.
  rewrite Hcastle, bool_decide_eq_true_2 by eauto.
  destruct move as [[fr fc] [tr tc] promo cap chk mate castle ep].
  cbn [ChessMove.from ChessMove.to ChessSquare.row ChessSquare.col
       ChessMove.isCastle ChessMove.promotion ChessMove.isEnPassant] in *.
  subst castle.
  replace (if bool_decide (Some side = Some kingside) then 7 else 0)
    with (rookColOf side) by (destruct side; reflexivity).
  replace (if bool_decide (Some side = Some kingside) then tc - 1 else tc + 1)
    with (newRookColOf
            (ChessMove.mk (ChessSquare.mk fr fc) (ChessSquare.mk tr tc)
               promo cap chk mate (Some side) ep) side)
    by (destruct side; reflexivity).
  set (nc := newRookColOf _ side) in *.
  assert (nc ≠ tc ∧ nc ≠ rookColOf side) as [Hnt Hnr]
    by (unfold nc, newRookColOf; destruct side; simpl; lia).
  assert (cell (setCell (setCell board tr tc (Some (markMoved (Some piece))))
                  fr fc None) fr (rookColOf side) = None) as Hrook.
  { rewrite !cell_setCell by (solve_wf || lia).
    case_bool_decide; [reflexivity|].
    rewrite bool_decide_eq_false_2 by (intros Heq; apply Hnotto; congruence).
    exact Hcorner. }
  rewrite Hrook.
  destruct (truthy ep); destruct promo as [p|];
    rewrite !cell_setCell by (solve_wf || lia);
    repeat case_bool_decide; try reflexivity; simplify_eq;
    try congruence; try lia.
Qed.

Lemma makeMove_castle_without_rook_witness :
  ∃ res newBoard,
    makeMove kingsOnly (castleMove 7 4 7 6 kingside) = Returned res
    ∧ MoveResult.valid res = true
    ∧ MoveResult.newBoard res = Some newBoard
    ∧ cell newBoard 7 5 = Some (ChessPiece.mk None None (Some true)).
Proof.
  apply (makeMove_castle_without_rook kingsOnly (castleMove 7 4 7 6 kingside)
           (ChessPiece.mk (Some king) (Some white) None) kingside
           (wfBoardb_spec kingsOnly eq_refl)).
  - unfold squareInBounds. simpl. lia.
  - unfold squareInBounds. simpl. lia.
  - reflexivity.
  - reflexivity.
  - simpl. lia.
  - reflexivity.
  - simpl. intros [= ?].
Defined.

(** ** Edges of the board and spent castling rights *)

(** X24. A pawn standing on its far rank (row 0 for white, row 7 for
    black), which the promotion of [makeMove] normally prevents, has no move:
    on an 8x8 board [getValidMoves] returns the empty list for it, the row
    in front of it being off the board. *)
Theorem pawn_on_far_rank_stuck board row col piece :
  wfBoard board ->
  cell board row col = Some piece ->
  ChessPiece.type piece = Some pawn ->
  row = farRank (ChessPiece.color piece) ->
  getValidMoves board row col = [].
Proof.
  intros Hwf Hpiece Htype Hrow.
  destruct (getValidMoves board row col) as [|m l] eqn:Hmoves; [reflexivity|].
  exfalso.
  assert (In m (getValidMoves board row col)) as Hin
    by (rewrite Hmoves; left; reflexivity).
  apply (In_getValidMoves _ _ _ _ _ Hpiece) in Hin as [Hin _].
  rewrite Htype in Hin. apply In_getPawnMoves in Hin as (m0 & Hcand & _).
  assert (¬ 0 <= row + pawnAdvance piece < 8) as Hout.
  { rewrite Hrow. unfold farRank, pawnAdvance.
    destruct (bool_decide (ChessPiece.color piece = Some white)); lia. }
  unfold pawnCandidate in Hcand. cbv zeta in Hcand.
  destruct Hcand as [(Hin & _)|(dc & t & _ & _ & Hcell & _)].
  - exact (Hout Hin).
  - rewrite (cell_off_board _ _ _ Hwf Hout) in Hcell. discriminate.
Qed.

Lemma pawn_on_far_rank_stuck_witness :
  getValidMoves (place kingsOnly 0 0 pawn white) 0 0 = [].
Proof.
  apply (pawn_on_far_rank_stuck (place kingsOnly 0 0 pawn white) 0 0
           (ChessPiece.mk (Some pawn) (Some white) None)
           (wfBoardb_spec (place kingsOnly 0 0 pawn white) eq_refl)
           eq_refl eq_refl eq_refl).
Defined.

(** X25. Castling rights are spent by moving: after [makeMove] has applied a
    move that [getValidMoves] returned for a piece of an 8x8 board, no move
    that [getValidMoves] returns on the new board for the piece on the
    destination square is a castle. *)
Theorem moved_piece_never_castles board row col piece m res newBoard m' :
  wfBoard board -> 0 <= row < 8 -> 0 <= col < 8 ->
  cell board row col = Some piece ->
  In m (getValidMoves board row col) ->
  makeMove board m = Returned res ->
  MoveResult.newBoard res = Some newBoard ->
  In m' (getValidMoves newBoard (ChessSquare.row (ChessMove.to m))
           (ChessSquare.col (ChessMove.to m))) ->
  ChessMove.isCastle m' = None.
Proof.
  intros Hwf Hr Hc Hpiece Hin Hmake Hnew Hin'.
  pose proof (getValidMoves_moveShape _ _ _ _ _ Hwf Hr Hc Hpiece Hin)
    as (Hfrom & Hto & _).
  pose proof (applyMove_generated _ _ _ _ _ Hwf Hr Hc Hpiece Hin)
    as [_ Hdst].
  assert (squareInBounds (ChessMove.from m)) as Hfromb
    by (rewrite Hfrom; split; assumption).
  assert (sourcePiece board m = Some piece) as Hsrc
    by (unfold sourcePiece; rewrite Hfrom; exact Hpiece).
  destruct (makeMove_applied board m piece Hwf Hfromb Hto Hsrc)
    as (res' & Hmake' & _ & Hnew').
  rewrite Hmake in Hmake'. injection Hmake' as <-.
  rewrite Hnew in Hnew'. injection Hnew' as ->.
  unfold destCell in Hdst.
  apply (In_getValidMoves _ _ _ _ _ Hdst) in Hin' as [Hin' _].
  cbn [ChessPiece.type] in Hin'.
  set (moved := ChessPiece.mk _ _ (Some true)) in *.
  destruct (if bool_decide (is_Some (ChessMove.promotion m))
            then Some queen else ChessPiece.type piece)
    as [[| | | | |]|] eqn:Htype.
  - apply In_getPawnMoves in Hin' as (m0 & Hcand & ->).
    unfold promoteOnFarRank.
    unfold pawnCandidate in Hcand. cbv zeta in Hcand.
    destruct Hcand as [(_ & _ & [->|(_ & _ & ->)])|(dc & t & _ & _ & _ & _ & ->)];
      destruct (_ =? _); reflexivity.
  - rewrite getKnightMoves_eq, app_nil_l, in_flat_map in Hin'.
    destruct Hin' as ([dr dc] & _ & Hm).
    apply In_knightStep in Hm as (_ & _ & _ & ->). reflexivity.
  - unfold getBishopMoves in Hin'.
    rewrite getSlidingMoves_eq, app_nil_l, in_flat_map in Hin'.
    destruct Hin' as ([dr dc] & _ & Hm).
    apply In_slide in Hm as (k & _ & _ & _ & _ & ->).
    destruct (occupied _ _ _); reflexivity.
  - unfold getRookMoves in Hin'.
    rewrite getSlidingMoves_eq, app_nil_l, in_flat_map in Hin'.
    destruct Hin' as ([dr dc] & _ & Hm).
    apply In_slide in Hm as (k & _ & _ & _ & _ & ->).
    destruct (occupied _ _ _); reflexivity.
  - unfold getQueenMoves in Hin'.
    rewrite getSlidingMoves_eq, app_nil_l, in_flat_map in Hin'.
    destruct Hin' as ([dr dc] & _ & Hm).
    apply In_slide in Hm as (k & _ & _ & _ & _ & ->).
    destruct (occupied _ _ _); reflexivity.
  - apply In_getKingMoves in Hin'
      as [(dr & dc & _ & _ & _ & _ & _ & ->)|(Hmoved & _)];
      [reflexivity|discriminate Hmoved].
  - destruct Hin'.
Qed.

Lemma moved_piece_never_castles_witness :
  ChessMove.isCastle (plainMove 7 3 7 4) = None.
Proof.
  apply (moved_piece_never_castles castleReady 7 4
           (ChessPiece.mk (Some king) (Some white) None)
           (plainMove 7 4 7 3)
           (MoveResult.mk true None (Some (plainMove 7 4 7 3))
              (Some (applyMove castleReady (plainMove 7 4 7 3)
                       (ChessPiece.mk (Some king) (Some white) None)))
              None (Some false) (Some false) (Some false))
           (applyMove castleReady (plainMove 7 4 7 3)
              (ChessPiece.mk (Some king) (Some white) None))
           (plainMove 7 3 7 4)
           (wfBoardb_spec castleReady eq_refl) ltac:(lia) ltac:(lia) eq_refl).
  - vm_compute. tauto.
  - vm_compute. reflexivity.
  - reflexivity.
  - vm_compute. tauto.
Defined.
